(** * Roo: blanket recommendation rules, overnight weather metrics and
      dataset maintenance (app.js), and the service worker

    A shallow embedding of the rule engine ([ruleMatches],
    [pickRecommendation]), of the overnight metric reduction
    ([getTonightWindow], [computeTonightMetricsFromHourly],
    [fetchTonightMetrics]), of the dataset mutations ([deleteBlanket],
    [deleteCombo], [deleteRule], [moveRule], [sanitizeImportedData],
    [importData], the submit handlers of the forms) and of what
    [renderRules] and [renderRecommendation] show, all of app.js, and of
    the install, activate and fetch handlers of the service worker, with
    the properties the specification states about them and further
    properties of the code. The builtins of the runtime the code calls
    (number conversions, [String.prototype.trim], [JSON.stringify],
    [crypto.randomUUID], the time zone, [Date], [fetch]) are variables
    of the sections; a sample runtime instantiates them. *)

From Stdlib Require Import ZArith QArith String Ascii List Bool Lia Sorted.
From Stdlib Require Import DecimalString.
From stdpp Require Import base option list gmap strings.

Set Warnings "-register-all".
Local Open Scope string_scope.
Local Open Scope Z_scope.

(* ===================================================================== *)
(** * JavaScript values *)
(* ===================================================================== *)

(** A JavaScript number. The code only compares numbers and tests them for
    finiteness, it never does arithmetic on a reading; a finite double is
    a rational and doubles are ordered as rationals are, so the finite
    numbers are carried by [Q] and the three special values are kept
    apart. *)
Inductive JsNum : Type :=
  | NaN
  | PosInf
  | NegInf
  | Fin (q : Q).

(** The values JSON.parse, the forecast API and the forms can hand to the
    code: the JSON values and [undefined]. An object is the list of its own
    properties; reading a property takes its first binding. *)
Inductive JsVal : Type :=
  | JUndefined
  | JNull
  | JBool (b : bool)
  | JNum (n : JsNum)
  | JStr (s : string)
  | JArr (items : list JsVal)
  | JObj (props : list (string * JsVal)).

(** What a thrown [Error] (or a TypeError of the runtime) carries. *)
Inductive JsError : Type :=
  | TypeError
  | ErrMissingHourlyFields   (* "Unexpected Open-Meteo response (missing hourly fields)." *)
  | ErrNoWindowData          (* "No hourly data found for the tonight window." *)
  | ErrInvalidJsonObject.    (* "Invalid JSON object." *)

(** A computation that returns or throws. *)
Inductive Exn (A : Type) : Type :=
  | Ok (a : A)
  | Throw (e : JsError).
Arguments Ok {A} a.
Arguments Throw {A} e.

#[global] Instance exn_ret : MRet Exn := fun A a => Ok a.
#[global] Instance exn_bind : MBind Exn := fun A B k c =>
  match c with
  | Ok a => k a
  | Throw e => Throw e
  end.

Module Num.

(** The order of two numbers, [None] when one of them is NaN. *)
Definition cmp (a b : JsNum) : option comparison :=
  match a, b with
  | NaN, _ | _, NaN => None
  | PosInf, PosInf => Some Eq
  | PosInf, _ => Some Gt
  | _, PosInf => Some Lt
  | NegInf, NegInf => Some Eq
  | NegInf, _ => Some Lt
  | _, NegInf => Some Gt
  | Fin x, Fin y => Some (Qcompare x y)
  end.

(** [a < b], [a <= b], [a > b], [a >= b]. *)
Definition lt (a b : JsNum) : bool :=
  match cmp a b with Some Lt => true | _ => false end.
Definition le (a b : JsNum) : bool :=
  match cmp a b with Some Lt | Some Eq => true | _ => false end.
Definition gt (a b : JsNum) : bool :=
  match cmp a b with Some Gt => true | _ => false end.
Definition ge (a b : JsNum) : bool :=
  match cmp a b with Some Gt | Some Eq => true | _ => false end.

(** Number.isFinite *)
Definition isFinite (a : JsNum) : bool :=
  match a with Fin _ => true | _ => false end.

(** A number is falsy when it is 0 or NaN. *)
Definition truthy (a : JsNum) : bool :=
  match a with
  | NaN => false
  | Fin q => negb (Qeq_bool q 0)
  | _ => true
  end.

End Num.

(** ToBoolean: [Boolean(v)], [!v], [v ? _ : _], [v || _]. *)
Definition truthy (v : JsVal) : bool :=
  match v with
  | JUndefined | JNull => false
  | JBool b => b
  | JNum n => Num.truthy n
  | JStr s => negb (String.eqb s "")
  | JArr _ | JObj _ => true
  end.

(** [typeof v === "object"]: null, arrays and objects. *)
Definition typeof_object (v : JsVal) : bool :=
  match v with
  | JNull | JArr _ | JObj _ => true
  | _ => false
  end.

(** [typeof v === "string"] *)
Definition typeof_string (v : JsVal) : bool :=
  match v with JStr _ => true | _ => false end.

(** The guard [v && typeof v === "object"] the code puts before every
    property read of a value it does not trust. *)
Definition is_object (v : JsVal) : bool := truthy v && typeof_object v.

(** Array.isArray *)
Definition isArray (v : JsVal) : bool :=
  match v with JArr _ => true | _ => false end.

(** The elements of an array value. *)
Definition items_of (v : JsVal) : list JsVal :=
  match v with JArr l => l | _ => [] end.

(** [v === "lit"] for a string literal. *)
Definition str_is (v : JsVal) (lit : string) : bool :=
  match v with JStr s => String.eqb s lit | _ => false end.

(** [v === null] *)
Definition is_null (v : JsVal) : bool :=
  match v with JNull => true | _ => false end.

(** [isFiniteNumber] of app.js:
    [typeof value === "number" && Number.isFinite(value)]. *)
Definition isFiniteNumber (v : JsVal) : bool :=
  match v with JNum n => Num.isFinite n | _ => false end.

(** The number a value of type number is. The code compares readings with
    [<], [>] and [>=] only after [isFiniteNumber] has accepted them, and
    then no conversion takes place. *)
Definition number_of (v : JsVal) : JsNum :=
  match v with JNum n => n | _ => NaN end.

(** The first binding of a key in a property list. *)
Fixpoint assoc (k : string) (props : list (string * JsVal)) : option JsVal :=
  match props with
  | [] => None
  | (k', v) :: rest => if String.eqb k k' then Some v else assoc k rest
  end.

(** [v.k]: a TypeError on undefined and null, the own property of an
    object, and [undefined] where there is none. The keys the code reads
    ([conditions], [field], [op], [value], [id], [name], ...) are no
    members of Object.prototype, Array.prototype or of the wrappers of the
    primitives, so nothing is inherited under them. *)
Definition get_prop (v : JsVal) (k : string) : Exn JsVal :=
  match v with
  | JUndefined | JNull => Throw TypeError
  | JObj props => Ok (default JUndefined (assoc k props))
  | _ => Ok JUndefined
  end.

(** [v?.k]: optional chaining reads [undefined] off undefined and null. *)
Definition get_prop_opt (v : JsVal) (k : string) : JsVal :=
  match v with
  | JObj props => default JUndefined (assoc k props)
  | _ => JUndefined
  end.

(** [arr[i]] on an array: [undefined] past the end. *)
Definition arr_at (arr : list JsVal) (i : nat) : JsVal :=
  default JUndefined (arr !! i).

(* ===================================================================== *)
(** * Data model *)
(* ===================================================================== *)

(** Metrics: the snapshot [computeTonightMetricsFromHourly] builds and
    [lastForecast] caches, an object of these five properties. A reduced
    reading is a number or [null]; the fields are kept as values because
    a cached snapshot is read back unchecked. The rule engine is never
    handed [null] for it: [renderRecommendation] returns before the call
    when there are no metrics. *)
Record Metrics : Type := mkMetrics {
  minTempF : JsVal;
  minFeelsF : JsVal;
  maxPrecipProb : JsVal;
  maxWindMph : JsVal;
  wetRisk : JsVal;
}.

(** [metrics[key]] for a property key. Under any other key a metrics
    object has no own property, and what it inherits from Object.prototype
    is a function or an object, which [isFiniteNumber] (the only reader of
    the result) rejects as it rejects [undefined]. *)
Definition metrics_get (m : Metrics) (key : string) : JsVal :=
  if String.eqb key "minTempF" then minTempF m
  else if String.eqb key "minFeelsF" then minFeelsF m
  else if String.eqb key "maxPrecipProb" then maxPrecipProb m
  else if String.eqb key "maxWindMph" then maxWindMph m
  else if String.eqb key "wetRisk" then wetRisk m
  else JUndefined.

Record Blanket : Type := mkBlanket {
  blanket_id : string;
  blanket_name : string;
  blanket_notes : string;
}.

Record Combo : Type := mkCombo {
  combo_id : string;
  combo_name : string;
  blanketIds : list string;
}.

Record Condition : Type := mkCondition {
  cond_field : string;
  cond_op : string;
  cond_value : JsVal;
}.

Record Rule : Type := mkRule {
  rule_id : string;
  rule_name : string;
  comboId : string;
  conditions : list Condition;
}.

(** The persisted dataset ([emptyData] gives its shape). *)
Record Dataset : Type := mkDataset {
  version : Z;
  blankets : list Blanket;
  combos : list Combo;
  rules : list Rule;
  defaultComboId : string;
  lastForecast : JsVal;
}.

Definition emptyData : Dataset :=
  {| version := 1; blankets := []; combos := []; rules := [];
     defaultComboId := ""; lastForecast := JNull |}.

(** The objects the typed records stand for. *)
Definition condition_to_js (c : Condition) : JsVal :=
  JObj [("field", JStr (cond_field c)); ("op", JStr (cond_op c));
        ("value", cond_value c)].

Definition rule_to_js (r : Rule) : JsVal :=
  JObj [("id", JStr (rule_id r)); ("name", JStr (rule_name r));
        ("comboId", JStr (comboId r));
        ("conditions", JArr (map condition_to_js (conditions r)))].

(** What [pickRecommendation] returns: [{kind: "rule", rule, combo}] where
    [combo] is [undefined] when the Map has no entry under the rule's
    comboId, [{kind: "default", combo}] or [{kind: "none"}]. *)
Inductive Pick : Type :=
  | PickRule (rule : Rule) (combo : option Combo)
  | PickDefault (combo : Combo)
  | PickNone.

(** The five fields of a metrics snapshot. *)
Definition metricFields : list string :=
  ["minTempF"; "minFeelsF"; "maxPrecipProb"; "maxWindMph"; "wetRisk"].

(** The comparison operators of the numeric fields. *)
Definition numericOps : list string := ["<="; "<"; ">="; ">"].

(** The overnight window [getTonightWindow] returns (its [label] is
    display text). Times are time values: milliseconds since the epoch. *)
Record Window : Type := mkWindow {
  w_start : Z;
  w_end : Z;
}.

(* ===================================================================== *)
(** * The application *)
(* ===================================================================== *)


(** What [renderRecommendation] puts into the recommendation panel. *)
Inductive RecommendationView : Type :=
  | ViewFetchWeather   (* "Fetch weather to see a recommendation." *)
  | ViewNoCombos       (* "No combos yet. Add one in Blankets." *)
  | ViewNoRules        (* "No rules yet. Add rules in the Rules tab ..." *)
  | ViewNoMatch        (* "No rule matched." *)
  | ViewMissingCombo   (* "A matching rule selected a missing combo." *)
  | ViewCombo (header title : string) (blanketNames : list string).
      (* the header line, the combo's name and the names of its blankets;
         "No blankets in this combo." stands in for an empty list *)

(** What [renderRules] shows of one rule: its title, the text of its
    conditions and the label of its combo. *)
Record RuleItem : Type := mkRuleItem {
  item_title : string;
  item_conditions : string;
  item_combo : string;
}.

(** One row of the conditions list of the rule form, as the submit handler
    queries it: the values of the controls with data-role field, bool, op
    and value, [None] where [querySelector] finds no such control. *)
Record ConditionRow : Type := mkConditionRow {
  row_field : option string;
  row_bool : option string;
  row_op : option string;
  row_value : option string;
}.

Section App.

(* =================================================================== *)
(** ** The rule engine *)
(* =================================================================== *)

(** Number::toString and StringToNumber of the runtime: the code reaches
    them through [metrics[field]], [Number(cond.value)] and [String(_)];
    no property below depends on what they compute. *)
Variable number_to_string : JsNum -> string.
Variable string_to_number : string -> JsNum.

(** ToString: [String(v)], a template literal, a property key. An object
    is converted through its [toString]: JSON.parse makes an own property
    of every key, so an object with the key "toString" holds there a value
    that cannot be called, and the conversion throws a TypeError (the
    [valueOf] it turns to cannot be called either, or is the inherited one
    and returns the object itself); every other object inherits
    Object.prototype.toString. An array joins its elements with commas,
    [undefined] and [null] elements giving the empty string, and throws
    where the conversion of an element does. *)
Fixpoint to_string (v : JsVal) : Exn string :=
  match v with
  | JUndefined => Ok "undefined"
  | JNull => Ok "null"
  | JBool b => Ok (if b then "true" else "false")
  | JNum n => Ok (number_to_string n)
  | JStr s => Ok s
  | JArr l =>
      (fix join (l : list JsVal) : Exn string :=
         match l with
         | [] => Ok ""
         | x :: rest =>
             match (match x with
                    | JUndefined | JNull => Ok ""
                    | _ => to_string x
                    end) with
             | Throw e => Throw e
             | Ok sx =>
                 match rest with
                 | [] => Ok sx
                 | _ :: _ =>
                     match join rest with
                     | Throw e => Throw e
                     | Ok srest => Ok (sx ++ "," ++ srest)
                     end
                 end
             end
         end) l
  | JObj props =>
      match assoc "toString" props with
      | Some _ => Throw TypeError
      | None => Ok "[object Object]"
      end
  end.

(** ToNumber, as [Number(v)] applies it. An object or an array is first
    converted to a primitive: [valueOf] gives the object itself, so that
    is the string of ToString, and the conversion throws where ToString
    does. *)
Definition to_number (v : JsVal) : Exn JsNum :=
  match v with
  | JUndefined => Ok NaN
  | JNull => Ok (Fin 0)
  | JBool b => Ok (Fin (if b then 1 else 0))
  | JNum n => Ok n
  | JStr s => Ok (string_to_number s)
  | JArr _ | JObj _ => s ← to_string v; Ok (string_to_number s)
  end.

(** The body of the loop of [ruleMatches] for one condition: [Ok true]
    where the source goes on to the next condition ([continue], [break]
    out of the switch), [Ok false] where it returns false. The field is
    converted to a property key by [metrics[field]], the value to a number
    by [Number(cond.value)], in this order. *)
Definition condMatches (cond : JsVal) (metrics : Metrics) : Exn bool :=
  if negb (truthy cond) || negb (typeof_object cond) then Ok false else
  field ← get_prop cond "field";
  if str_is field "wetRisk" then
    op ← get_prop cond "op";
    if negb (str_is op "is") then Ok false else
    value ← get_prop cond "value";
    let want := truthy value in
    if negb (Bool.eqb (truthy (wetRisk metrics)) want) then Ok false
    else Ok true
  else
    key ← to_string field;
    let left := metrics_get metrics key in
    value ← get_prop cond "value";
    right ← to_number value;
    if negb (isFiniteNumber left) || negb (isFiniteNumber (JNum right))
    then Ok false else
    op ← get_prop cond "op";
    let l := number_of left in
    if str_is op "<=" then Ok (Num.le l right)
    else if str_is op "<" then Ok (Num.lt l right)
    else if str_is op ">=" then Ok (Num.ge l right)
    else if str_is op ">" then Ok (Num.gt l right)
    else Ok false.

(** [for (const cond of conditions)] *)
Fixpoint conditionsMatch (conds : list JsVal) (metrics : Metrics)
  : Exn bool :=
  match conds with
  | [] => Ok true
  | cond :: rest =>
      condMatches cond metrics ≫= fun ok : bool =>
      if ok then conditionsMatch rest metrics else Ok false
  end.

Definition ruleMatches (rule : JsVal) (metrics : Metrics) : Exn bool :=
  if negb (truthy rule) || negb (typeof_object rule) then Ok false else
  cs ← get_prop rule "conditions";
  let conditions := if isArray cs then items_of cs else [] in
  conditionsMatch conditions metrics.

(** The conditions [ruleMatches] loops over. *)
Definition conditionsOf (rule : JsVal) : list JsVal :=
  let cs := get_prop_opt rule "conditions" in
  if isArray cs then items_of cs else [].

(** [new Map(data.combos.map((c) => [c.id, c]))]: entries are set in
    list order, so of two combos with one id the later one stays. *)
Definition combosById (cs : list Combo) : gmap string Combo :=
  foldl (fun m c => <[combo_id c := c]> m) ∅ cs.

(** The loop of [pickRecommendation] over [data.rules]; [None] when it
    runs to its end. *)
Fixpoint firstMatch (byId : gmap string Combo) (rs : list Rule)
  (metrics : Metrics) : Exn (option Pick) :=
  match rs with
  | [] => Ok None
  | rule :: rest =>
      ruleMatches (rule_to_js rule) metrics ≫= fun ok : bool =>
      if negb ok then firstMatch byId rest metrics
      else Ok (Some (PickRule rule (byId !! comboId rule)))
  end.

Definition pickRecommendation (data : Dataset) (metrics : Metrics)
  : Exn Pick :=
  let byId := combosById (combos data) in
  firstMatch byId (rules data) metrics ≫= fun found : option Pick =>
  match found with
  | Some pick => Ok pick
  | None =>
      let defaultCombo :=
        if truthy (JStr (defaultComboId data))
        then byId !! defaultComboId data
        else None in
      match defaultCombo with
      | Some c => Ok (PickDefault c)
      | None => Ok PickNone
      end
  end.

(* =================================================================== *)
(** ** The overnight window and the metric reduction *)
(* =================================================================== *)

(** LocalTime and UTC of the runtime (the time zone of the device), and
    the time value of [new Date(v)], [None] when [getTime()] is NaN; the
    timestamps of a forecast are strings. *)
Variable LocalTime : Z -> Z.
Variable UTC : Z -> Z.
Variable Date_parse : JsVal -> option Z.

Definition msPerDay : Z := 86400000.
Definition msPerHour : Z := 3600000.

(** Day(t), TimeWithinDay(t), MakeTime(h, 0, 0, 0) and MakeDate of the
    language definition. *)
Definition Day (t : Z) : Z := t / msPerDay.
Definition TimeWithinDay (t : Z) : Z := t mod msPerDay.
Definition MakeTime (h : Z) : Z := h * msPerHour.
Definition MakeDate (day time : Z) : Z := day * msPerDay + time.

(** [d.setHours(h, 0, 0, 0)] on the date of time value [tv]. *)
Definition setHours (tv h : Z) : Z :=
  UTC (MakeDate (Day (LocalTime tv)) (MakeTime h)).

(** [d.setDate(d.getDate() + 1)]: the day after, at the same local time
    of day (MakeDay carries a day past the end of the month over). *)
Definition setDateNext (tv : Z) : Z :=
  UTC (MakeDate (Day (LocalTime tv) + 1) (TimeWithinDay (LocalTime tv))).

Definition getTonightWindow (now : Z) : Window :=
  let start := setHours now 19 in
  let end1 := setDateNext start in
  let end2 := setHours end1 9 in
  {| w_start := start; w_end := end2 |}.

(** The first loop of [computeTonightMetricsFromHourly], from index [i]
    on: the indices whose time parses and lies in the window. *)
Fixpoint selectIndices (times : list JsVal) (i : nat)
  (windowStart windowEnd : Z) : list nat :=
  match times with
  | [] => []
  | t :: rest =>
      let more := selectIndices rest (S i) windowStart windowEnd in
      match Date_parse t with
      | None => more
      | Some ms =>
          if (windowStart <=? ms) && (ms <? windowEnd) then i :: more
          else more
      end
  end.


(** One round of the loop of [pickMin] / [pickMax]. *)
Definition pickStep (better : JsNum -> JsNum -> bool) (arr : list JsVal)
  (best : JsVal) (idx : nat) : JsVal :=
  let v := arr_at arr idx in
  if negb (isFiniteNumber v) then best
  else if is_null best || better (number_of v) (number_of best) then v
  else best.

Definition pickMin (indices : list nat) (arr : list JsVal) : JsVal :=
  foldl (pickStep Num.lt arr) JNull indices.

Definition pickMax (indices : list nat) (arr : list JsVal) : JsVal :=
  foldl (pickStep Num.gt arr) JNull indices.

Definition computeTonightMetricsFromHourly (hourly : JsVal)
  (windowStart windowEnd : Z) : Exn Metrics :=
  let times := get_prop_opt hourly "time" in
  let temps := get_prop_opt hourly "temperature_2m" in
  let feels := get_prop_opt hourly "apparent_temperature" in
  let precip := get_prop_opt hourly "precipitation_probability" in
  let wind := get_prop_opt hourly "windspeed_10m" in
  if negb (isArray times) || negb (isArray temps) || negb (isArray feels)
     || negb (isArray precip) || negb (isArray wind)
  then Throw ErrMissingHourlyFields else
  let indices := selectIndices (items_of times) 0 windowStart windowEnd in
  if Nat.eqb (length indices) 0 then Throw ErrNoWindowData else
  let minTempF := pickMin indices (items_of temps) in
  let minFeelsF := pickMin indices (items_of feels) in
  let maxPrecipProb := pickMax indices (items_of precip) in
  let maxWindMph := pickMax indices (items_of wind) in
  let wetRisk :=
    if isFiniteNumber maxPrecipProb
    then Num.ge (number_of maxPrecipProb) (Fin 50)
    else false in
  Ok {| minTempF := minTempF; minFeelsF := minFeelsF;
        maxPrecipProb := maxPrecipProb; maxWindMph := maxWindMph;
        wetRisk := JBool wetRisk |}.

(** The synchronous part of [fetchTonightMetrics]: the window of [now]
    handed to the reduction of the fetched [json.hourly]. *)
Definition tonightMetrics (now : Z) (hourly : JsVal) : Exn Metrics :=
  let w := getTonightWindow now in
  computeTonightMetricsFromHourly hourly (w_start w) (w_end w).

(* =================================================================== *)
(** ** The application state and its mutations *)
(* =================================================================== *)

(** [JSON.stringify] on a dataset, the id the [n]-th call of
    [crypto.randomUUID] (or of the fallback of [newId]) gives, and
    [String.prototype.trim]. *)
Variable JSON_stringify : Dataset -> string.
Variable randomUUID : nat -> string.
Variable trim : string -> string.

Definition STORAGE_KEY : string := "roo_pwa_data_v1".

(** [state.data], [state.weather.metrics] ([None] for [null]),
    localStorage, and how many ids [newId] has drawn. The fields of the
    forms and the rendered lists are display state, which no mutation
    below reads back. *)
Record AppState : Type := mkAppState {
  data : Dataset;
  weatherMetrics : option Metrics;
  localStorage : gmap string string;
  idsDrawn : nat;
}.

Definition set_data (d : Dataset) (st : AppState) : AppState :=
  {| data := d; weatherMetrics := weatherMetrics st;
     localStorage := localStorage st; idsDrawn := idsDrawn st |}.

(** [saveData(state.data)] *)
Definition saveData (st : AppState) : AppState :=
  {| data := data st; weatherMetrics := weatherMetrics st;
     localStorage := <[STORAGE_KEY := JSON_stringify (data st)]> (localStorage st);
     idsDrawn := idsDrawn st |}.

Definition set_blankets (bs : list Blanket) (d : Dataset) : Dataset :=
  {| version := version d; blankets := bs; combos := combos d;
     rules := rules d; defaultComboId := defaultComboId d;
     lastForecast := lastForecast d |}.

Definition set_combos (cs : list Combo) (d : Dataset) : Dataset :=
  {| version := version d; blankets := blankets d; combos := cs;
     rules := rules d; defaultComboId := defaultComboId d;
     lastForecast := lastForecast d |}.

Definition set_rules (rs : list Rule) (d : Dataset) : Dataset :=
  {| version := version d; blankets := blankets d; combos := combos d;
     rules := rs; defaultComboId := defaultComboId d;
     lastForecast := lastForecast d |}.

Definition set_defaultComboId (id : string) (d : Dataset) : Dataset :=
  {| version := version d; blankets := blankets d; combos := combos d;
     rules := rules d; defaultComboId := id;
     lastForecast := lastForecast d |}.

(** [combo.blanketIds = combo.blanketIds.filter((bid) => bid !== id)];
    a [blanketIds] of the record type is an array, so the other branch
    of the source's [Array.isArray] test is not taken. *)
Definition dropBlanketId (id : string) (c : Combo) : Combo :=
  {| combo_id := combo_id c; combo_name := combo_name c;
     blanketIds := filter (fun bid => bid <> id) (blanketIds c) |}.

(** [deleteBlanket(id)]; [confirmed] is what the user answers to the
    [confirm] dialog. The result is the state the handler leaves, whether
    the render at its end returns or throws. *)
Definition deleteBlanket (id : string) (confirmed : bool) (st : AppState)
  : AppState :=
  match List.find (fun x => String.eqb (blanket_id x) id) (blankets (data st)) with
  | None => st
  | Some b =>
      if negb confirmed then st else
      let d1 := set_blankets
                  (filter (fun x => blanket_id x <> id) (blankets (data st)))
                  (data st) in
      let d2 := set_combos (map (dropBlanketId id) (combos d1)) d1 in
      saveData (set_data d2 st)
  end.

(** [if (rule.comboId === id) rule.comboId = ""] *)
Definition clearComboId (id : string) (r : Rule) : Rule :=
  if String.eqb (comboId r) id
  then {| rule_id := rule_id r; rule_name := rule_name r; comboId := "";
          conditions := conditions r |}
  else r.

(** [deleteCombo(id)] *)
Definition deleteCombo (id : string) (confirmed : bool) (st : AppState)
  : AppState :=
  match List.find (fun x => String.eqb (combo_id x) id) (combos (data st)) with
  | None => st
  | Some c =>
      if negb confirmed then st else
      let d1 := set_combos
                  (filter (fun x => combo_id x <> id) (combos (data st)))
                  (data st) in
      let d2 := if String.eqb (defaultComboId d1) id
                then set_defaultComboId "" d1 else d1 in
      let d3 := set_rules (map (clearComboId id) (rules d2)) d2 in
      saveData (set_data d3 st)
  end.

(* =================================================================== *)
(** ** Actions *)
(* =================================================================== *)

(** An action on the application state: it leaves a state behind and
    returns or throws; when a step throws, the steps after it do not
    run and the state stays as that step left it. *)
Definition Act (A : Type) : Type := AppState -> AppState * Exn A.

Definition act_ret {A : Type} (a : A) : Act A := fun st => (st, Ok a).

Definition act_bind {A B : Type} (c : Act A) (k : A -> Act B) : Act B :=
  fun st =>
    match c st with
    | (st', Ok a) => k a st'
    | (st', Throw e) => (st', Throw e)
    end.

Definition act_throw {A : Type} (e : JsError) : Act A :=
  fun st => (st, Throw e).

Definition act_lift {A : Type} (c : Exn A) : Act A := fun st => (st, c).

Definition act_modify (f : AppState -> AppState) : Act unit :=
  fun st => (f st, Ok tt).

Notation "x <~ c ;; k" := (act_bind c (fun x => k))
  (at level 100, c at next level, right associativity).

(** The state once [newId] has drawn an id. *)
Definition drawId (st : AppState) : AppState :=
  {| data := data st; weatherMetrics := weatherMetrics st;
     localStorage := localStorage st; idsDrawn := S (idsDrawn st) |}.

(** [newId()] *)
Definition newId : Act string :=
  fun st => (drawId st, Ok (randomUUID (idsDrawn st))).

(** [arr.map(f)] for an [f] that acts on the state, left to right. *)
Fixpoint act_map {A B : Type} (f : A -> Act B) (l : list A)
  : Act (list B) :=
  match l with
  | [] => act_ret []
  | x :: rest =>
      y <~ f x ;;
      ys <~ act_map f rest ;;
      act_ret (y :: ys)
  end.

(** [arr.map(f)] for an [f] that returns or throws. *)
Fixpoint exn_map {A B : Type} (f : A -> Exn B) (l : list A)
  : Exn (list B) :=
  match l with
  | [] => Ok []
  | x :: rest =>
      match f x with
      | Throw e => Throw e
      | Ok y =>
          match exn_map f rest with
          | Throw e => Throw e
          | Ok ys => Ok (y :: ys)
          end
      end
  end.

(** [a || b] *)
Definition js_or (a b : JsVal) : JsVal := if truthy a then a else b.

(** [s || fallback] for strings *)
Definition nonEmptyOr (s fallback : string) : string :=
  if truthy (JStr s) then s else fallback.

(* =================================================================== *)
(** ** Rendering *)
(* =================================================================== *)

(** [blanketNameById(id)] *)
Definition blanketNameById (d : Dataset) (id : string) : string :=
  match List.find (fun x => String.eqb (blanket_id x) id) (blankets d) with
  | Some b => blanket_name b
  | None => "(missing blanket)"
  end.

(** [renderRecommendation()], on [state.data] and [state.weather.metrics]
    ([None] for [null]). *)
Definition renderRecommendation (d : Dataset) (metrics : option Metrics)
  : Exn RecommendationView :=
  match metrics with
  | None => Ok ViewFetchWeather
  | Some m =>
      if Nat.eqb (length (combos d)) 0 then Ok ViewNoCombos
      else if Nat.eqb (length (rules d)) 0
              && negb (truthy (JStr (defaultComboId d)))
      then Ok ViewNoRules
      else
        pickRecommendation d m ≫= fun pick : Pick =>
        match pick with
        | PickNone => Ok ViewNoMatch
        | PickRule _ None => Ok ViewMissingCombo
        | PickRule rule (Some combo) =>
            Ok (ViewCombo
                  ("Matched: " ++ nonEmptyOr (trim (rule_name rule)) "Rule")
                  (combo_name combo)
                  (map (blanketNameById d) (blanketIds combo)))
        | PickDefault combo =>
            Ok (ViewCombo "No rule matched. Using default combo:"
                  (combo_name combo)
                  (map (blanketNameById d) (blanketIds combo)))
        end
  end.

(** [conditionToText(cond)]: the template literal converts the value of
    the condition to a string. *)
Definition conditionToText (c : Condition) : Exn string :=
  if String.eqb (cond_field c) "wetRisk"
  then Ok ("wetRisk is " ++ (if truthy (cond_value c) then "true" else "false"))
  else
    value ← to_string (cond_value c);
    Ok (cond_field c ++ " " ++ cond_op c ++ " " ++ value).

(** The item [renderRules] builds for the rule at index [idx]. *)
Definition renderRule (byId : gmap string Combo) (idx : nat) (r : Rule)
  : Exn RuleItem :=
  texts ← exn_map conditionToText (conditions r);
  Ok {| item_title :=
          nonEmptyOr (trim (rule_name r))
            ("Rule " ++ number_to_string (Fin (inject_Z (Z.of_nat (S idx)))));
        item_conditions :=
          if Nat.ltb 0 (length (conditions r))
          then String.concat " AND " texts
          else "(no conditions) (always matches)";
        item_combo :=
          match byId !! comboId r with
          | Some combo => combo_name combo
          | None => "(missing combo)"
          end |}.

(** [rules.map((r, idx) => ...)] of [renderRules], from index [idx] on. *)
Fixpoint renderRulesFrom (byId : gmap string Combo) (idx : nat)
  (rs : list Rule) : Exn (list RuleItem) :=
  match rs with
  | [] => Ok []
  | r :: rest =>
      match renderRule byId idx r with
      | Throw e => Throw e
      | Ok item =>
          match renderRulesFrom byId (S idx) rest with
          | Throw e => Throw e
          | Ok items => Ok (item :: items)
          end
      end
  end.

(** [renderRules()]: the items of the list, none ("No rules yet.") when
    there is no rule. *)
Definition renderRules (d : Dataset) : Exn (list RuleItem) :=
  renderRulesFrom (combosById (combos d)) 0 (rules d).

(** [renderAll()]. Of its eight renders, [renderRules] and
    [renderRecommendation] convert the values of conditions and can throw;
    the other six write the strings of the dataset and finite numbers
    into the page. *)
Definition renderAll : Act unit :=
  fun st =>
    (st,
     _ ← renderRules (data st);
     _ ← renderRecommendation (data st) (weatherMetrics st);
     Ok tt).

(** [addConditionRow()] draws the id of the row it appends to the form,
    and [resetRuleForm()] empties the list of rows and adds one. *)
Definition addConditionRow : Act unit := act_modify drawId.

Definition resetRuleForm : Act unit := addConditionRow.

(* =================================================================== *)
(** ** Import *)
(* =================================================================== *)

(** [typeof v.id === "string" && v.id ? v.id : newId()] *)
Definition keepOrNewId (v : JsVal) : Act string :=
  i <~ act_lift (get_prop v "id") ;;
  match i with
  | JStr s => if truthy i then act_ret s else newId
  | _ => newId
  end.

(** [String(v.k || "")] *)
Definition stringOrEmpty (v : JsVal) (k : string) : Act string :=
  x <~ act_lift (get_prop v k) ;;
  act_lift (to_string (js_or x (JStr ""))).

Definition sanitizeBlanket (b : JsVal) : Act Blanket :=
  id <~ keepOrNewId b ;;
  name <~ stringOrEmpty b "name" ;;
  notes <~ stringOrEmpty b "notes" ;;
  act_ret {| blanket_id := id;
             blanket_name := nonEmptyOr (trim name) "Untitled blanket";
             blanket_notes := notes |}.

(** [ids.filter((id) => typeof id === "string")] *)
Definition stringsOf (ids : list JsVal) : list string :=
  omap (fun v => match v with JStr s => Some s | _ => None end) ids.

Definition sanitizeCombo (c : JsVal) : Act Combo :=
  id <~ keepOrNewId c ;;
  name <~ stringOrEmpty c "name" ;;
  bids <~ act_lift (get_prop c "blanketIds") ;;
  act_ret {| combo_id := id;
             combo_name := nonEmptyOr (trim name) "Untitled combo";
             blanketIds := if isArray bids then stringsOf (items_of bids)
                           else [] |}.

Definition sanitizeCondition (c : JsVal) : Act Condition :=
  field <~ stringOrEmpty c "field" ;;
  op <~ stringOrEmpty c "op" ;;
  value <~ act_lift (get_prop c "value") ;;
  act_ret {| cond_field := field; cond_op := op; cond_value := value |}.

(** [typeof v === "string" ? v : ""] *)
Definition stringOr (v : JsVal) : string :=
  match v with JStr s => s | _ => "" end.

Definition sanitizeRule (r : JsVal) : Act Rule :=
  id <~ keepOrNewId r ;;
  name <~ stringOrEmpty r "name" ;;
  cid <~ act_lift (get_prop r "comboId") ;;
  cs <~ act_lift (get_prop r "conditions") ;;
  conds <~ (if isArray cs
            then act_map sanitizeCondition
                   (List.filter is_object (items_of cs))
            else act_ret []) ;;
  act_ret {| rule_id := id; rule_name := name;
             comboId := stringOr cid;
             conditions := conds |}.

(** [Array.isArray(v) ? v : []] *)
Definition arrayOrEmpty (v : JsVal) : list JsVal :=
  if isArray v then items_of v else [].

Definition sanitizeImportedData (raw : JsVal) : Act Dataset :=
  if negb (truthy raw) || negb (typeof_object raw)
  then act_throw ErrInvalidJsonObject else
  rb <~ act_lift (get_prop raw "blankets") ;;
  rc <~ act_lift (get_prop raw "combos") ;;
  rr <~ act_lift (get_prop raw "rules") ;;
  rd <~ act_lift (get_prop raw "defaultComboId") ;;
  rl <~ act_lift (get_prop raw "lastForecast") ;;
  let dflt := stringOr rd in
  let last := if truthy rl && typeof_object rl then rl else JNull in
  bs <~ act_map sanitizeBlanket (List.filter is_object (arrayOrEmpty rb)) ;;
  cs <~ act_map sanitizeCombo (List.filter is_object (arrayOrEmpty rc)) ;;
  rs <~ act_map sanitizeRule (List.filter is_object (arrayOrEmpty rr)) ;;
  act_ret {| version := version emptyData; blankets := bs; combos := cs;
             rules := rs; defaultComboId := dflt; lastForecast := last |}.

(** [importData(raw)]; [resetBlanketForm], [resetComboForm] and
    [setBackupStatus] write into the page only. *)
Definition importData (raw : JsVal) : Act unit :=
  d <~ sanitizeImportedData raw ;;
  _ <~ act_modify (set_data d) ;;
  _ <~ act_modify saveData ;;
  _ <~ resetRuleForm ;;
  renderAll.

(* =================================================================== *)
(** ** The handlers of the lists and of the forms *)
(* =================================================================== *)

(** [deleteRule(id)] *)
Definition deleteRule (id : string) (confirmed : bool) (st : AppState)
  : AppState :=
  match List.find (fun x => String.eqb (rule_id x) id) (rules (data st)) with
  | None => st
  | Some r =>
      if negb confirmed then st else
      drawId
        (saveData
           (set_data
              (set_rules (filter (fun x => rule_id x <> id) (rules (data st)))
                 (data st))
              st))
  end.

(** [moveRule(index, delta)]. [None] stands for a call with an [index]
    that is no index of the list while the target is one: there the source
    writes [undefined] into the copy (and may extend it), which a list of
    rules cannot hold. The Up and Down buttons pass the index of a rendered
    rule. *)
Definition moveRule (index : nat) (delta : Z) (st : AppState)
  : option AppState :=
  let rs := rules (data st) in
  let target := Z.of_nat index + delta in
  if (target <? 0) || (Z.of_nat (length rs) <=? target) then Some st else
  match rs !! index, rs !! Z.to_nat target with
  | Some tmp, Some other =>
      Some (saveData
              (set_data
                 (set_rules
                    (<[Z.to_nat target := tmp]> (<[index := other]> rs))
                    (data st))
                 st))
  | _, _ => None
  end.

(** [xs.find(p)] followed by assignments to the fields of the object it
    found: the first element that satisfies [p] is changed in place. *)
Fixpoint updateFirst {A : Type} (p : A -> bool) (f : A -> A) (l : list A)
  : list A :=
  match l with
  | [] => []
  | x :: rest => if p x then f x :: rest else x :: updateFirst p f rest
  end.

(** The submit handler of the blanket form, on the values of the fields
    blanketId, blanketName and blanketNotes. *)
Definition submitBlanket (formId nameInput notes : string) : Act unit :=
  let name := trim nameInput in
  if negb (truthy (JStr name)) then act_ret tt else
  let id := nonEmptyOr formId "" in
  _ <~ (if truthy (JStr id) then
          act_modify (fun st =>
            set_data
              (set_blankets
                 (updateFirst (fun x => String.eqb (blanket_id x) id)
                    (fun b => {| blanket_id := blanket_id b;
                                 blanket_name := name;
                                 blanket_notes := notes |})
                    (blankets (data st)))
                 (data st))
              st)
        else
          nid <~ newId ;;
          act_modify (fun st =>
            set_data
              (set_blankets
                 (blankets (data st)
                  ++ [{| blanket_id := nid; blanket_name := name;
                         blanket_notes := notes |}])%list
                 (data st))
              st)) ;;
  _ <~ act_modify saveData ;;
  renderAll.

(** The submit handler of the combo form; [checked] are the values of the
    ticked blanket boxes, in document order. *)
Definition submitCombo (formId nameInput : string) (checked : list string)
  : Act unit :=
  let name := trim nameInput in
  if negb (truthy (JStr name)) then act_ret tt else
  let id := nonEmptyOr formId "" in
  _ <~ (if truthy (JStr id) then
          act_modify (fun st =>
            set_data
              (set_combos
                 (updateFirst (fun x => String.eqb (combo_id x) id)
                    (fun c => {| combo_id := combo_id c;
                                 combo_name := name;
                                 blanketIds := checked |})
                    (combos (data st)))
                 (data st))
              st)
        else
          nid <~ newId ;;
          act_modify (fun st =>
            set_data
              (set_combos
                 (combos (data st)
                  ++ [{| combo_id := nid; combo_name := name;
                         blanketIds := checked |}])%list
                 (data st))
              st)) ;;
  _ <~ act_modify saveData ;;
  renderAll.

(** The change handler of the default combo select. *)
Definition changeDefaultCombo (value : string) : Act unit :=
  _ <~ act_modify (fun st =>
         set_data (set_defaultComboId (nonEmptyOr value "") (data st)) st) ;;
  _ <~ act_modify saveData ;;
  fun st =>
    (st, _ ← renderRecommendation (data st) (weatherMetrics st); Ok tt).

(** The condition the rule form builds from one row, if any;
    [Number(valInp.value)] converts a string. *)
Definition conditionOfRow (row : ConditionRow) : option Condition :=
  match row_field row with
  | None => None
  | Some field =>
      if String.eqb field "wetRisk" then
        match row_bool row with
        | None => None
        | Some b =>
            Some {| cond_field := field; cond_op := "is";
                    cond_value := JBool (String.eqb b "true") |}
        end
      else
        match row_op row, row_value row with
        | Some op, Some v =>
            let value := string_to_number v in
            if negb (isFiniteNumber (JNum value)) then None
            else Some {| cond_field := field; cond_op := op;
                         cond_value := JNum value |}
        | _, _ => None
        end
  end.

(** The submit handler of the rule form, on the values of ruleId, ruleName
    and ruleComboSelect and on the rows of the conditions list. *)
Definition submitRule (formId name comboSel : string)
  (rows : list ConditionRow) : Act unit :=
  if negb (truthy (JStr comboSel)) then act_ret tt else
  let conds := omap conditionOfRow rows in
  let id := nonEmptyOr formId "" in
  _ <~ (if truthy (JStr id) then
          act_modify (fun st =>
            set_data
              (set_rules
                 (updateFirst (fun x => String.eqb (rule_id x) id)
                    (fun r => {| rule_id := rule_id r; rule_name := name;
                                 comboId := comboSel;
                                 conditions := conds |})
                    (rules (data st)))
                 (data st))
              st)
        else
          nid <~ newId ;;
          act_modify (fun st =>
            set_data
              (set_rules
                 (rules (data st)
                  ++ [{| rule_id := nid; rule_name := name;
                         comboId := comboSel; conditions := conds |}])%list
                 (data st))
              st)) ;;
  _ <~ act_modify saveData ;;
  _ <~ resetRuleForm ;;
  renderAll.

End App.

(* ===================================================================== *)
(** * Vocabulary of the properties *)
(* ===================================================================== *)

(** [result] is the best finite reading of [arr] at [indices] for the
    order [le]: [null] when no reading there is a finite number, and
    otherwise one of the finite readings, which every finite reading there
    is at least as far down the order as. *)
Definition bestOver (le : Q -> Q -> Prop) (indices : list nat)
  (arr : list JsVal) (result : JsVal) : Prop :=
  ((forall idx, idx ∈ indices -> isFiniteNumber (arr_at arr idx) = false)
   /\ result = JNull)
  \/ (exists idx q,
        idx ∈ indices /\ arr_at arr idx = JNum (Fin q)
        /\ result = JNum (Fin q)
        /\ forall idx' q', idx' ∈ indices ->
             arr_at arr idx' = JNum (Fin q') -> le q q').

(** The least and the greatest finite reading. *)
Definition minOver := bestOver Qle.
Definition maxOver := bestOver (fun q q' => Qle q' q).

(** The timestamp [v] parses to a time in [[windowStart, windowEnd)]. *)
Definition inWindow (Date_parse : JsVal -> option Z)
  (windowStart windowEnd : Z) (v : JsVal) : Prop :=
  exists ms, Date_parse v = Some ms /\ windowStart <= ms < windowEnd.

(** The local time [t] names an instant: converted to a time value and
    back it is [t] again (no change of the clocks skips it). *)
Definition roundTrips (LocalTime UTC : Z -> Z) (t : Z) : Prop :=
  LocalTime (UTC t) = t.

(** [st'] differs from [st] at most by ids drawn since. *)
Definition drewIds (st st' : AppState) : Prop :=
  data st' = data st /\ weatherMetrics st' = weatherMetrics st
  /\ localStorage st' = localStorage st
  /\ (idsDrawn st <= idsDrawn st')%nat.

(** The id a sanitized entry gets: its own when that is a non-empty
    string, and otherwise one [newId] drew between [lo] and [hi]. *)
Definition idKeptOrDrawn (randomUUID : nat -> string) (entry : JsVal)
  (id : string) (lo hi : nat) : Prop :=
  match get_prop_opt entry "id" with
  | JStr (String c s) => id = String c s
  | _ => exists k, (lo <= k < hi)%nat /\ id = randomUUID k
  end.

Definition blanketSanitized (randomUUID : nat -> string)
  (trim : string -> string) (entry : JsVal)
  (b : Blanket) (lo hi : nat) : Prop :=
  idKeptOrDrawn randomUUID entry (blanket_id b) lo hi
  /\ blanket_name b <> ""
  /\ (get_prop_opt entry "name" = JUndefined ->
      blanket_name b = "Untitled blanket")
  /\ (forall s, get_prop_opt entry "name" = JStr s -> trim s <> "" ->
      blanket_name b = trim s)
  /\ (get_prop_opt entry "notes" = JUndefined -> blanket_notes b = "")
  /\ (forall s, get_prop_opt entry "notes" = JStr s -> blanket_notes b = s).

Definition comboSanitized (randomUUID : nat -> string)
  (trim : string -> string) (entry : JsVal)
  (c : Combo) (lo hi : nat) : Prop :=
  idKeptOrDrawn randomUUID entry (combo_id c) lo hi
  /\ combo_name c <> ""
  /\ (get_prop_opt entry "name" = JUndefined ->
      combo_name c = "Untitled combo")
  /\ (forall s, get_prop_opt entry "name" = JStr s -> trim s <> "" ->
      combo_name c = trim s)
  /\ (isArray (get_prop_opt entry "blanketIds") = false -> blanketIds c = [])
  /\ (forall l, get_prop_opt entry "blanketIds" = JArr l ->
      blanketIds c = stringsOf l).

Definition conditionSanitized (entry : JsVal) (c : Condition) : Prop :=
  (get_prop_opt entry "field" = JUndefined -> cond_field c = "")
  /\ (forall s, get_prop_opt entry "field" = JStr s -> cond_field c = s)
  /\ (get_prop_opt entry "op" = JUndefined -> cond_op c = "")
  /\ (forall s, get_prop_opt entry "op" = JStr s -> cond_op c = s)
  /\ cond_value c = get_prop_opt entry "value".

Definition ruleSanitized (randomUUID : nat -> string) (entry : JsVal)
  (r : Rule) (lo hi : nat) : Prop :=
  idKeptOrDrawn randomUUID entry (rule_id r) lo hi
  /\ (get_prop_opt entry "name" = JUndefined -> rule_name r = "")
  /\ (forall s, get_prop_opt entry "name" = JStr s -> rule_name r = s)
  /\ (typeof_string (get_prop_opt entry "comboId") = false -> comboId r = "")
  /\ (forall s, get_prop_opt entry "comboId" = JStr s -> comboId r = s)
  /\ Forall2 conditionSanitized
       (List.filter is_object (arrayOrEmpty (get_prop_opt entry "conditions")))
       (conditions r).

(** The [switch] of [ruleMatches] on the op of a numeric condition, for
    the reading [l] and the value [r]. *)
Definition compares (op : JsVal) (l r : JsNum) : bool :=
  if str_is op "<=" then Num.le l r
  else if str_is op "<" then Num.lt l r
  else if str_is op ">=" then Num.ge l r
  else if str_is op ">" then Num.gt l r
  else false.

(** Induction on a value through the elements of its arrays. *)
Fixpoint JsVal_arr_ind (P : JsVal -> Prop)
  (Hother : forall v, isArray v = false -> P v)
  (Harr : forall l, Forall P l -> P (JArr l)) (v : JsVal) : P v :=
  match v with
  | JArr l =>
      Harr l
        ((fix go (l : list JsVal) : Forall P l :=
            match l with
            | [] => List.Forall_nil P
            | x :: rest =>
                @List.Forall_cons _ P x rest (JsVal_arr_ind P Hother Harr x)
                  (go rest)
            end) l)
  | JUndefined => Hother JUndefined eq_refl
  | JNull => Hother JNull eq_refl
  | JBool b => Hother (JBool b) eq_refl
  | JNum n => Hother (JNum n) eq_refl
  | JStr s => Hother (JStr s) eq_refl
  | JObj props => Hother (JObj props) eq_refl
  end.

(** The value can be converted to a string and to a number: it is no
    object with an own property "toString" and no array that holds, at
    any depth, a value that cannot be converted. *)
Fixpoint convertible (v : JsVal) : bool :=
  match v with
  | JArr l => forallb convertible l
  | JObj props =>
      match assoc "toString" props with
      | Some _ => false
      | None => true
      end
  | _ => true
  end.

(** The properties [keys] of the object [entry] can be converted. *)
Definition convertibleAt (keys : list string) (entry : JsVal) : bool :=
  forallb (fun k => convertible (get_prop_opt entry k)) keys.

(** The objects of the array under [key], as the sanitizer filters
    them. *)
Definition objectsAt (raw : JsVal) (key : string) : list JsVal :=
  List.filter is_object (arrayOrEmpty (get_prop_opt raw key)).

(** Every property the import converts with [String(_)] can be
    converted: name and notes of the blankets, the name of the combos and
    of the rules, field and op of the conditions. *)
Definition importable (raw : JsVal) : bool :=
  forallb (convertibleAt ["name"; "notes"]) (objectsAt raw "blankets")
  && forallb (convertibleAt ["name"]) (objectsAt raw "combos")
  && forallb (fun r =>
                convertibleAt ["name"] r
                && forallb (convertibleAt ["field"; "op"])
                     (objectsAt r "conditions"))
       (objectsAt raw "rules").

(** The values of the conditions of the dataset can be converted, as the
    numbers and booleans the rule form writes can. *)
Definition valuesConvertible (d : Dataset) : Prop :=
  forall r c, r ∈ rules d -> c ∈ conditions r ->
    convertible (cond_value c) = true.

(* ===================================================================== *)
(** * A runtime and data to run the model on *)
(* ===================================================================== *)

Module Sample.

(** Number::toString and StringToNumber, exact on the integers. *)
Definition number_to_string (n : JsNum) : string :=
  match n with
  | NaN => "NaN"
  | PosInf => "Infinity"
  | NegInf => "-Infinity"
  | Fin q => NilZero.string_of_int (Z.to_int (Z.quot (Qnum q) (Zpos (Qden q))))
  end.

(** [String.prototype.trim], exact on the strings whose white space is
    tab, line feed, vertical tab, form feed, carriage return and space. *)
Definition is_ws (c : ascii) : bool :=
  match nat_of_ascii c with
  | 9%nat | 10%nat | 11%nat | 12%nat | 13%nat | 32%nat => true
  | _ => false
  end.

Fixpoint trimStart (s : string) : string :=
  match s with
  | EmptyString => EmptyString
  | String c rest => if is_ws c then trimStart rest else s
  end.

Definition trim (s : string) : string :=
  String.rev (trimStart (String.rev (trimStart s))).

(** [trimStart] on the list of the characters of a string. *)
Fixpoint dropWs (l : list ascii) : list ascii :=
  match l with
  | [] => []
  | c :: rest => if is_ws c then dropWs rest else l
  end.

Definition string_to_number (s : string) : JsNum :=
  if String.eqb (trim s) "" then Fin 0 else
  match NilZero.int_of_string (trim s) with
  | Some i => Fin (inject_Z (Z.of_int i))
  | None => NaN
  end.

(** [new Date(ms)] for a number of milliseconds; any other value is taken
    as an invalid date. *)
Definition Date_parse (v : JsVal) : option Z :=
  match v with
  | JNum (Fin q) => Some (Z.quot (Qnum q) (Zpos (Qden q)))
  | _ => None
  end.

(** A zone five hours behind UTC the year round. *)
Definition LocalTime (t : Z) : Z := t - 5 * msPerHour.
Definition UTC (t : Z) : Z := t + 5 * msPerHour.

Definition randomUUID (n : nat) : string :=
  "id_" ++ NilZero.string_of_uint (Nat.to_uint n).

(** A serialization that tells datasets apart by their ids. *)
Definition JSON_stringify (d : Dataset) : string :=
  String.concat "," (map blanket_id (blankets d)) ++ ";"
  ++ String.concat "," (map combo_id (combos d)) ++ ";"
  ++ String.concat "," (map rule_id (rules d)) ++ ";"
  ++ defaultComboId d.

Definition num (z : Z) : JsVal := JNum (Fin (inject_Z z)).

(** A cold, dry night. *)
Definition coldNight : Metrics :=
  {| minTempF := num 30; minFeelsF := num 24; maxPrecipProb := num 10;
     maxWindMph := num 8; wetRisk := JBool false |}.

Definition lightCombo : Combo :=
  {| combo_id := "c1"; combo_name := "Light"; blanketIds := ["b1"] |}.

(** A rule for cold nights whose combo has been deleted, and a catch-all
    rule after it. *)
Definition danglingRule : Rule :=
  {| rule_id := "r1"; rule_name := "Cold"; comboId := "gone";
     conditions := [{| cond_field := "minTempF"; cond_op := "<=";
                       cond_value := num 40 |}] |}.

Definition catchAllRule : Rule :=
  {| rule_id := "r2"; rule_name := "Any"; comboId := "c1";
     conditions := [] |}.

Definition danglingData : Dataset :=
  {| version := 1; blankets := []; combos := [lightCombo];
     rules := [danglingRule; catchAllRule]; defaultComboId := "c1";
     lastForecast := JNull |}.

(** The same dataset without the dangling rule. *)
Definition withoutDangling : Dataset :=
  {| version := 1; blankets := []; combos := [lightCombo];
     rules := [catchAllRule]; defaultComboId := "c1";
     lastForecast := JNull |}.

(** Four hourly readings, the last one after the window [[100, 400)];
    some readings are missing, and every wind reading is. *)
Definition hourly : JsVal :=
  JObj [("time", JArr [num 100; num 200; num 300; num 400]);
        ("temperature_2m", JArr [JNull; num 41; num 38; num 20]);
        ("apparent_temperature", JArr [num 35; JNum NaN; num 36; num 10]);
        ("precipitation_probability", JArr [num 20; num 50; JNull; num 90]);
        ("windspeed_10m", JArr [JNull; JNull])].

(** The metrics of the sample series over the window [[100, 400)]. *)
Definition sampleMetrics : Metrics :=
  {| minTempF := num 38; minFeelsF := num 35; maxPrecipProb := num 50;
     maxWindMph := JNull; wetRisk := JBool true |}.

(** Noon of a day, as a time value. *)
Definition noon : Z := 20000 * msPerDay + 12 * msPerHour.


(** The sample series again, its hours in tonight's window of [noon]:
    the window runs from 19:00 to 09:00 local time, five hours behind
    UTC. The first hour is before the window, the last one is its end. *)
Definition nightHourly : JsVal :=
  JObj [("time", JArr [num (20000 * msPerDay + 23 * msPerHour);
                       num (20001 * msPerDay);
                       num (20001 * msPerDay + 5 * msPerHour);
                       num (20001 * msPerDay + 14 * msPerHour)]);
        ("temperature_2m", JArr [num 20; num 41; num 38; JNull]);
        ("apparent_temperature", JArr [num 10; JNum NaN; num 36; num 35]);
        ("precipitation_probability", JArr [num 90; num 50; JNull; num 20]);
        ("windspeed_10m", JArr [JNull; JNull])].

(** A value that cannot be converted: the object [{"toString": 1}]. *)
Definition stubborn : JsVal := JObj [("toString", num 1)].

(** A rule whose condition cannot be evaluated, before the catch-all
    rule; and a rule that asks for at least [null] degrees. *)
Definition stubbornRule : Rule :=
  {| rule_id := "r0"; rule_name := "Odd"; comboId := "c1";
     conditions := [{| cond_field := "minTempF"; cond_op := "<=";
                       cond_value := stubborn |}] |}.

Definition stubbornData : Dataset :=
  {| version := 1; blankets := []; combos := [lightCombo];
     rules := [stubbornRule; catchAllRule]; defaultComboId := "c1";
     lastForecast := JNull |}.

Definition nullRule : Rule :=
  {| rule_id := "r4"; rule_name := "Null"; comboId := "c1";
     conditions := [{| cond_field := "minTempF"; cond_op := ">=";
                       cond_value := JNull |}] |}.

Definition emptyState : AppState :=
  {| data := emptyData; weatherMetrics := None; localStorage := ∅;
     idsDrawn := 0 |}.

End Sample.

(* ===================================================================== *)
(** * Fetching the forecast *)
(* ===================================================================== *)

(** What the code reads of the response of [fetch]. *)
Record HttpResponse : Type := mkHttpResponse {
  res_ok : bool;
  res_status : nat;
  res_text : string;
}.

(** How fetching the metrics fails. *)
Inductive WeatherError : Type :=
  | NetworkFailure                     (* [fetch] rejected *)
  | RequestFailed (serverMsg : string) (* "Weather request failed: <serverMsg>" *)
  | InvalidJson                        (* "Weather request failed: invalid JSON." *)
  | ReductionFailed (e : JsError).     (* thrown while reducing [json.hourly] *)

Inductive Fetched (A : Type) : Type :=
  | Got (a : A)
  | Failed (e : WeatherError).
Arguments Got {A} a.
Arguments Failed {A} e.

Section Weather.

Variable number_to_string : JsNum -> string.
Variable LocalTime : Z -> Z.
Variable UTC : Z -> Z.
Variable Date_parse : JsVal -> option Z.

(** [JSON.parse], [None] where it throws; [formatYmd] on a time value;
    and the response the forecast service gives to a request for the dates
    [startDate], [endDate] in the zone [timezone], [None] when the request
    itself fails. *)
Variable JSON_parse : string -> option JsVal.
Variable formatYmd : Z -> string.
Variable fetch : string -> string -> string -> option HttpResponse.

Definition safeJsonParse (text : string) : JsVal :=
  match JSON_parse text with
  | Some v => v
  | None => JNull
  end.

Definition fetchOpenMeteo (startDate endDate timezone : string)
  : Fetched JsVal :=
  match fetch startDate endDate timezone with
  | None => Failed NetworkFailure
  | Some res =>
      let json := safeJsonParse (res_text res) in
      if negb (res_ok res) then
        let serverMsg :=
          if truthy json && typeof_string (get_prop_opt json "reason")
          then stringOr (get_prop_opt json "reason")
          else "HTTP " ++ number_to_string
                            (Fin (inject_Z (Z.of_nat (res_status res)))) in
        Failed (RequestFailed serverMsg)
      else if negb (truthy json) then Failed InvalidJson
      else Got json
  end.

(** One attempt of [fetchTonightMetrics] in the zone [timezone]. *)
Definition fetchAttempt (w : Window) (timezone : string)
  : Fetched (Metrics * string) :=
  match fetchOpenMeteo (formatYmd (w_start w)) (formatYmd (w_end w)) timezone
  with
  | Failed e => Failed e
  | Got json =>
      match
        (hourly ← get_prop json "hourly";
         computeTonightMetricsFromHourly Date_parse hourly
           (w_start w) (w_end w))
      with
      | Ok metrics => Got (metrics, timezone)
      | Throw e => Failed (ReductionFailed e)
      end
  end.

(** [fetchTonightMetrics()], at the time [now] and with [localTz] what
    [getLocalTimeZone] returns. *)
Definition fetchTonightMetrics (now : Z) (localTz : string)
  : Fetched (Metrics * string) :=
  let w := getTonightWindow LocalTime UTC now in
  match fetchAttempt w localTz with
  | Got r => Got r
  | Failed err =>
      if negb (String.eqb localTz "auto") then fetchAttempt w "auto"
      else Failed err
  end.

End Weather.

(* ===================================================================== *)
(** * The service worker *)
(* ===================================================================== *)

Module Worker.

(** What the worker reads of a request and of a response. *)
Record Request : Type := mkRequest {
  req_method : string;
  req_url : string;
  req_mode : string;
}.

Record Response : Type := mkResponse {
  resp_ok : bool;
  resp_status : nat;
  resp_body : string;
}.

Definition CACHE_NAME : string := "roo-static-v1".

Definition ASSETS : list string :=
  ["./"; "./index.html"; "./styles.css"; "./app.js"; "./manifest.webmanifest"].

(** [new Response("Offline", { status: 503 })] *)
Definition offlineResponse : Response :=
  {| resp_ok := false; resp_status := 503; resp_body := "Offline" |}.

Section Handlers.

(** The origin of a URL, the origin of the worker, and the URL a relative
    path names from the worker's location: a cache holds its entries under
    URLs. Headers (Vary) are left out. *)
Variable originOf : string -> string.
Variable selfOrigin : string.
Variable resolve : string -> string.

(** The content of the cache [caches.open(CACHE_NAME)] gives: empty when
    the storage has no such cache yet. *)
Definition openCache (caches : gmap string (gmap string Response))
  : gmap string Response :=
  default ∅ (caches !! CACHE_NAME).

(** The storage once [caches.open(CACHE_NAME)] has run, the cache holding
    [content]. *)
Definition withCache (content : gmap string Response)
  (caches : gmap string (gmap string Response))
  : gmap string (gmap string Response) :=
  <[CACHE_NAME := content]> caches.

(** [cache.addAll(paths)]: whether every request gave a response and an ok
    one, and the cache once the responses are stored under their URLs. *)
Definition allFetched (network : string -> option Response)
  (paths : list string) : bool :=
  forallb (fun e : string * option Response =>
             match e.2 with
             | Some r => resp_ok r
             | None => false
             end)
    (map (fun a => (resolve a, network (resolve a))) paths).

Definition addAll (network : string -> option Response)
  (cache : gmap string Response) (paths : list string)
  : gmap string Response :=
  foldl (fun c (e : string * option Response) =>
           match e.2 with
           | Some r => <[e.1 := r]> c
           | None => c
           end) cache
    (map (fun a => (resolve a, network (resolve a))) paths).

(** The install handler: [cache.addAll(ASSETS)] stores the response of
    every asset, or stores nothing and rejects when a request fails or a
    response is not ok. The result says whether the installation went
    through. *)
Definition onInstall (network : string -> option Response)
  (caches : gmap string (gmap string Response))
  : gmap string (gmap string Response) * bool :=
  let cache := openCache caches in
  if allFetched network ASSETS
  then (withCache (addAll network cache ASSETS) caches, true)
  else (withCache cache caches, false).

(** The activate handler: every cache but the current one is deleted. *)
Definition onActivate (caches : gmap string (gmap string Response))
  : gmap string (gmap string Response) :=
  filter (fun e => e.1 = CACHE_NAME) caches.

(** [(await cache.match("./index.html")) || (await cache.match("./"))] *)
Definition shellOf (cache : gmap string Response) : option Response :=
  match cache !! resolve "./index.html" with
  | Some r => Some r
  | None => cache !! resolve "./"
  end.

(** The fetch handler on one request, [network] being what [fetch(request)]
    settles to ([None] when it rejects). [None] when the handler returns
    without [respondWith] and the browser handles the request; otherwise
    the response it answers with ([None]: it resolves to [undefined]) and
    the storage once the writes it started have settled. *)
Definition onFetch (request : Request) (network : option Response)
  (caches : gmap string (gmap string Response))
  : option (option Response * gmap string (gmap string Response)) :=
  if negb (String.eqb (req_method request) "GET") then None else
  if negb (String.eqb (originOf (req_url request)) selfOrigin) then None else
  let cache := openCache caches in
  if String.eqb (req_mode request) "navigate" then
    match network with
    | Some res =>
        Some (Some res,
              withCache (if resp_ok res
                         then <[resolve "./index.html" := res]> cache
                         else cache) caches)
    | None => Some (shellOf cache, withCache cache caches)
    end
  else
    match cache !! req_url request with
    | Some cached =>
        Some (Some cached,
              withCache (match network with
                         | Some res =>
                             if resp_ok res
                             then <[req_url request := res]> cache
                             else cache
                         | None => cache
                         end) caches)
    | None =>
        match network with
        | Some res =>
            Some (Some res,
                  withCache (if resp_ok res
                             then <[req_url request := res]> cache
                             else cache) caches)
        | None =>
            Some (Some (default offlineResponse (cache !! resolve "./index.html")),
                  withCache cache caches)
        end
    end.

End Handlers.

End Worker.
(* ===================================================================== *)
(** * Vocabulary of the further properties *)
(* ===================================================================== *)

(** The references of a dataset lead somewhere: every blanket id of a
    combo is the id of a blanket, and the comboId of every rule and the
    defaultComboId are empty or the id of a combo. *)
Definition combosLinked (d : Dataset) : Prop :=
  forall c bid, c ∈ combos d -> bid ∈ blanketIds c ->
    exists b, b ∈ blankets d /\ blanket_id b = bid.

Definition rulesLinked (d : Dataset) : Prop :=
  forall r, r ∈ rules d ->
    comboId r = "" \/ exists c, c ∈ combos d /\ combo_id c = comboId r.

Definition defaultLinked (d : Dataset) : Prop :=
  defaultComboId d = ""
  \/ exists c, c ∈ combos d /\ combo_id c = defaultComboId d.

Definition wellLinked (d : Dataset) : Prop :=
  combosLinked d /\ rulesLinked d /\ defaultLinked d.

(** The objects of [state.data], as [exportJson] serializes them and an
    import reads them back. *)
Definition blanket_to_js (b : Blanket) : JsVal :=
  JObj [("id", JStr (blanket_id b)); ("name", JStr (blanket_name b));
        ("notes", JStr (blanket_notes b))].

Definition combo_to_js (c : Combo) : JsVal :=
  JObj [("id", JStr (combo_id c)); ("name", JStr (combo_name c));
        ("blanketIds", JArr (map JStr (blanketIds c)))].

Definition dataset_to_js (d : Dataset) : JsVal :=
  JObj [("version", JNum (Fin (inject_Z (version d))));
        ("blankets", JArr (map blanket_to_js (blankets d)));
        ("combos", JArr (map combo_to_js (combos d)));
        ("rules", JArr (map rule_to_js (rules d)));
        ("defaultComboId", JStr (defaultComboId d));
        ("lastForecast", lastForecast d)].

(** A dataset as the forms and an import leave it: version 1, no empty
    id, blanket and combo names that are not empty and that [trim] leaves
    as they are, and a cached forecast that is an object or [null]. *)
Definition sanitized (trim : string -> string) (d : Dataset) : Prop :=
  version d = 1
  /\ (forall b, b ∈ blankets d ->
        blanket_id b <> "" /\ blanket_name b <> ""
        /\ trim (blanket_name b) = blanket_name b)
  /\ (forall c, c ∈ combos d ->
        combo_id c <> "" /\ combo_name c <> ""
        /\ trim (combo_name c) = combo_name c)
  /\ (forall r, r ∈ rules d -> rule_id r <> "")
  /\ (lastForecast d = JNull \/ is_object (lastForecast d) = true).

(** Every response a cache holds is an ok response. *)
Definition holdsOkOnly (cache : gmap string Worker.Response) : Prop :=
  forall url r, cache !! url = Some r -> Worker.resp_ok r = true.

(** A reduced reading: [null] or a finite number. *)
Definition isReading (v : JsVal) : Prop :=
  v = JNull \/ exists q, v = JNum (Fin q).

(* ===================================================================== *)
(** * A sample barn *)
(* ===================================================================== *)

Module Barn.

Import Sample.

Definition sheet : Blanket :=
  {| blanket_id := "b1"; blanket_name := "Sheet"; blanket_notes := "" |}.

Definition mediumBlanket : Blanket :=
  {| blanket_id := "b2"; blanket_name := "Medium";
     blanket_notes := "200g" |}.

Definition heavyCombo : Combo :=
  {| combo_id := "c2"; combo_name := "Heavy"; blanketIds := ["b1"; "b2"] |}.

(** A rule for cold nights, and the dataset where it comes before the
    catch-all rule. *)
Definition coldRule : Rule :=
  {| rule_id := "r3"; rule_name := "Cold"; comboId := "c2";
     conditions := [{| cond_field := "minTempF"; cond_op := "<=";
                       cond_value := num 40 |}] |}.

Definition barnData : Dataset :=
  {| version := 1; blankets := [sheet; mediumBlanket];
     combos := [lightCombo; heavyCombo]; rules := [coldRule; catchAllRule];
     defaultComboId := "c1"; lastForecast := JNull |}.

Definition barnState : AppState :=
  {| data := barnData; weatherMetrics := Some coldNight; localStorage := ∅;
     idsDrawn := 0 |}.

(** The sample series with other readings in its last hour, which is
    after the window [[100, 400)]. *)
Definition hourlyLate : JsVal :=
  JObj [("time", JArr [num 100; num 200; num 300; num 400]);
        ("temperature_2m", JArr [JNull; num 41; num 38; num (-5)]);
        ("apparent_temperature", JArr [num 35; JNum NaN; num 36; JNull]);
        ("precipitation_probability", JArr [num 20; num 50; JNull; num 0]);
        ("windspeed_10m", JArr [JNull; JNull])].

(** A worker at the root of its origin, and a network that answers every
    request with an ok response. *)
Definition selfOrigin : string := "https://roo.example".

Definition originOf (url : string) : string :=
  if String.prefix "https://roo.example/" url then selfOrigin
  else "https://elsewhere.example".

Definition resolve (path : string) : string :=
  "https://roo.example/"
  ++ match path with
     | String "." (String "/" rest) => rest
     | _ => path
     end.

Definition network (url : string) : option Worker.Response :=
  Some {| Worker.resp_ok := true; Worker.resp_status := 200;
          Worker.resp_body := url |}.

Definition appScript : Worker.Request :=
  {| Worker.req_method := "GET"; Worker.req_url := resolve "./app.js";
     Worker.req_mode := "no-cors" |}.

End Barn.

(* ===================================================================== *)
(** * Properties of the rule engine *)
(* ===================================================================== *)

Local Open Scope list_scope.

Lemma exn_bind_Ok {A B : Type} (a : A) (k : A -> Exn B) :
  (Ok a ≫= k) = k a.
Proof. reflexivity. Qed.

Lemma get_prop_object (v : JsVal) (k : string) :
  is_object v = true -> get_prop v k = Ok (get_prop_opt v k).
Proof. destruct v; simpl; intros H; try discriminate H; reflexivity. Qed.

Lemma is_object_guard (v : JsVal) :
  negb (truthy v) || negb (typeof_object v) = negb (is_object v).
Proof. unfold is_object. now rewrite negb_andb. Qed.

Lemma metrics_get_other (m : Metrics) (key : string) :
  key ∉ metricFields -> metrics_get m key = JUndefined.
Proof.
  intros H. unfold metrics_get, metricFields in *.
  repeat match goal with
         | |- context [String.eqb key ?f] =>
             destruct (String.eqb_spec key f) as [->|_];
             [exfalso; apply H; set_solver|]
         end.
  reflexivity.
Qed.

Lemma str_is_true (v : JsVal) (lit : string) :
  str_is v lit = true <-> v = JStr lit.
Proof.
  destruct v; simpl; try (split; [discriminate|intros [=]]).
  rewrite String.eqb_eq. split; [now intros ->|now intros [= ->]].
Qed.

Lemma str_is_false (v : JsVal) (lit : string) :
  v <> JStr lit -> str_is v lit = false.
Proof.
  intros H. destruct (str_is v lit) eqn:E; [|reflexivity].
  apply str_is_true in E. contradiction.
Qed.

Lemma isFiniteNumber_inv (v : JsVal) :
  isFiniteNumber v = true -> exists q, v = JNum (Fin q).
Proof.
  destruct v as [| | |[| | |q]| | |]; simpl; try discriminate. eauto.
Qed.

Lemma compares_op (op : JsVal) (l r : JsNum) :
  compares op l r = true -> exists o, o ∈ numericOps /\ op = JStr o.
Proof.
  unfold compares, numericOps.
  destruct (str_is op "<=") eqn:E1;
    [apply str_is_true in E1; intros _; exists "<="; split; [set_solver|assumption]|].
  destruct (str_is op "<") eqn:E2;
    [apply str_is_true in E2; intros _; exists "<"; split; [set_solver|assumption]|].
  destruct (str_is op ">=") eqn:E3;
    [apply str_is_true in E3; intros _; exists ">="; split; [set_solver|assumption]|].
  destruct (str_is op ">") eqn:E4;
    [apply str_is_true in E4; intros _; exists ">"; split; [set_solver|assumption]|].
  discriminate.
Qed.

Section EngineProperties.

Variable number_to_string : JsNum -> string.
Variable string_to_number : string -> JsNum.

Local Abbreviation to_string := (to_string number_to_string).
Local Abbreviation to_number := (to_number number_to_string string_to_number).
Local Abbreviation condMatches :=
  (condMatches number_to_string string_to_number).
Local Abbreviation conditionsMatch :=
  (conditionsMatch number_to_string string_to_number).
Local Abbreviation ruleMatches :=
  (ruleMatches number_to_string string_to_number).
Local Abbreviation firstMatch :=
  (firstMatch number_to_string string_to_number).
Local Abbreviation pickRecommendation :=
  (pickRecommendation number_to_string string_to_number).

(** ** Conversions *)

Lemma to_string_cons (x : JsVal) (rest : list JsVal) :
  to_string (JArr (x :: rest))
  = match (match x with
           | JUndefined | JNull => Ok ""
           | _ => to_string x
           end) with
    | Throw e => Throw e
    | Ok sx =>
        match rest with
        | [] => Ok sx
        | _ :: _ =>
            match to_string (JArr rest) with
            | Throw e => Throw e
            | Ok srest => Ok (sx ++ "," ++ srest)%string
            end
        end
    end.
Proof. reflexivity. Qed.

(** ToString returns exactly on the values that can be converted, and
    throws a TypeError on the others. *)
Lemma to_string_convertible (v : JsVal) :
  (convertible v = true -> exists s, to_string v = Ok s)
  /\ (convertible v = false -> to_string v = Throw TypeError).
Proof.
  induction v as [v Hv|l IH] using JsVal_arr_ind.
  - destruct v; try discriminate Hv; simpl;
      try (split; [eauto|discriminate]).
    destruct (assoc "toString" props); split; eauto; discriminate.
  - induction IH as [|x rest [Hx1 Hx2] _ [IH1 IH2]].
    + split; [simpl; eauto|discriminate].
    + rewrite to_string_cons.
      change (convertible (JArr (x :: rest)))
        with (convertible x && convertible (JArr rest)).
      destruct (convertible x) eqn:Ex.
      * assert (Hsx : exists sx,
                  match x with
                  | JUndefined | JNull => Ok ""
                  | _ => to_string x
                  end = Ok sx).
        { destruct (Hx1 eq_refl) as [s Hs]. destruct x; eauto. }
        destruct Hsx as [sx ->]. rewrite andb_true_l.
        destruct rest as [|y rest']; [split; [eauto|discriminate]|].
        destruct (convertible (JArr (y :: rest'))) eqn:Er.
        -- destruct (IH1 eq_refl) as [sr ->]. split; [eauto|discriminate].
        -- rewrite (IH2 eq_refl). split; [discriminate|reflexivity].
      * rewrite andb_false_l. split; [discriminate|]. intros _.
        assert (Hthrow : match x with
                         | JUndefined | JNull => Ok ""
                         | _ => to_string x
                         end = Throw TypeError).
        { pose proof (Hx2 eq_refl) as Ht. destruct x; try discriminate Ex;
            exact Ht. }
        now rewrite Hthrow.
Qed.

Lemma to_number_convertible (v : JsVal) :
  (convertible v = true -> exists n, to_number v = Ok n)
  /\ (convertible v = false -> to_number v = Throw TypeError).
Proof.
  destruct (to_string_convertible v) as [H1 H2].
  destruct v; try (split; [simpl; eauto|discriminate]); unfold to_number.
  - split; [intros Hc; destruct (H1 Hc) as [s ->]; simpl; eauto|].
    intros Hc. now rewrite (H2 Hc).
  - split; [intros Hc; destruct (H1 Hc) as [s ->]; simpl; eauto|].
    intros Hc. now rewrite (H2 Hc).
Qed.

(** A conversion that does not return throws a TypeError. *)
Lemma to_string_cases (v : JsVal) :
  (exists s, to_string v = Ok s) \/ to_string v = Throw TypeError.
Proof.
  destruct (to_string_convertible v) as [H1 H2].
  destruct (convertible v); [left|right]; auto.
Qed.

Lemma to_number_cases (v : JsVal) :
  (exists n, to_number v = Ok n) \/ to_number v = Throw TypeError.
Proof.
  destruct (to_number_convertible v) as [H1 H2].
  destruct (convertible v); [left|right]; auto.
Qed.

(** ** One condition *)

(** What [condMatches] computes on an object. *)
Lemma condMatches_object (cond : JsVal) (m : Metrics) :
  is_object cond = true ->
  condMatches cond m
  = if str_is (get_prop_opt cond "field") "wetRisk"
    then Ok (str_is (get_prop_opt cond "op") "is"
             && Bool.eqb (truthy (wetRisk m))
                  (truthy (get_prop_opt cond "value")))
    else
      key ← to_string (get_prop_opt cond "field");
      right ← to_number (get_prop_opt cond "value");
      Ok (isFiniteNumber (metrics_get m key) && Num.isFinite right
          && compares (get_prop_opt cond "op")
               (number_of (metrics_get m key)) right).
Proof.
  intros Hobj. unfold condMatches. rewrite is_object_guard, Hobj.
  change (negb true) with false. cbv iota.
  rewrite !get_prop_object by assumption. rewrite ?exn_bind_Ok.
  destruct (str_is (get_prop_opt cond "field") "wetRisk").
  - rewrite ?exn_bind_Ok.
    destruct (str_is _ "is"); simpl; [|reflexivity].
    now destruct (Bool.eqb _ _).
  - destruct (to_string (get_prop_opt cond "field")) as [key|e];
      [|reflexivity].
    rewrite ?exn_bind_Ok.
    destruct (to_number (get_prop_opt cond "value")) as [right|e];
      [|reflexivity].
    rewrite ?exn_bind_Ok. cbv zeta.
    destruct (isFiniteNumber (metrics_get m key)); simpl; [|reflexivity].
    destruct (Num.isFinite right); simpl; [|reflexivity].
    unfold compares.
    repeat (destruct (str_is _ _); [reflexivity|]). reflexivity.
Qed.

Lemma condMatches_not_object (cond : JsVal) (m : Metrics) :
  is_object cond = false -> condMatches cond m = Ok false.
Proof.
  intros Hobj. unfold condMatches. now rewrite is_object_guard, Hobj.
Qed.

(** A condition gives a verdict or throws a TypeError, and gives a
    verdict when its field and its value can be converted. *)
Lemma condMatches_cases (cond : JsVal) (m : Metrics) :
  (exists b, condMatches cond m = Ok b) \/ condMatches cond m = Throw TypeError.
Proof.
  destruct (is_object cond) eqn:Hobj;
    [|left; rewrite condMatches_not_object by assumption; eauto].
  rewrite condMatches_object by assumption.
  destruct (str_is _ "wetRisk"); [left; eauto|].
  destruct (to_string_cases (get_prop_opt cond "field")) as [[key ->]| ->];
    [|now right].
  rewrite exn_bind_Ok.
  destruct (to_number_cases (get_prop_opt cond "value")) as [[r ->]| ->];
    [left; rewrite exn_bind_Ok; eauto|now right].
Qed.

Lemma condMatches_returns (cond : JsVal) (m : Metrics) :
  convertible (get_prop_opt cond "field") = true ->
  convertible (get_prop_opt cond "value") = true ->
  exists b, condMatches cond m = Ok b.
Proof.
  intros Hf Hv.
  destruct (is_object cond) eqn:Hobj;
    [|rewrite condMatches_not_object by assumption; eauto].
  rewrite condMatches_object by assumption.
  destruct (str_is _ "wetRisk"); [eauto|].
  destruct (proj1 (to_string_convertible _) Hf) as [key ->].
  destruct (proj1 (to_number_convertible _) Hv) as [r ->].
  rewrite !exn_bind_Ok. eauto.
Qed.

(** What makes one condition fail, and what a condition that holds
    says, given the key its field and the number its value convert to. *)
Lemma condMatches_strict (cond : JsVal) (m : Metrics) (key : string)
  (right : JsNum) :
  let field := get_prop_opt cond "field" in
  let op := get_prop_opt cond "op" in
  let value := get_prop_opt cond "value" in
  to_string field = Ok key ->
  to_number value = Ok right ->
  (exists b, condMatches cond m = Ok b) /\
  (key ∉ metricFields -> condMatches cond m = Ok false) /\
  (field = JStr "wetRisk" -> op <> JStr "is" ->
     condMatches cond m = Ok false) /\
  (field <> JStr "wetRisk" ->
     (forall o, o ∈ numericOps -> op <> JStr o) ->
     condMatches cond m = Ok false) /\
  (op = JStr "is" -> condMatches cond m = Ok true ->
     field = JStr "wetRisk") /\
  (field <> JStr "wetRisk" ->
     isFiniteNumber (metrics_get m key) = false
     \/ Num.isFinite right = false ->
     condMatches cond m = Ok false) /\
  (field <> JStr "wetRisk" -> condMatches cond m = Ok true ->
     exists q v,
       metrics_get m key = JNum (Fin q) /\ right = Fin v
       /\ compares op (Fin q) (Fin v) = true).
Proof.
  intros field op value Hkey Hright. subst field op value.
  destruct (is_object cond) eqn:Hobj.
  2:{ rewrite condMatches_not_object by assumption.
      split; [eauto|]. repeat (split; [auto; fail|]).
      split; [discriminate|]. split; [auto|discriminate]. }
  rewrite condMatches_object by assumption.
  destruct (str_is (get_prop_opt cond "field") "wetRisk") eqn:Ef.
  - apply str_is_true in Ef.
    assert (Hk : key = "wetRisk")
      by (rewrite Ef in Hkey; simpl in Hkey; congruence).
    split; [eauto|]. split.
    { intros Hnot. exfalso. apply Hnot. rewrite Hk.
      unfold metricFields. set_solver. }
    split.
    { intros _ Hop. now rewrite (str_is_false _ _ Hop). }
    split; [intros Hne; contradiction|].
    split; [auto|]. split; intros Hne; contradiction.
  - assert (Hne : get_prop_opt cond "field" <> JStr "wetRisk").
    { intros Heq. rewrite Heq in Ef. discriminate. }
    rewrite Hkey, Hright, !exn_bind_Ok.
    split; [eauto|]. split.
    { intros Hnot. now rewrite metrics_get_other. }
    split; [intros Heq; contradiction|]. split.
    { intros _ Hop. f_equal.
      destruct (compares _ _ _) eqn:Ec; [|apply andb_false_r].
      apply compares_op in Ec as (o & Ho & Heq).
      exfalso. exact (Hop o Ho Heq). }
    split.
    { intros Hop [= Hc]. exfalso.
      apply andb_true_iff in Hc as [_ Hc].
      apply compares_op in Hc as (o & Ho & Heq). rewrite Hop in Heq.
      injection Heq as <-. unfold numericOps in Ho.
      do 4 (apply elem_of_cons in Ho as [Ho|Ho]; [discriminate Ho|]).
      inversion Ho. }
    split.
    { intros _ [Hl|Hr]; [now rewrite Hl|].
      now rewrite Hr, andb_false_r. }
    intros _ [= Hc]. apply andb_true_iff in Hc as [Hc Hcmp].
    apply andb_true_iff in Hc as [Hl Hr].
    destruct (isFiniteNumber_inv _ Hl) as [q Hq].
    destruct right as [| | |v]; try discriminate Hr.
    exists q, v. rewrite Hq in Hcmp. auto.
Qed.

(** A condition of the data model: its field is a string, which is its
    own key. *)
Lemma condMatches_typed (c : Condition) (m : Metrics) :
  condMatches (condition_to_js c) m
  = if String.eqb (cond_field c) "wetRisk"
    then Ok (String.eqb (cond_op c) "is"
             && Bool.eqb (truthy (wetRisk m)) (truthy (cond_value c)))
    else
      right ← to_number (cond_value c);
      Ok (isFiniteNumber (metrics_get m (cond_field c)) && Num.isFinite right
          && compares (JStr (cond_op c))
               (number_of (metrics_get m (cond_field c))) right).
Proof. now rewrite condMatches_object. Qed.

(** ** The conditions of a rule *)

Lemma conditionsMatch_cases (conds : list JsVal) (m : Metrics) :
  (exists b, conditionsMatch conds m = Ok b)
  \/ conditionsMatch conds m = Throw TypeError.
Proof.
  induction conds as [|c conds IH]; simpl; [left; eauto|].
  destruct (condMatches_cases c m) as [[[|] ->]| ->];
    rewrite ?exn_bind_Ok; [exact IH|left; eauto|now right].
Qed.

Lemma conditionsMatch_returns (conds : list JsVal) (m : Metrics) :
  Forall (fun cond => convertible (get_prop_opt cond "field") = true
                      /\ convertible (get_prop_opt cond "value") = true)
    conds ->
  exists b, conditionsMatch conds m = Ok b.
Proof.
  induction 1 as [|c conds [Hf Hv] _ IH]; simpl; [eauto|].
  destruct (condMatches_returns c m Hf Hv) as [[|] ->];
    rewrite exn_bind_Ok; eauto.
Qed.

Lemma conditionsMatch_true (conds : list JsVal) (m : Metrics) :
  conditionsMatch conds m = Ok true
  <-> forall c, c ∈ conds -> condMatches c m = Ok true.
Proof.
  induction conds as [|c conds IH]; simpl.
  - split; [intros _ c Hc; inversion Hc|reflexivity].
  - destruct (condMatches c m) as [[|]|e] eqn:Hc; rewrite ?exn_bind_Ok.
    + rewrite IH. split.
      * intros H c' Hc'. apply elem_of_cons in Hc' as [->|Hc']; auto.
      * intros H c' Hc'. apply H. now right.
    + split; [discriminate|]. intros H.
      assert (Hc' : condMatches c m = Ok true) by (apply H; left).
      congruence.
    + split; [discriminate|]. intros H.
      assert (Hc' : condMatches c m = Ok true) by (apply H; left).
      congruence.
Qed.

Lemma ruleMatches_object (rule : JsVal) (m : Metrics) :
  is_object rule = true ->
  ruleMatches rule m = conditionsMatch (conditionsOf rule) m.
Proof.
  intros Hobj. unfold ruleMatches. rewrite is_object_guard, Hobj.
  change (negb true) with false. cbv iota.
  now rewrite get_prop_object by assumption.
Qed.

Lemma ruleMatches_not_object (rule : JsVal) (m : Metrics) :
  is_object rule = false -> ruleMatches rule m = Ok false.
Proof.
  intros Hobj. unfold ruleMatches. now rewrite is_object_guard, Hobj.
Qed.

Lemma ruleMatches_cases (rule : JsVal) (m : Metrics) :
  (exists b, ruleMatches rule m = Ok b) \/ ruleMatches rule m = Throw TypeError.
Proof.
  destruct (is_object rule) eqn:Hobj.
  - rewrite ruleMatches_object by assumption. apply conditionsMatch_cases.
  - left. rewrite ruleMatches_not_object by assumption. eauto.
Qed.

Lemma ruleMatches_true (rule : JsVal) (m : Metrics) :
  ruleMatches rule m = Ok true ->
  forall c, c ∈ conditionsOf rule -> condMatches c m = Ok true.
Proof.
  destruct (is_object rule) eqn:Hobj.
  - rewrite ruleMatches_object by assumption. apply conditionsMatch_true.
  - rewrite ruleMatches_not_object by assumption. discriminate.
Qed.


(** ** The recommendation *)

Lemma combosById_acc (cs : list Combo) (acc : gmap string Combo) (id : string) :
  foldl (fun m c => <[combo_id c := c]> m) acc cs !! id
  = match last (filter (fun c => combo_id c = id) cs) with
    | Some c => Some c
    | None => acc !! id
    end.
Proof.
  revert acc. induction cs as [|c cs IH]; intros acc; simpl; [reflexivity|].
  rewrite IH, filter_cons. case_decide as Hc.
  - rewrite last_cons. destruct (last _); [reflexivity|].
    rewrite <- Hc. apply lookup_insert_eq.
  - destruct (last _); [reflexivity|]. now apply lookup_insert_ne.
Qed.

(** The Map of [pickRecommendation] gives, under an id, the last combo of
    the list that carries it. *)
Lemma combosById_lookup (cs : list Combo) (id : string) :
  combosById cs !! id = last (filter (fun c => combo_id c = id) cs).
Proof.
  unfold combosById. rewrite combosById_acc, lookup_empty.
  now destruct (last _).
Qed.

Lemma is_object_condition (c : Condition) :
  is_object (condition_to_js c) = true.
Proof. reflexivity. Qed.

Lemma ruleMatches_typed (r : Rule) (m : Metrics) :
  ruleMatches (rule_to_js r) m
  = conditionsMatch (map condition_to_js (conditions r)) m.
Proof. now rewrite ruleMatches_object. Qed.

Lemma ruleMatches_typed_iff (r : Rule) (m : Metrics) :
  ruleMatches (rule_to_js r) m = Ok true
  <-> forall c, c ∈ conditions r ->
        condMatches (condition_to_js c) m = Ok true.
Proof.
  rewrite ruleMatches_typed, conditionsMatch_true. split.
  - intros H c Hc. apply H. apply list_elem_of_fmap. eauto.
  - intros H cj Hcj. apply list_elem_of_fmap in Hcj as (c & -> & Hc). auto.
Qed.

(** The rule is evaluated without an error when the values of its
    conditions can be converted. *)
Lemma ruleMatches_typed_returns (r : Rule) (m : Metrics) :
  (forall c, c ∈ conditions r -> convertible (cond_value c) = true) ->
  exists b, ruleMatches (rule_to_js r) m = Ok b.
Proof.
  intros Hconv. rewrite ruleMatches_typed.
  apply conditionsMatch_returns, Forall_forall.
  intros cj Hcj. apply list_elem_of_fmap in Hcj as (c & -> & Hc).
  split; [reflexivity|exact (Hconv c Hc)].
Qed.

Lemma firstMatch_first (byId : gmap string Combo) (m : Metrics)
  (pre : list Rule) (r : Rule) (post : list Rule) :
  Forall (fun r' => ruleMatches (rule_to_js r') m = Ok false) pre ->
  ruleMatches (rule_to_js r) m = Ok true ->
  firstMatch byId (pre ++ r :: post) m
  = Ok (Some (PickRule r (byId !! comboId r))).
Proof.
  intros Hpre Hr. induction Hpre as [|r' pre Hr' _ IH]; simpl.
  - now rewrite Hr.
  - rewrite Hr'. exact IH.
Qed.

Lemma firstMatch_none (byId : gmap string Combo) (m : Metrics)
  (rs : list Rule) :
  Forall (fun r' => ruleMatches (rule_to_js r') m = Ok false) rs ->
  firstMatch byId rs m = Ok None.
Proof.
  intros H. induction H as [|r' rs Hr' _ IH]; simpl; [reflexivity|].
  rewrite Hr'. exact IH.
Qed.

Lemma firstMatch_throws (byId : gmap string Combo) (m : Metrics)
  (pre : list Rule) (r : Rule) (post : list Rule) (e : JsError) :
  Forall (fun r' => ruleMatches (rule_to_js r') m = Ok false) pre ->
  ruleMatches (rule_to_js r) m = Throw e ->
  firstMatch byId (pre ++ r :: post) m = Throw e.
Proof.
  intros Hpre Hr. induction Hpre as [|r' pre Hr' _ IH]; simpl.
  - now rewrite Hr.
  - rewrite Hr'. exact IH.
Qed.

(** Some rule is the first to match, or none matches, or the first rule
    that does not evaluate to false throws a TypeError. *)
Lemma first_match_or_none (rs : list Rule) (m : Metrics) :
  (exists pre r post, rs = pre ++ r :: post
     /\ Forall (fun r' => ruleMatches (rule_to_js r') m = Ok false) pre
     /\ ruleMatches (rule_to_js r) m = Ok true)
  \/ Forall (fun r' => ruleMatches (rule_to_js r') m = Ok false) rs
  \/ (exists pre r post, rs = pre ++ r :: post
        /\ Forall (fun r' => ruleMatches (rule_to_js r') m = Ok false) pre
        /\ ruleMatches (rule_to_js r) m = Throw TypeError).
Proof.
  induction rs as [|r rs IH]; [right; left; constructor|].
  destruct (ruleMatches_cases (rule_to_js r) m) as [[[|] Hr]|Hr].
  - left. exists [], r, rs. repeat split; [constructor|exact Hr].
  - destruct IH as [(pre & r0 & post & -> & Hpre & Hr0)
                   |[Hnone|(pre & r0 & post & -> & Hpre & Hr0)]].
    + left. exists (r :: pre), r0, post. repeat split; [|exact Hr0].
      now constructor.
    + right. left. now constructor.
    + right. right. exists (r :: pre), r0, post.
      repeat split; [|exact Hr0]. now constructor.
  - right. right. exists [], r, rs. repeat split; [constructor|exact Hr].
Qed.

Lemma first_match_or_none_returns (rs : list Rule) (m : Metrics) :
  (forall r c, r ∈ rs -> c ∈ conditions r ->
     convertible (cond_value c) = true) ->
  (exists pre r post, rs = pre ++ r :: post
     /\ Forall (fun r' => ruleMatches (rule_to_js r') m = Ok false) pre
     /\ ruleMatches (rule_to_js r) m = Ok true)
  \/ Forall (fun r' => ruleMatches (rule_to_js r') m = Ok false) rs.
Proof.
  intros Hconv.
  destruct (first_match_or_none rs m)
    as [H|[H|(pre & r & post & -> & _ & Hr)]]; [now left|now right|].
  destruct (ruleMatches_typed_returns r m) as [b Hb]; [|congruence].
  intros c Hc. apply (Hconv r c); [|exact Hc].
  apply elem_of_app. right. constructor.
Qed.



End EngineProperties.

(* ===================================================================== *)
(** * Properties of the metric reduction *)
(* ===================================================================== *)

Section PickProperties.

Variable better : JsNum -> JsNum -> bool.
Variable le : Q -> Q -> Prop.

Hypothesis le_refl : forall q, le q q.
Hypothesis le_trans : forall a b c, le a b -> le b c -> le a c.
Hypothesis better_le : forall a b, better (Fin a) (Fin b) = true -> le a b.
Hypothesis not_better_le :
  forall a b, better (Fin a) (Fin b) = false -> le b a.

Local Abbreviation pickStep := (pickStep better).

Lemma pickStep_skip (arr : list JsVal) (best : JsVal) (idx : nat) :
  isFiniteNumber (arr_at arr idx) = false -> pickStep arr best idx = best.
Proof. intros H. unfold pickStep. now rewrite H. Qed.

(** Readings that are no finite numbers take no part in the result. *)
Lemma pick_skips (arr : list JsVal) (indices : list nat) (best : JsVal) :
  foldl (pickStep arr) best indices
  = foldl (pickStep arr) best
      (List.filter (fun idx => isFiniteNumber (arr_at arr idx)) indices).
Proof.
  revert best. induction indices as [|idx indices IH]; intros best; simpl;
    [reflexivity|].
  destruct (isFiniteNumber (arr_at arr idx)) eqn:Hfin; simpl.
  - apply IH.
  - rewrite pickStep_skip by exact Hfin. apply IH.
Qed.

Lemma pick_best (arr : list JsVal) (indices : list nat) :
  bestOver le indices arr (foldl (pickStep arr) JNull indices).
Proof.
  induction indices as [|x l IH] using rev_ind.
  - left. split; [|reflexivity]. intros idx Hidx. inversion Hidx.
  - rewrite foldl_app. simpl.
    destruct (isFiniteNumber (arr_at arr x)) eqn:Hfin.
    + destruct (isFiniteNumber_inv _ Hfin) as [q Hq].
      destruct IH as [[Hnone ->]|(i0 & q0 & Hi0 & Hat0 & -> & Hmin)].
      * right. exists x, q. unfold pickStep. rewrite Hfin. simpl.
        repeat split; [set_solver|exact Hq|exact Hq|].
        intros idx' q' Hin Hq'. apply elem_of_app in Hin as [Hin|Hin].
        -- specialize (Hnone _ Hin). rewrite Hq' in Hnone. discriminate.
        -- apply list_elem_of_singleton in Hin. subst idx'.
           rewrite Hq in Hq'. injection Hq' as ->. apply le_refl.
      * unfold pickStep. rewrite Hfin, Hq. simpl.
        destruct (better (Fin q) (Fin q0)) eqn:Hb.
        -- right. exists x, q. repeat split; [set_solver|exact Hq|].
           intros idx' q' Hin Hq'. apply elem_of_app in Hin as [Hin|Hin].
           ++ eapply le_trans; [apply better_le, Hb|]. eapply Hmin; eauto.
           ++ apply list_elem_of_singleton in Hin. subst idx'.
              rewrite Hq in Hq'. injection Hq' as ->. apply le_refl.
        -- right. exists i0, q0. repeat split; [set_solver|exact Hat0|].
           intros idx' q' Hin Hq'. apply elem_of_app in Hin as [Hin|Hin].
           ++ eapply Hmin; eauto.
           ++ apply list_elem_of_singleton in Hin. subst idx'.
              rewrite Hq in Hq'. injection Hq' as ->.
              apply not_better_le, Hb.
    + rewrite pickStep_skip by exact Hfin.
      destruct IH as [[Hnone ->]|(i0 & q0 & Hi0 & Hat0 & -> & Hmin)].
      * left. split; [|reflexivity]. intros idx Hin.
        apply elem_of_app in Hin as [Hin|Hin]; [now apply Hnone|].
        apply list_elem_of_singleton in Hin. now subst idx.
      * right. exists i0, q0. repeat split; [set_solver|exact Hat0|].
        intros idx' q' Hin Hq'. apply elem_of_app in Hin as [Hin|Hin].
        -- eapply Hmin; eauto.
        -- apply list_elem_of_singleton in Hin. subst idx'.
           rewrite Hq' in Hfin. discriminate.
Qed.

End PickProperties.

Lemma lt_better_le (a b : Q) : Num.lt (Fin a) (Fin b) = true -> (a <= b)%Q.
Proof.
  unfold Num.lt, Num.cmp. destruct (Qcompare a b) eqn:E; try discriminate.
  intros _. apply Qlt_le_weak. now apply Qlt_alt.
Qed.

Lemma lt_not_better_le (a b : Q) : Num.lt (Fin a) (Fin b) = false -> (b <= a)%Q.
Proof.
  unfold Num.lt, Num.cmp. destruct (Qcompare a b) eqn:E; try discriminate;
    intros _; apply Qnot_lt_le; intros Hlt;
    pose proof (proj1 (Qlt_alt a b) Hlt); congruence.
Qed.

Lemma gt_better_ge (a b : Q) : Num.gt (Fin a) (Fin b) = true -> (b <= a)%Q.
Proof.
  unfold Num.gt, Num.cmp. destruct (Qcompare a b) eqn:E; try discriminate.
  intros _. apply Qlt_le_weak. now apply Qgt_alt.
Qed.

Lemma gt_not_better_ge (a b : Q) : Num.gt (Fin a) (Fin b) = false -> (a <= b)%Q.
Proof.
  unfold Num.gt, Num.cmp. destruct (Qcompare a b) eqn:E; try discriminate;
    intros _; apply Qnot_lt_le; intros Hlt;
    pose proof (proj1 (Qgt_alt a b) Hlt); congruence.
Qed.

Lemma ge_fifty (q : Q) : Num.ge (Fin q) (Fin 50) = true <-> (50 <= q)%Q.
Proof.
  unfold Num.ge, Num.cmp. rewrite Qge_alt.
  destruct (Qcompare q 50); split; intros H; congruence.
Qed.

Section WeatherProperties.

Variable LocalTime : Z -> Z.
Variable UTC : Z -> Z.
Variable Date_parse : JsVal -> option Z.

Local Abbreviation selectIndices := (selectIndices Date_parse).
Local Abbreviation inWindow := (inWindow Date_parse).
Local Abbreviation getTonightWindow := (getTonightWindow LocalTime UTC).
Local Abbreviation computeTonightMetricsFromHourly :=
  (computeTonightMetricsFromHourly Date_parse).
Local Abbreviation tonightMetrics :=
  (tonightMetrics LocalTime UTC Date_parse).

Lemma pickMin_minOver (indices : list nat) (arr : list JsVal) :
  minOver indices arr (pickMin indices arr).
Proof.
  apply pick_best.
  - apply Qle_refl.
  - apply Qle_trans.
  - apply lt_better_le.
  - apply lt_not_better_le.
Qed.

Lemma pickMax_maxOver (indices : list nat) (arr : list JsVal) :
  maxOver indices arr (pickMax indices arr).
Proof.
  apply pick_best.
  - apply Qle_refl.
  - intros a b c Hab Hbc. eapply Qle_trans; eauto.
  - apply gt_better_ge.
  - apply gt_not_better_ge.
Qed.

(** ** Which indices are selected *)

Lemma selectIndices_spec (times : list JsVal) (k i : nat) (ws we : Z) :
  i ∈ selectIndices times k ws we
  <-> exists j v, i = (k + j)%nat /\ times !! j = Some v /\ inWindow ws we v.
Proof.
  revert k. induction times as [|t rest IH]; intros k; simpl.
  - split; [intros H; inversion H|intros (j & v & _ & H & _); discriminate].
  - assert (Hrest : i ∈ selectIndices rest (S k) ws we
              <-> exists j v, i = (k + S j)%nat /\ rest !! j = Some v
                              /\ inWindow ws we v).
    { rewrite IH. split; intros (j & v & Hi & H); exists j, v;
        (split; [lia|exact H]). }
    assert (Hhead : inWindow ws we t
              <-> exists ms, Date_parse t = Some ms
                    /\ (ws <=? ms) && (ms <? we) = true).
    { unfold inWindow.
      split; intros (ms & Hp & Hw); exists ms; (split; [exact Hp|]);
        [apply andb_true_iff; split; [apply Z.leb_le|apply Z.ltb_lt]; lia|].
      apply andb_true_iff in Hw as [H1 H2].
      apply Z.leb_le in H1. apply Z.ltb_lt in H2. lia. }
    split.
    + intros Hin.
      assert (Hcases : (i = k /\ inWindow ws we t)
                       \/ i ∈ selectIndices rest (S k) ws we).
      { destruct (Date_parse t) as [ms|] eqn:Hp; [|now right].
        destruct ((ws <=? ms) && (ms <? we)) eqn:Hw; [|now right].
        apply elem_of_cons in Hin as [->|Hin]; [left|now right].
        split; [reflexivity|]. apply Hhead. eauto. }
      destruct Hcases as [[-> Ht]|Hin'].
      * exists 0%nat, t. repeat split; [lia|exact Ht].
      * apply Hrest in Hin' as (j & v & Hi & Hj & Hv).
        exists (S j), v. repeat split; assumption.
    + intros (j & v & Hi & Hj & Hv). destruct j as [|j]; simpl in Hj.
      * injection Hj as ->. apply Hhead in Hv as (ms & Hp & Hw).
        rewrite Hp, Hw. replace i with k by lia. constructor.
      * assert (Hin : i ∈ selectIndices rest (S k) ws we)
          by (apply Hrest; eauto).
        destruct (Date_parse t) as [ms|]; [|exact Hin].
        destruct ((ws <=? ms) && (ms <? we)); [|exact Hin].
        now apply elem_of_cons; right.
Qed.

Lemma selectIndices_sorted (times : list JsVal) (k : nat) (ws we : Z) :
  StronglySorted Nat.lt (selectIndices times k ws we).
Proof.
  revert k. induction times as [|t rest IH]; intros k; simpl; [constructor|].
  destruct (Date_parse t) as [ms|]; [|apply IH].
  destruct ((ws <=? ms) && (ms <? we)); [|apply IH].
  constructor; [apply IH|].
  apply Forall_forall. intros i Hi.
  apply selectIndices_spec in Hi as (j & _ & -> & _). unfold Nat.lt. lia.
Qed.

Lemma selectIndices_empty (times : list JsVal) (ws we : Z) :
  (forall i v, times !! i = Some v -> ~ inWindow ws we v) ->
  selectIndices times 0 ws we = [].
Proof.
  intros Hnone. destruct (selectIndices times 0 ws we) as [|i l] eqn:E;
    [reflexivity|].
  assert (Hi : i ∈ selectIndices times 0 ws we) by (rewrite E; constructor).
  apply selectIndices_spec in Hi as (j & v & _ & Hj & Hv).
  exfalso. exact (Hnone _ _ Hj Hv).
Qed.

(** ** What the reduction returns *)

Lemma compute_arrays (hourly : JsVal) (ws we : Z)
  (times temps feels precip wind : list JsVal) :
  get_prop_opt hourly "time" = JArr times ->
  get_prop_opt hourly "temperature_2m" = JArr temps ->
  get_prop_opt hourly "apparent_temperature" = JArr feels ->
  get_prop_opt hourly "precipitation_probability" = JArr precip ->
  get_prop_opt hourly "windspeed_10m" = JArr wind ->
  computeTonightMetricsFromHourly hourly ws we
  = let indices := selectIndices times 0 ws we in
    if Nat.eqb (length indices) 0 then Throw ErrNoWindowData else
    let maxPrecipProb := pickMax indices precip in
    Ok {| minTempF := pickMin indices temps;
          minFeelsF := pickMin indices feels;
          maxPrecipProb := maxPrecipProb;
          maxWindMph := pickMax indices wind;
          wetRisk := JBool (if isFiniteNumber maxPrecipProb
                            then Num.ge (number_of maxPrecipProb) (Fin 50)
                            else false) |}.
Proof.
  intros Ht Hte Hf Hp Hw. unfold computeTonightMetricsFromHourly.
  rewrite Ht, Hte, Hf, Hp, Hw. reflexivity.
Qed.

Lemma compute_Ok_arrays (hourly : JsVal) (ws we : Z) (m : Metrics) :
  computeTonightMetricsFromHourly hourly ws we = Ok m ->
  exists times temps feels precip wind,
    get_prop_opt hourly "time" = JArr times
    /\ get_prop_opt hourly "temperature_2m" = JArr temps
    /\ get_prop_opt hourly "apparent_temperature" = JArr feels
    /\ get_prop_opt hourly "precipitation_probability" = JArr precip
    /\ get_prop_opt hourly "windspeed_10m" = JArr wind.
Proof.
  unfold computeTonightMetricsFromHourly.
  destruct (get_prop_opt hourly "time"); try discriminate.
  destruct (get_prop_opt hourly "temperature_2m"); try discriminate.
  destruct (get_prop_opt hourly "apparent_temperature"); try discriminate.
  destruct (get_prop_opt hourly "precipitation_probability");
    try discriminate.
  destruct (get_prop_opt hourly "windspeed_10m"); try discriminate.
  intros _. eauto 10.
Qed.

Lemma length_zero_iff {A : Type} (l : list A) :
  Nat.eqb (length l) 0 = true <-> l = [].
Proof. destruct l; simpl; split; intros H; congruence. Qed.



(** C6. In the metrics the reduction returns, wetRisk is true exactly
    when the maximum precipitation probability is a number of at least
    50, and false otherwise: true at 50, false at 49. *)
Theorem wetRisk_threshold (hourly : JsVal) (ws we : Z) (m : Metrics) :
  computeTonightMetricsFromHourly hourly ws we = Ok m ->
  (wetRisk m = JBool true
   <-> exists q, maxPrecipProb m = JNum (Fin q) /\ (50 <= q)%Q)
  /\ (wetRisk m = JBool true \/ wetRisk m = JBool false)
  /\ (maxPrecipProb m = JNum (Fin 50) -> wetRisk m = JBool true)
  /\ (maxPrecipProb m = JNum (Fin 49) -> wetRisk m = JBool false).
Proof.
  intros Hm.
  destruct (compute_Ok_arrays _ _ _ _ Hm)
    as (times & temps & feels & precip & wind & Ht & Hte & Hf & Hp & Hw).
  rewrite (compute_arrays _ _ _ _ _ _ _ _ Ht Hte Hf Hp Hw) in Hm.
  cbv zeta in Hm.
  destruct (Nat.eqb _ 0); [discriminate|]. injection Hm as <-. simpl.
  set (mp := pickMax (selectIndices times 0 ws we) precip).
  assert (Hiff : forall b,
            JBool (if isFiniteNumber mp
                   then Num.ge (number_of mp) (Fin 50)
                   else false) = JBool b
            <-> (if b then exists q, mp = JNum (Fin q) /\ (50 <= q)%Q
                 else ~ exists q, mp = JNum (Fin q) /\ (50 <= q)%Q)).
  { intros b. destruct (isFiniteNumber mp) eqn:Hfin.
    - destruct (isFiniteNumber_inv _ Hfin) as [q Hq]. rewrite Hq. simpl.
      destruct (Num.ge (Fin q) (Fin 50)) eqn:Hge; destruct b;
        split; try congruence; intros H.
      + exists q. split; [reflexivity|]. now apply ge_fifty.
      + exfalso. apply H. exists q. split; [reflexivity|]. now apply ge_fifty.
      + destruct H as (q' & [= <-] & H'). apply ge_fifty in H'. congruence.
      + intros (q' & [= <-] & H'). apply ge_fifty in H'. congruence.
    - destruct b; split; try congruence; intros H.
      + destruct H as (q & Hq & _). rewrite Hq in Hfin. discriminate.
      + intros (q & Hq & _). rewrite Hq in Hfin. discriminate. }
  split; [apply (Hiff true)|]. split; [|split].
  - destruct (isFiniteNumber mp); [destruct (Num.ge _ _)|]; auto.
  - intros H50. apply (Hiff true). exists 50%Q. split; [exact H50|].
    apply Qle_refl.
  - intros H49. apply (Hiff false). intros (q & Hq & Hle).
    rewrite H49 in Hq. injection Hq as <-. revert Hle. now vm_compute.
Qed.

(** ** The window *)

Lemma Day_MakeDate (d h : Z) :
  0 <= h < 24 -> Day (MakeDate d (MakeTime h)) = d.
Proof.
  intros Hh. unfold Day, MakeDate, MakeTime, msPerDay, msPerHour.
  symmetry. apply (Z.div_unique _ _ d (h * 3600000)); lia.
Qed.

Lemma TimeWithinDay_MakeDate (d h : Z) :
  0 <= h < 24 -> TimeWithinDay (MakeDate d (MakeTime h)) = MakeTime h.
Proof.
  intros Hh. unfold TimeWithinDay, MakeDate, MakeTime, msPerDay, msPerHour.
  symmetry. apply (Z.mod_unique _ _ d (h * 3600000)); lia.
Qed.

Lemma getTonightWindow_eq (now : Z) :
  let today := Day (LocalTime now) in
  roundTrips LocalTime UTC (MakeDate today (MakeTime 19)) ->
  roundTrips LocalTime UTC (MakeDate (today + 1) (MakeTime 19)) ->
  getTonightWindow now
  = {| w_start := UTC (MakeDate today (MakeTime 19));
       w_end := UTC (MakeDate (today + 1) (MakeTime 9)) |}.
Proof.
  intros today H19 H19'. unfold roundTrips in *.
  unfold getTonightWindow, setDateNext, setHours. fold today.
  rewrite H19, Day_MakeDate, TimeWithinDay_MakeDate by lia.
  rewrite H19', Day_MakeDate by lia.
  reflexivity.
Qed.


End WeatherProperties.
(* ===================================================================== *)
(** * Properties of the dataset mutations *)
(* ===================================================================== *)

Section MutationProperties.

Variable JSON_stringify : Dataset -> string.

Local Abbreviation saveData := (saveData JSON_stringify).
Local Abbreviation deleteBlanket := (deleteBlanket JSON_stringify).
Local Abbreviation deleteCombo := (deleteCombo JSON_stringify).

Lemma find_present {A : Type} (f : A -> bool) (l : list A) (x : A) :
  x ∈ l -> f x = true -> exists y, List.find f l = Some y.
Proof.
  intros Hin Hx. destruct (List.find f l) as [y|] eqn:E; [eauto|].
  apply list_elem_of_In in Hin.
  pose proof (find_none f l E x Hin). congruence.
Qed.

Lemma deleteBlanket_done (id : string) (st : AppState) (b : Blanket) :
  b ∈ blankets (data st) -> blanket_id b = id ->
  deleteBlanket id true st
  = saveData
      (set_data
         (set_combos (map (dropBlanketId id) (combos (data st)))
            (set_blankets
               (filter (fun x => blanket_id x <> id) (blankets (data st)))
               (data st)))
         st).
Proof.
  intros Hin Hid. unfold deleteBlanket.
  destruct (find_present (fun x => String.eqb (blanket_id x) id) _ b Hin)
    as [y ->]; [now apply String.eqb_eq|].
  reflexivity.
Qed.

Lemma deleteCombo_done (id : string) (st : AppState) (c : Combo) :
  c ∈ combos (data st) -> combo_id c = id ->
  deleteCombo id true st
  = saveData
      (set_data
         (set_rules (map (clearComboId id) (rules (data st)))
            (let d1 := set_combos
                         (filter (fun x => combo_id x <> id)
                            (combos (data st)))
                         (data st) in
             if String.eqb (defaultComboId d1) id
             then set_defaultComboId "" d1 else d1))
         st).
Proof.
  intros Hin Hid. unfold deleteCombo.
  destruct (find_present (fun x => String.eqb (combo_id x) id) _ c Hin)
    as [y ->]; [now apply String.eqb_eq|].
  simpl. now destruct (String.eqb (defaultComboId (data st)) id).
Qed.

(** C8. Deleting a blanket (one that exists, the dialog confirmed) takes
    the blanket out of the list and its id out of the blanketIds of every
    combo; no combo is deleted or renamed, and rules, default combo and
    cached forecast stay. Deleting a combo takes it out of the list,
    empties the comboId of every rule that named it and keeps every other
    field of every rule, empties defaultComboId when it named the combo,
    and leaves the blankets as they were. Either change is persisted. *)
Theorem delete_frame (st : AppState) (id : string) :
  (forall b, b ∈ blankets (data st) -> blanket_id b = id ->
     let st' := deleteBlanket id true st in
     blankets (data st')
     = filter (fun x => blanket_id x <> id) (blankets (data st))
     /\ length (combos (data st')) = length (combos (data st))
     /\ (forall i c, combos (data st) !! i = Some c ->
           exists c', combos (data st') !! i = Some c'
             /\ combo_id c' = combo_id c
             /\ combo_name c' = combo_name c
             /\ blanketIds c' = filter (fun bid => bid <> id) (blanketIds c)
             /\ id ∉ blanketIds c')
     /\ rules (data st') = rules (data st)
     /\ defaultComboId (data st') = defaultComboId (data st)
     /\ lastForecast (data st') = lastForecast (data st)
     /\ localStorage st' !! STORAGE_KEY = Some (JSON_stringify (data st')))
  /\ (forall c, c ∈ combos (data st) -> combo_id c = id ->
        let st' := deleteCombo id true st in
        combos (data st')
        = filter (fun x => combo_id x <> id) (combos (data st))
        /\ blankets (data st') = blankets (data st)
        /\ defaultComboId (data st')
           = (if decide (defaultComboId (data st) = id) then ""
              else defaultComboId (data st))
        /\ length (rules (data st')) = length (rules (data st))
        /\ (forall i r, rules (data st) !! i = Some r ->
              exists r', rules (data st') !! i = Some r'
                /\ rule_id r' = rule_id r
                /\ rule_name r' = rule_name r
                /\ conditions r' = conditions r
                /\ comboId r'
                   = (if decide (comboId r = id) then "" else comboId r)
                /\ (comboId r <> id -> r' = r))
        /\ lastForecast (data st') = lastForecast (data st)
        /\ localStorage st' !! STORAGE_KEY = Some (JSON_stringify (data st')))
  /\ deleteBlanket id false st = st
  /\ deleteCombo id false st = st.
Proof.
  split; [|split; [|split]].
  - intros b Hin Hid st'. subst st'.
    rewrite (deleteBlanket_done id st b Hin Hid). simpl.
    split; [reflexivity|]. split; [apply length_map|].
    split; [|repeat split; apply lookup_insert_eq].
    intros i c Hc. exists (dropBlanketId id c).
    split; [now rewrite list_lookup_fmap, Hc|].
    repeat split. simpl. intros Hmem.
    apply list_elem_of_filter in Hmem as [Hne _]. now apply Hne.
  - intros c Hin Hid st'. subst st'.
    rewrite (deleteCombo_done id st c Hin Hid). simpl.
    destruct (String.eqb_spec (defaultComboId (data st)) id) as [Hd|Hd];
      simpl; (split; [reflexivity|]); (split; [reflexivity|]);
      (split; [now case_decide|]); (split; [apply length_map|]);
      (split; [|split; [reflexivity|apply lookup_insert_eq]]);
      intros i r Hr; exists (clearComboId id r);
      (split; [now rewrite list_lookup_fmap, Hr|]);
      unfold clearComboId;
      destruct (String.eqb_spec (comboId r) id) as [Hr'|Hr']; simpl;
      case_decide; try contradiction; repeat split; congruence.
  - unfold deleteBlanket. now destruct (List.find _ _).
  - unfold deleteCombo. now destruct (List.find _ _).
Qed.

End MutationProperties.

(* ===================================================================== *)
(** * Properties of the import *)
(* ===================================================================== *)

Lemma drewIds_refl (st : AppState) : drewIds st st.
Proof. unfold drewIds. auto. Qed.

Lemma drewIds_trans (a b c : AppState) :
  drewIds a b -> drewIds b c -> drewIds a c.
Proof.
  unfold drewIds. intros (-> & -> & -> & H1) (-> & -> & -> & H2).
  repeat split. lia.
Qed.

Lemma drewIds_drawId (st : AppState) : drewIds st (drawId st).
Proof. unfold drewIds. simpl. repeat split. lia. Qed.

Lemma act_bind_run {A B : Type} (c : Act A) (k : A -> Act B)
  (st st' : AppState) (a : A) :
  c st = (st', Ok a) -> act_bind c k st = k a st'.
Proof. intros H. unfold act_bind. now rewrite H. Qed.

Lemma act_bind_throw {A B : Type} (c : Act A) (k : A -> Act B)
  (st st' : AppState) (e : JsError) :
  c st = (st', Throw e) -> act_bind c k st = (st', Throw e).
Proof. intros H. unfold act_bind. now rewrite H. Qed.

Lemma act_lift_get (v : JsVal) (key : string) (st : AppState) :
  is_object v = true ->
  act_lift (get_prop v key) st = (st, Ok (get_prop_opt v key)).
Proof. intros H. unfold act_lift. now rewrite get_prop_object. Qed.

(** Run the first step of an action, given what it does ([step]), or
    the read of a property of an object ([read]). *)
Ltac step H := rewrite (act_bind_run _ _ _ _ _ H).
Ltac read v key st H := step (act_lift_get v key st H).

(** [arr.map(f)] keeps the order: entry by entry, given what [f] does to
    one entry between the ids drawn before and after it. *)
Lemma act_map_Forall2 {A B : Type} (f : A -> Act B) (Q : A -> Prop)
  (P : A -> B -> nat -> nat -> Prop) :
  (forall x y lo hi lo' hi',
     P x y lo hi -> (lo' <= lo)%nat -> (hi <= hi')%nat -> P x y lo' hi') ->
  (forall x st, Q x ->
     exists y st', f x st = (st', Ok y) /\ drewIds st st'
                   /\ P x y (idsDrawn st) (idsDrawn st')) ->
  forall l st, Forall Q l ->
    exists ys st', act_map f l st = (st', Ok ys) /\ drewIds st st'
      /\ Forall2 (fun x y => P x y (idsDrawn st) (idsDrawn st')) l ys.
Proof.
  intros Pmono Hf l. induction l as [|x l IH]; intros st HQ; simpl.
  - exists [], st. repeat split; [apply drewIds_refl|constructor].
  - inversion HQ as [|? ? Hx Hl]; subst.
    destruct (Hf x st Hx) as (y & st1 & Hrun & Hd1 & HP).
    destruct (IH st1 Hl) as (ys & st2 & Hrun2 & Hd2 & HPs).
    exists (y :: ys), st2.
    step Hrun. step Hrun2.
    split; [reflexivity|]. split; [eapply drewIds_trans; eauto|].
    destruct Hd1 as (_ & _ & _ & H1). destruct Hd2 as (_ & _ & _ & H2).
    constructor.
    + eapply Pmono; [exact HP|lia|lia].
    + eapply Forall2_impl; [exact HPs|]. simpl. intros x' y' HP'.
      eapply Pmono; [exact HP'|lia|lia].
Qed.

Lemma filter_is_object (l : list JsVal) :
  Forall (fun v => is_object v = true) (List.filter is_object l).
Proof.
  apply Forall_forall. intros v Hv. apply list_elem_of_In in Hv.
  now apply filter_In in Hv.
Qed.

(** The objects of an array that pass a test are objects and pass it. *)
Lemma objects_Forall (test : JsVal -> bool) (l : list JsVal) :
  forallb test (List.filter is_object l) = true ->
  Forall (fun v => is_object v = true /\ test v = true)
    (List.filter is_object l).
Proof.
  intros Hall. rewrite forallb_forall in Hall.
  apply Forall_forall. intros v Hv. apply list_elem_of_In in Hv.
  split; [now apply filter_In in Hv|now apply Hall].
Qed.

Lemma nonEmptyOr_nonempty (s fallback : string) :
  fallback <> "" -> nonEmptyOr s fallback <> "".
Proof.
  intros Hf. unfold nonEmptyOr. simpl.
  destruct (String.eqb_spec s ""); simpl; assumption.
Qed.

Lemma nonEmptyOr_keep (s fallback : string) :
  s <> "" -> nonEmptyOr s fallback = s.
Proof.
  intros Hs. unfold nonEmptyOr. simpl.
  destruct (String.eqb_spec s ""); [contradiction|reflexivity].
Qed.

Lemma nonEmptyOr_empty (s : string) : nonEmptyOr s "" = s.
Proof.
  unfold nonEmptyOr. simpl. now destruct (String.eqb_spec s "") as [->|].
Qed.

Section ImportProperties.

Variable number_to_string : JsNum -> string.
Variable string_to_number : string -> JsNum.
Variable JSON_stringify : Dataset -> string.
Variable randomUUID : nat -> string.
Variable trim : string -> string.

Local Abbreviation to_string := (to_string number_to_string).
Local Abbreviation newId := (newId randomUUID).
Local Abbreviation keepOrNewId := (keepOrNewId randomUUID).
Local Abbreviation stringOrEmpty := (stringOrEmpty number_to_string).
Local Abbreviation sanitizeBlanket :=
  (sanitizeBlanket number_to_string randomUUID trim).
Local Abbreviation sanitizeCombo :=
  (sanitizeCombo number_to_string randomUUID trim).
Local Abbreviation sanitizeCondition := (sanitizeCondition number_to_string).
Local Abbreviation sanitizeRule := (sanitizeRule number_to_string randomUUID).
Local Abbreviation sanitizeImportedData :=
  (sanitizeImportedData number_to_string randomUUID trim).
Local Abbreviation importData :=
  (importData number_to_string string_to_number JSON_stringify randomUUID
     trim).
Local Abbreviation renderAll :=
  (renderAll number_to_string string_to_number trim).
Local Abbreviation idKeptOrDrawn := (idKeptOrDrawn randomUUID).
Local Abbreviation blanketSanitized := (blanketSanitized randomUUID trim).
Local Abbreviation comboSanitized := (comboSanitized randomUUID trim).
Local Abbreviation ruleSanitized := (ruleSanitized randomUUID).

Lemma idKeptOrDrawn_mono (x : JsVal) (id : string) (lo hi lo' hi' : nat) :
  idKeptOrDrawn x id lo hi -> (lo' <= lo)%nat -> (hi <= hi')%nat ->
  idKeptOrDrawn x id lo' hi'.
Proof.
  unfold idKeptOrDrawn. intros H Hlo Hhi.
  destruct (get_prop_opt x "id") as [| | | |[|c s]| |];
    try exact H; destruct H as (k & Hk & ->); exists k; (split; [lia|reflexivity]).
Qed.

Lemma keepOrNewId_run (v : JsVal) (st : AppState) :
  is_object v = true ->
  exists id st', keepOrNewId v st = (st', Ok id) /\ drewIds st st'
    /\ idKeptOrDrawn v id (idsDrawn st) (idsDrawn st').
Proof.
  intros Hobj. unfold keepOrNewId.
  read v "id" st Hobj.
  unfold idKeptOrDrawn.
  assert (Hdraw : exists id st',
            newId st = (st', Ok id) /\ drewIds st st'
            /\ exists k, (idsDrawn st <= k < idsDrawn st')%nat
                         /\ id = randomUUID k).
  { eexists _, _. split; [reflexivity|]. split; [apply drewIds_drawId|].
    exists (idsDrawn st). simpl. split; [lia|reflexivity]. }
  destruct (get_prop_opt v "id") as [| | | |[|c s]| |]; simpl;
    try exact Hdraw.
  exists (String c s), st. repeat split. apply drewIds_refl.
Qed.

(** [String(x || "")] on a value that can be converted. *)
Lemma text_convertible (x : JsVal) :
  convertible x = true ->
  exists s,
    to_string (js_or x (JStr "")) = Ok s
    /\ (x = JUndefined -> s = "")
    /\ (forall t, x = JStr t -> s = t).
Proof.
  intros Hconv. unfold js_or. destruct (truthy x) eqn:Ht.
  - destruct (proj1 (to_string_convertible number_to_string x) Hconv)
      as [s Hs].
    exists s. split; [exact Hs|]. split.
    + intros ->. discriminate Ht.
    + intros t ->. simpl in Hs. congruence.
  - exists "". split; [reflexivity|]. split; [reflexivity|].
    intros t ->. simpl in Ht.
    now destruct (String.eqb_spec t "").
Qed.

Lemma stringOrEmpty_run (v : JsVal) (key : string) (st : AppState) :
  is_object v = true ->
  stringOrEmpty v key st
  = (st, to_string (js_or (get_prop_opt v key) (JStr ""))).
Proof.
  intros Hobj. unfold stringOrEmpty.
  now read v key st Hobj.
Qed.

Lemma stringOrEmpty_returns (v : JsVal) (key : string) (st : AppState) :
  is_object v = true -> convertible (get_prop_opt v key) = true ->
  exists s,
    stringOrEmpty v key st = (st, Ok s)
    /\ (get_prop_opt v key = JUndefined -> s = "")
    /\ (forall t, get_prop_opt v key = JStr t -> s = t).
Proof.
  intros Hobj Hconv. rewrite stringOrEmpty_run by assumption.
  destruct (text_convertible _ Hconv) as (s & -> & Hs). eauto.
Qed.

Lemma stringOrEmpty_string (v : JsVal) (key s : string) (st : AppState) :
  is_object v = true -> get_prop_opt v key = JStr s ->
  stringOrEmpty v key st = (st, Ok s).
Proof.
  intros Hobj Hs.
  destruct (stringOrEmpty_returns v key st Hobj) as (s' & Hrun & _ & H);
    [now rewrite Hs|].
  now rewrite Hrun, (H s Hs).
Qed.

(** ** What the sanitizer makes of one entry *)

(** [trim] leaves the empty string empty. *)
Hypothesis trim_empty : trim "" = "".

Lemma sanitizeBlanket_run (b : JsVal) (st : AppState) :
  is_object b = true /\ convertibleAt ["name"; "notes"] b = true ->
  exists y st', sanitizeBlanket b st = (st', Ok y) /\ drewIds st st'
    /\ blanketSanitized b y (idsDrawn st) (idsDrawn st').
Proof.
  intros [Hobj Hconv]. unfold convertibleAt in Hconv. simpl in Hconv.
  apply andb_true_iff in Hconv as [Hname Hnotes].
  rewrite andb_true_r in Hnotes.
  unfold sanitizeBlanket.
  destruct (keepOrNewId_run b st Hobj) as (id & st' & Hid & Hd & Hkept).
  step Hid.
  destruct (stringOrEmpty_returns b "name" st' Hobj Hname)
    as (name & Hrun1 & Hname0 & Hname1).
  step Hrun1.
  destruct (stringOrEmpty_returns b "notes" st' Hobj Hnotes)
    as (notes & Hrun2 & Hnotes0 & Hnotes1).
  step Hrun2.
  eexists _, st'. split; [reflexivity|]. split; [exact Hd|].
  unfold blanketSanitized. simpl.
  split; [exact Hkept|]. split; [now apply nonEmptyOr_nonempty|].
  split; [intros Hu; now rewrite (Hname0 Hu), trim_empty|].
  split; [intros s Hs Hne; now rewrite (Hname1 s Hs), nonEmptyOr_keep|].
  split; [exact Hnotes0|exact Hnotes1].
Qed.

Lemma sanitizeCombo_run (c : JsVal) (st : AppState) :
  is_object c = true /\ convertibleAt ["name"] c = true ->
  exists y st', sanitizeCombo c st = (st', Ok y) /\ drewIds st st'
    /\ comboSanitized c y (idsDrawn st) (idsDrawn st').
Proof.
  intros [Hobj Hconv]. unfold convertibleAt in Hconv. simpl in Hconv.
  rewrite andb_true_r in Hconv.
  unfold sanitizeCombo.
  destruct (keepOrNewId_run c st Hobj) as (id & st' & Hid & Hd & Hkept).
  step Hid.
  destruct (stringOrEmpty_returns c "name" st' Hobj Hconv)
    as (name & Hrun1 & Hname0 & Hname1).
  step Hrun1.
  read c "blanketIds" st' Hobj.
  eexists _, st'. split; [reflexivity|]. split; [exact Hd|].
  unfold comboSanitized. simpl.
  split; [exact Hkept|]. split; [now apply nonEmptyOr_nonempty|].
  split; [intros Hu; now rewrite (Hname0 Hu), trim_empty|].
  split; [intros s Hs Hne; now rewrite (Hname1 s Hs), nonEmptyOr_keep|].
  split; [now intros ->|]. now intros l ->.
Qed.

Lemma sanitizeCondition_run (c : JsVal) (st : AppState) :
  is_object c = true /\ convertibleAt ["field"; "op"] c = true ->
  exists y, sanitizeCondition c st = (st, Ok y) /\ conditionSanitized c y.
Proof.
  intros [Hobj Hconv]. unfold convertibleAt in Hconv. simpl in Hconv.
  apply andb_true_iff in Hconv as [Hfield Hop].
  rewrite andb_true_r in Hop.
  unfold sanitizeCondition.
  destruct (stringOrEmpty_returns c "field" st Hobj Hfield)
    as (field & Hrun1 & Hfield0 & Hfield1).
  step Hrun1.
  destruct (stringOrEmpty_returns c "op" st Hobj Hop)
    as (op & Hrun2 & Hop0 & Hop1).
  step Hrun2.
  read c "value" st Hobj.
  eexists. split; [reflexivity|]. unfold conditionSanitized. simpl.
  repeat split; assumption.
Qed.

Lemma sanitizeConditions_run (l : list JsVal) (st : AppState) :
  Forall (fun v => is_object v = true
                   /\ convertibleAt ["field"; "op"] v = true) l ->
  exists ys, act_map sanitizeCondition l st = (st, Ok ys)
             /\ Forall2 conditionSanitized l ys.
Proof.
  induction 1 as [|c l Hc _ (ys & Hrun & Hys)]; simpl.
  - exists []. split; [reflexivity|constructor].
  - destruct (sanitizeCondition_run c st Hc) as (y & Hy & Hsan).
    step Hy. step Hrun.
    exists (y :: ys). split; [reflexivity|now constructor].
Qed.

Lemma stringOr_string (v : JsVal) :
  (typeof_string v = false -> stringOr v = "")
  /\ (forall s, v = JStr s -> stringOr v = s).
Proof.
  split; [destruct v; simpl; congruence|now intros s ->].
Qed.

Lemma sanitizeRule_run (r : JsVal) (st : AppState) :
  is_object r = true
  /\ convertibleAt ["name"] r
     && forallb (convertibleAt ["field"; "op"]) (objectsAt r "conditions")
     = true ->
  exists y st', sanitizeRule r st = (st', Ok y) /\ drewIds st st'
    /\ ruleSanitized r y (idsDrawn st) (idsDrawn st').
Proof.
  intros [Hobj Hconv]. apply andb_true_iff in Hconv as [Hname Hconds].
  unfold convertibleAt in Hname. simpl in Hname.
  rewrite andb_true_r in Hname.
  unfold sanitizeRule.
  destruct (keepOrNewId_run r st Hobj) as (id & st' & Hid & Hd & Hkept).
  step Hid.
  destruct (stringOrEmpty_returns r "name" st' Hobj Hname)
    as (name & Hrun1 & Hname0 & Hname1).
  step Hrun1.
  read r "comboId" st' Hobj.
  read r "conditions" st' Hobj.
  assert (Hcs : exists ys,
            (if isArray (get_prop_opt r "conditions")
             then act_map sanitizeCondition
                    (List.filter is_object
                       (items_of (get_prop_opt r "conditions")))
             else act_ret []) st' = (st', Ok ys)
            /\ Forall2 conditionSanitized
                 (List.filter is_object
                    (arrayOrEmpty (get_prop_opt r "conditions"))) ys).
  { unfold objectsAt, arrayOrEmpty in *.
    destruct (isArray (get_prop_opt r "conditions")).
    - apply sanitizeConditions_run, objects_Forall, Hconds.
    - exists []. split; [reflexivity|constructor]. }
  destruct Hcs as (ys & Hrun & Hys).
  step Hrun.
  eexists _, st'. split; [reflexivity|]. split; [exact Hd|].
  unfold ruleSanitized. simpl.
  split; [exact Hkept|]. split; [exact Hname0|]. split; [exact Hname1|].
  split; [apply stringOr_string|]. split; [apply stringOr_string|].
  exact Hys.
Qed.

Lemma sanitizeImportedData_run (raw : JsVal) (st : AppState) :
  is_object raw = true ->
  importable raw = true ->
  exists d st',
    sanitizeImportedData raw st = (st', Ok d) /\ drewIds st st'
    /\ version d = 1
    /\ Forall2 (fun x y => blanketSanitized x y (idsDrawn st) (idsDrawn st'))
         (objectsAt raw "blankets") (blankets d)
    /\ Forall2 (fun x y => comboSanitized x y (idsDrawn st) (idsDrawn st'))
         (objectsAt raw "combos") (combos d)
    /\ Forall2 (fun x y => ruleSanitized x y (idsDrawn st) (idsDrawn st'))
         (objectsAt raw "rules") (rules d)
    /\ defaultComboId d = stringOr (get_prop_opt raw "defaultComboId")
    /\ lastForecast d
       = (if is_object (get_prop_opt raw "lastForecast")
          then get_prop_opt raw "lastForecast" else JNull).
Proof.
  intros Hobj Himp. unfold importable in Himp.
  apply andb_true_iff in Himp as [Himp Hrules].
  apply andb_true_iff in Himp as [Hblankets Hcombos].
  unfold sanitizeImportedData.
  rewrite is_object_guard, Hobj. change (negb true) with false. cbv iota.
  read raw "blankets" st Hobj.
  read raw "combos" st Hobj.
  read raw "rules" st Hobj.
  read raw "defaultComboId" st Hobj.
  read raw "lastForecast" st Hobj.
  cbv zeta.
  destruct (act_map_Forall2 sanitizeBlanket
              (fun v => is_object v = true
                        /\ convertibleAt ["name"; "notes"] v = true)
              (fun x y lo hi => blanketSanitized x y lo hi)) with
    (l := objectsAt raw "blankets") (st := st)
    as (bs & st1 & Hbs & Hd1 & HPb).
  { intros x y lo hi lo' hi' (Hid & Hrest) Hlo Hhi.
    split; [eapply idKeptOrDrawn_mono; eauto|exact Hrest]. }
  { intros x s Hx. apply sanitizeBlanket_run, Hx. }
  { apply objects_Forall, Hblankets. }
  destruct (act_map_Forall2 sanitizeCombo
              (fun v => is_object v = true
                        /\ convertibleAt ["name"] v = true)
              (fun x y lo hi => comboSanitized x y lo hi)) with
    (l := objectsAt raw "combos") (st := st1)
    as (cs & st2 & Hcs & Hd2 & HPc).
  { intros x y lo hi lo' hi' (Hid & Hrest) Hlo Hhi.
    split; [eapply idKeptOrDrawn_mono; eauto|exact Hrest]. }
  { intros x s Hx. apply sanitizeCombo_run, Hx. }
  { apply objects_Forall, Hcombos. }
  destruct (act_map_Forall2 sanitizeRule
              (fun v => is_object v = true
                        /\ convertibleAt ["name"] v
                           && forallb (convertibleAt ["field"; "op"])
                                (objectsAt v "conditions") = true)
              (fun x y lo hi => ruleSanitized x y lo hi)) with
    (l := objectsAt raw "rules") (st := st2)
    as (rs & st3 & Hrs & Hd3 & HPr).
  { intros x y lo hi lo' hi' (Hid & Hrest) Hlo Hhi.
    split; [eapply idKeptOrDrawn_mono; eauto|exact Hrest]. }
  { intros x s Hx. apply sanitizeRule_run, Hx. }
  { apply (objects_Forall
             (fun r => convertibleAt ["name"] r
                       && forallb (convertibleAt ["field"; "op"])
                            (objectsAt r "conditions"))), Hrules. }
  unfold objectsAt in Hbs, Hcs, Hrs.
  step Hbs. step Hcs. step Hrs.
  eexists _, st3. split; [reflexivity|].
  split; [eauto using drewIds_trans|].
  pose proof Hd1 as (_ & _ & _ & H1). pose proof Hd2 as (_ & _ & _ & H2).
  pose proof Hd3 as (_ & _ & _ & H3). simpl.
  split; [reflexivity|].
  split.
  { eapply Forall2_impl; [exact HPb|]. simpl. intros x y (Hid & Hrest).
    split; [eapply idKeptOrDrawn_mono; [exact Hid|lia|lia]|exact Hrest]. }
  split.
  { eapply Forall2_impl; [exact HPc|]. simpl. intros x y (Hid & Hrest).
    split; [eapply idKeptOrDrawn_mono; [exact Hid|lia|lia]|exact Hrest]. }
  split.
  { eapply Forall2_impl; [exact HPr|]. simpl. intros x y (Hid & Hrest).
    split; [eapply idKeptOrDrawn_mono; [exact Hid|lia|lia]|exact Hrest]. }
  split; reflexivity.
Qed.

(** C9. Importing [{blankets: [{id: "b1", name: "Heavy"}], combos: [],
    rules: []}] gives the dataset of one blanket (id "b1", name "Heavy",
    empty notes), no combo, no rule, an empty defaultComboId and no cached
    forecast, and draws no id ([trim] leaving "Heavy" as it is). Every
    object (or array) whose names, notes, fields and ops can be converted
    to strings is sanitized without an error ([trim] leaving the empty
    string empty): entries that are no objects are dropped, the others
    are kept in order; an id that is a non-empty string is kept and any
    other id is replaced by one [newId] draws; a missing name becomes
    "Untitled blanket" / "Untitled combo" (empty for a rule), missing
    notes the empty string, blanketIds and conditions that are no arrays
    the empty list, a comboId or defaultComboId that is no string the
    empty string, and a lastForecast that is no object [null]. *)
Theorem sanitize_import :
  (trim "Heavy" = "Heavy" ->
   forall st,
     sanitizeImportedData
       (JObj [("blankets", JArr [JObj [("id", JStr "b1");
                                      ("name", JStr "Heavy")]]);
              ("combos", JArr []); ("rules", JArr [])]) st
     = (st, Ok {| version := 1;
                  blankets := [{| blanket_id := "b1"; blanket_name := "Heavy";
                                  blanket_notes := "" |}];
                  combos := []; rules := []; defaultComboId := "";
                  lastForecast := JNull |}))
  /\ (forall raw st,
        is_object raw = true ->
        importable raw = true ->
        exists d st',
          sanitizeImportedData raw st = (st', Ok d) /\ drewIds st st'
          /\ version d = 1
          /\ Forall2
               (fun x y => blanketSanitized x y (idsDrawn st) (idsDrawn st'))
               (List.filter is_object
                  (arrayOrEmpty (get_prop_opt raw "blankets")))
               (blankets d)
          /\ Forall2
               (fun x y => comboSanitized x y (idsDrawn st) (idsDrawn st'))
               (List.filter is_object
                  (arrayOrEmpty (get_prop_opt raw "combos")))
               (combos d)
          /\ Forall2
               (fun x y => ruleSanitized x y (idsDrawn st) (idsDrawn st'))
               (List.filter is_object
                  (arrayOrEmpty (get_prop_opt raw "rules")))
               (rules d)
          /\ (typeof_string (get_prop_opt raw "defaultComboId") = false ->
              defaultComboId d = "")
          /\ (forall s, get_prop_opt raw "defaultComboId" = JStr s ->
              defaultComboId d = s)
          /\ (is_object (get_prop_opt raw "lastForecast") = false ->
              lastForecast d = JNull)
          /\ (is_object (get_prop_opt raw "lastForecast") = true ->
              lastForecast d = get_prop_opt raw "lastForecast")).
Proof.
  split.
  { intros Hheavy st. unfold sanitizeImportedData. simpl.
    unfold act_bind, act_lift, act_ret. simpl. rewrite Hheavy. reflexivity. }
  intros raw st Hobj Himp.
  destruct (sanitizeImportedData_run raw st Hobj Himp)
    as (d & st' & Hrun & Hd & Hv & Hb & Hc & Hr & Hdef & Hlast).
  exists d, st'. rewrite Hdef, Hlast.
  repeat (split; [assumption|]).
  split; [apply stringOr_string|]. split; [apply stringOr_string|].
  split; now intros ->.
Qed.

(** C10. When the imported value is no object, [sanitizeImportedData]
    throws before anything is assigned or saved: [importData] ends with
    that error in the state it started from, so [state.data] and
    localStorage are what they were. *)
Theorem import_rejected_is_atomic (raw : JsVal) (st : AppState) :
  is_object raw = false ->
  importData raw st = (st, Throw ErrInvalidJsonObject)
  /\ data (fst (importData raw st)) = data st
  /\ localStorage (fst (importData raw st)) = localStorage st.
Proof.
  intros Hobj.
  assert (Hrun : importData raw st = (st, Throw ErrInvalidJsonObject)).
  { unfold importData, act_bind, sanitizeImportedData.
    now rewrite is_object_guard, Hobj. }
  rewrite Hrun. auto.
Qed.

(** Once the sanitizer has returned, the dataset replaces [state.data]
    and is saved, the rule form is reset, and the import returns or throws
    as the render does. *)
Lemma import_accepted (raw : JsVal) (st st' : AppState) (d : Dataset) :
  sanitizeImportedData raw st = (st', Ok d) ->
  importData raw st
  = renderAll (drawId (saveData JSON_stringify (set_data d st'))).
Proof.
  intros Hrun. unfold importData. now step Hrun.
Qed.

End ImportProperties.

(* ===================================================================== *)
(** * The properties at work on the sample data *)
(* ===================================================================== *)

Module Examples.

Import Sample.





Lemma sample_window_nonempty :
  selectIndices Date_parse
    [num 100; num 200; num 300; num 400] 0 100 400 <> [].
Proof. vm_compute. discriminate. Qed.



Lemma sample_late_window_empty (i : nat) (v : JsVal) :
  [num 100; num 200; num 300; num 400] !! i = Some v ->
  ~ inWindow Date_parse 500 600 v.
Proof.
  intros Hi (ms & Hp & Hw).
  destruct i as [|[|[|[|i]]]]; simpl in Hi; try discriminate;
    injection Hi as <-; vm_compute in Hp; injection Hp as <-; lia.
Qed.


Lemma sample_reduction :
  computeTonightMetricsFromHourly Date_parse hourly 100 400
  = Ok sampleMetrics.
Proof. vm_compute. reflexivity. Qed.

Lemma wetRisk_threshold_witness :
  maxPrecipProb sampleMetrics = JNum (Fin 50)
  /\ wetRisk sampleMetrics = JBool true.
Proof.
  destruct (wetRisk_threshold Date_parse
              hourly 100 400 sampleMetrics sample_reduction)
    as (_ & _ & H50 & _).
  split; [reflexivity|]. apply H50. reflexivity.
Defined.

Lemma sample_zone_round_trip (x : Z) : roundTrips LocalTime UTC x.
Proof. unfold roundTrips, LocalTime, UTC. lia. Qed.

Lemma night_window_nonempty :
  selectIndices Date_parse
    [num (20000 * msPerDay + 23 * msPerHour); num (20001 * msPerDay);
     num (20001 * msPerDay + 5 * msPerHour);
     num (20001 * msPerDay + 14 * msPerHour)] 0
    (w_start (getTonightWindow LocalTime UTC noon))
    (w_end (getTonightWindow LocalTime UTC noon)) <> [].
Proof. vm_compute. discriminate. Qed.


(** What the night's window gives on the sample series: the hours at
    indices 1 and 2, and their readings reduced. *)
Lemma night_reduction :
  selectIndices Date_parse
    [num (20000 * msPerDay + 23 * msPerHour); num (20001 * msPerDay);
     num (20001 * msPerDay + 5 * msPerHour);
     num (20001 * msPerDay + 14 * msPerHour)] 0
    (w_start (getTonightWindow LocalTime UTC noon))
    (w_end (getTonightWindow LocalTime UTC noon)) = [1; 2]%nat
  /\ tonightMetrics LocalTime UTC Date_parse noon nightHourly
     = Ok {| minTempF := num 38; minFeelsF := num 36;
             maxPrecipProb := num 50; maxWindMph := JNull;
             wetRisk := JBool true |}.
Proof. split; vm_compute; reflexivity. Qed.

Lemma sanitize_import_witness :
  sanitizeImportedData number_to_string randomUUID trim
    (JObj [("blankets", JArr [JObj [("id", JStr "b1");
                                   ("name", JStr "Heavy")]]);
           ("combos", JArr []); ("rules", JArr [])]) emptyState
  = (emptyState,
     Ok {| version := 1;
           blankets := [{| blanket_id := "b1"; blanket_name := "Heavy";
                           blanket_notes := "" |}];
           combos := []; rules := []; defaultComboId := "";
           lastForecast := JNull |})
  /\ exists d st',
       sanitizeImportedData number_to_string randomUUID trim
         (JObj [("blankets", JArr [JObj [("name", JStr " Sheet ")]; JNull]);
                ("rules", JStr "none")]) emptyState
       = (st', Ok d)
       /\ version d = 1.
Proof.
  destruct (sanitize_import number_to_string randomUUID trim eq_refl)
    as [Hexample Hgeneral].
  split; [exact (Hexample eq_refl emptyState)|].
  destruct (Hgeneral
              (JObj [("blankets", JArr [JObj [("name", JStr " Sheet ")];
                                        JNull]);
                     ("rules", JStr "none")]) emptyState eq_refl eq_refl)
    as (d & st' & Hrun & _ & Hv & _).
  exists d, st'. split; [exact Hrun|exact Hv].
Defined.

Lemma import_rejected_is_atomic_witness :
  importData number_to_string string_to_number JSON_stringify randomUUID trim
    (JStr "[]") emptyState
  = (emptyState, Throw ErrInvalidJsonObject).
Proof.
  exact (proj1 (import_rejected_is_atomic number_to_string string_to_number
                  JSON_stringify randomUUID trim (JStr "[]") emptyState
                  eq_refl)).
Defined.

Lemma sample_values_convertible : valuesConvertible danglingData.
Proof.
  intros r c Hr Hc. simpl in Hr.
  apply elem_of_cons in Hr as [->|Hr];
    [|apply list_elem_of_singleton in Hr as ->]; simpl in Hc.
  - apply list_elem_of_singleton in Hc as ->. reflexivity.
  - inversion Hc.
Qed.



End Examples.

(* ===================================================================== *)
(** * Further properties of the recommendation *)
(* ===================================================================== *)

Lemma combosById_Some (cs : list Combo) (id : string) (c : Combo) :
  combosById cs !! id = Some c -> c ∈ cs /\ combo_id c = id.
Proof.
  rewrite combosById_lookup. intros Hlast.
  apply last_Some in Hlast as [l' Hl'].
  assert (Hin : c ∈ filter (fun c => combo_id c = id) cs).
  { rewrite Hl'. apply elem_of_app. right. constructor. }
  apply list_elem_of_filter in Hin as [Hid Hin]. auto.
Qed.

Lemma combosById_None (cs : list Combo) (id : string) :
  combosById cs !! id = None -> forall c, c ∈ cs -> combo_id c <> id.
Proof.
  rewrite combosById_lookup. intros Hlast c Hin Hid.
  apply last_None in Hlast.
  assert (Hc : c ∈ filter (fun c => combo_id c = id) cs)
    by (apply list_elem_of_filter; auto).
  rewrite Hlast in Hc. inversion Hc.
Qed.

Lemma forallb_false_elem {A : Type} (f : A -> bool) (l : list A) :
  forallb f l = false -> exists x, x ∈ l /\ f x = false.
Proof.
  induction l as [|x l IH]; simpl; [discriminate|].
  destruct (f x) eqn:Hx; simpl.
  - intros H. destruct (IH H) as (y & Hy & Hfy).
    exists y. split; [now constructor|exact Hfy].
  - intros _. exists x. split; [constructor|exact Hx].
Qed.

Section RecommendationProperties.

Variable number_to_string : JsNum -> string.
Variable string_to_number : string -> JsNum.
Variable JSON_stringify : Dataset -> string.
Variable randomUUID : nat -> string.
Variable trim : string -> string.

Local Abbreviation to_number := (to_number number_to_string string_to_number).
Local Abbreviation condMatches :=
  (condMatches number_to_string string_to_number).
Local Abbreviation ruleMatches :=
  (ruleMatches number_to_string string_to_number).
Local Abbreviation firstMatch :=
  (firstMatch number_to_string string_to_number).
Local Abbreviation pickRecommendation :=
  (pickRecommendation number_to_string string_to_number).
Local Abbreviation renderRecommendation :=
  (renderRecommendation number_to_string string_to_number trim).
Local Abbreviation renderAll :=
  (renderAll number_to_string string_to_number trim).
Local Abbreviation deleteBlanket := (deleteBlanket JSON_stringify).
Local Abbreviation deleteCombo := (deleteCombo JSON_stringify).
Local Abbreviation deleteRule := (deleteRule JSON_stringify).
Local Abbreviation moveRule := (moveRule JSON_stringify).

(** No rule of the list matches. *)
Local Abbreviation noneMatches rs m :=
  (Forall (fun r' => ruleMatches (rule_to_js r') m = Ok false) rs).

(** What the loop over the rules finds. *)
Lemma firstMatch_cases (byId : gmap string Combo) (rs : list Rule)
  (m : Metrics) :
  (exists pre r post,
     rs = pre ++ r :: post /\ noneMatches pre m
     /\ ruleMatches (rule_to_js r) m = Ok true
     /\ firstMatch byId rs m = Ok (Some (PickRule r (byId !! comboId r))))
  \/ (noneMatches rs m /\ firstMatch byId rs m = Ok None)
  \/ (exists pre r post,
        rs = pre ++ r :: post /\ noneMatches pre m
        /\ ruleMatches (rule_to_js r) m = Throw TypeError
        /\ firstMatch byId rs m = Throw TypeError).
Proof.
  destruct (first_match_or_none number_to_string string_to_number rs m)
    as [(pre & r & post & -> & Hpre & Hr)
       |[Hnone|(pre & r & post & -> & Hpre & Hr)]].
  - left. exists pre, r, post. repeat split; try assumption.
    now apply firstMatch_first.
  - right. left. split; [assumption|]. now apply firstMatch_none.
  - right. right. exists pre, r, post. repeat split; try assumption.
    now apply firstMatch_throws.
Qed.

(** A rule whose evaluation throws has a condition whose value cannot be
    converted. *)
Lemma ruleMatches_throws_value (r : Rule) (m : Metrics) (e : JsError) :
  ruleMatches (rule_to_js r) m = Throw e ->
  exists c, c ∈ conditions r /\ convertible (cond_value c) = false.
Proof.
  intros Hthrow.
  destruct (forallb (fun c => convertible (cond_value c)) (conditions r))
    eqn:Hall.
  - rewrite forallb_forall in Hall.
    destruct (ruleMatches_typed_returns number_to_string string_to_number
                r m) as [b Hb]; [|congruence].
    intros c Hc. apply Hall. now apply list_elem_of_In.
  - now apply forallb_false_elem in Hall.
Qed.

Lemma pick_returns (d : Dataset) (m : Metrics) :
  valuesConvertible d -> exists p, pickRecommendation d m = Ok p.
Proof.
  intros Hconv. unfold pickRecommendation.
  destruct (firstMatch_cases (combosById (combos d)) (rules d) m)
    as [(pre & r0 & post & _ & _ & _ & ->)
       |[[_ ->]|(pre & r0 & post & Hrs & _ & Hr & _)]];
    rewrite ?exn_bind_Ok.
  - eauto.
  - simpl. destruct (negb _); [destruct (_ !! _)|]; eauto.
  - destruct (ruleMatches_throws_value r0 m _ Hr) as (c & Hc & Hcv).
    rewrite (Hconv r0 c) in Hcv; [discriminate| |exact Hc].
    rewrite Hrs. apply elem_of_app. right. constructor.
Qed.

Lemma pickRecommendation_cases (d : Dataset) (m : Metrics) :
  (exists p, pickRecommendation d m = Ok p)
  \/ pickRecommendation d m = Throw TypeError.
Proof.
  unfold pickRecommendation.
  destruct (firstMatch_cases (combosById (combos d)) (rules d) m)
    as [(pre & r0 & post & _ & _ & _ & ->)
       |[[_ ->]|(pre & r0 & post & _ & _ & _ & ->)]];
    rewrite ?exn_bind_Ok.
  - eauto.
  - simpl. destruct (negb _); [destruct (_ !! _)|]; eauto.
  - now right.
Qed.

(** X1. Whatever [pickRecommendation] returns comes from the dataset: a
    selected rule is a rule of the list that matches, its combo (when it
    has one) is a combo of the list with the rule's comboId, and it has
    none only when no combo carries that id; the default combo is a combo
    of the list with the non-empty defaultComboId and is returned only
    when no rule matches; and "none" means that no rule matches and no
    default combo can be found. It returns whenever the values of the
    conditions can be converted; when it throws, the error is the
    TypeError of the first rule that does not evaluate to false, a rule
    with a condition whose value cannot be converted. *)
Theorem pickRecommendation_sound (d : Dataset) (m : Metrics) :
  match pickRecommendation d m with
  | Ok (PickRule r found) =>
      r ∈ rules d /\ ruleMatches (rule_to_js r) m = Ok true
      /\ match found with
         | Some c => c ∈ combos d /\ combo_id c = comboId r
         | None => forall c, c ∈ combos d -> combo_id c <> comboId r
         end
  | Ok (PickDefault c) =>
      noneMatches (rules d) m /\ c ∈ combos d
      /\ combo_id c = defaultComboId d /\ defaultComboId d <> ""
  | Ok PickNone =>
      noneMatches (rules d) m
      /\ (defaultComboId d = ""
          \/ forall c, c ∈ combos d -> combo_id c <> defaultComboId d)
  | Throw e =>
      e = TypeError
      /\ ~ valuesConvertible d
      /\ exists pre r post,
           rules d = pre ++ r :: post /\ noneMatches pre m
           /\ ruleMatches (rule_to_js r) m = Throw TypeError
           /\ exists c, c ∈ conditions r /\ convertible (cond_value c) = false
  end.
Proof.
  unfold pickRecommendation.
  destruct (firstMatch_cases (combosById (combos d)) (rules d) m)
    as [(pre & r & post & Hrs & Hpre & Hr & ->)
       |[[Hnone ->]|(pre & r & post & Hrs & Hpre & Hr & ->)]];
    rewrite ?exn_bind_Ok.
  - split; [rewrite Hrs; apply elem_of_app; right; constructor|].
    split; [exact Hr|].
    destruct (combosById (combos d) !! comboId r) as [c|] eqn:Hc.
    + now apply combosById_Some.
    + now apply combosById_None.
  - simpl. destruct (String.eqb_spec (defaultComboId d) "") as [He|Hne];
      simpl.
    + split; [exact Hnone|now left].
    + destruct (combosById (combos d) !! defaultComboId d) as [c|] eqn:Hc.
      * apply combosById_Some in Hc as [Hin Hid]. auto.
      * split; [exact Hnone|]. right. now apply combosById_None.
  - simpl. split; [reflexivity|].
    destruct (ruleMatches_throws_value r m _ Hr) as (c & Hc & Hcv).
    split.
    + intros Hconv. rewrite (Hconv r c) in Hcv; [discriminate| |exact Hc].
      rewrite Hrs. apply elem_of_app. right. constructor.
    + exists pre, r, post. repeat (split; [assumption|]).
      exists c. split; assumption.
Qed.

(** ** Deleting and the recommendation *)

Lemma pick_rule_combo (d : Dataset) (m : Metrics) (r : Rule) (c : Combo) :
  pickRecommendation d m = Ok (PickRule r (Some c)) ->
  c ∈ combos d /\ combo_id c = comboId r.
Proof.
  unfold pickRecommendation.
  destruct (firstMatch_cases (combosById (combos d)) (rules d) m)
    as [(pre & r0 & post & _ & _ & _ & ->)
       |[[_ ->]|(pre & r0 & post & _ & _ & _ & ->)]];
    rewrite ?exn_bind_Ok.
  - intros [= <- Hc]. now apply combosById_Some.
  - simpl. destruct (negb _); [destruct (_ !! _)|]; discriminate.
  - discriminate.
Qed.

Lemma pick_default_combo (d : Dataset) (m : Metrics) (c : Combo) :
  pickRecommendation d m = Ok (PickDefault c) ->
  c ∈ combos d /\ combo_id c = defaultComboId d.
Proof.
  unfold pickRecommendation.
  destruct (firstMatch_cases (combosById (combos d)) (rules d) m)
    as [(pre & r0 & post & _ & _ & _ & ->)
       |[[_ ->]|(pre & r0 & post & _ & _ & _ & ->)]];
    rewrite ?exn_bind_Ok.
  - discriminate.
  - simpl. destruct (negb _); [|discriminate].
    destruct (_ !! _) eqn:Hc; [|discriminate].
    intros [= <-]. now apply combosById_Some.
  - discriminate.
Qed.

Lemma find_absent {A : Type} (f : A -> bool) (l : list A) (x : A) :
  List.find f l = None -> x ∈ l -> f x = false.
Proof.
  intros Hnone Hin. apply list_elem_of_In in Hin.
  exact (find_none f l Hnone x Hin).
Qed.

Lemma filter_keeps_all {A : Type} (P : A -> Prop) `{forall x, Decision (P x)}
  (l : list A) :
  (forall x, x ∈ l -> P x) -> filter P l = l.
Proof.
  induction l as [|x l IH]; intros Hall; [reflexivity|].
  rewrite filter_cons_True by (apply Hall; constructor).
  f_equal. apply IH. intros y Hy. apply Hall. now constructor.
Qed.

(** The combos a confirmed [deleteCombo] leaves, found or not. *)
Lemma deleteCombo_combos (id : string) (st : AppState) :
  combos (data (deleteCombo id true st))
  = filter (fun x => combo_id x <> id) (combos (data st)).
Proof.
  unfold deleteCombo.
  destruct (List.find _ _) eqn:Hfind; simpl.
  - now destruct (String.eqb (defaultComboId (data st)) id).
  - symmetry. apply filter_keeps_all. intros c Hc Hid.
    apply (find_absent _ _ _ Hfind) in Hc.
    apply String.eqb_neq in Hc. contradiction.
Qed.

(** X2. Once a combo has been deleted (the dialog confirmed), no combo of
    the list carries its id, and [pickRecommendation] recommends no combo
    with that id whatever the weather: neither through a rule nor as the
    default. When a combo with that id existed and the id is not empty,
    no rule and no default names it any more. *)
Theorem deleted_combo_is_never_recommended (st : AppState) (id : string)
  (m : Metrics) :
  let d' := data (deleteCombo id true st) in
  (forall c, c ∈ combos d' -> combo_id c <> id)
  /\ (forall r c, pickRecommendation d' m = Ok (PickRule r (Some c)) ->
        combo_id c <> id)
  /\ (forall c, pickRecommendation d' m = Ok (PickDefault c) ->
        combo_id c <> id)
  /\ ((exists c0, c0 ∈ combos (data st) /\ combo_id c0 = id) ->
      id <> "" ->
      (forall r, r ∈ rules d' -> comboId r <> id)
      /\ defaultComboId d' <> id).
Proof.
  intros d'.
  assert (Hgone : forall c, c ∈ combos d' -> combo_id c <> id).
  { intros c Hc. subst d'. rewrite deleteCombo_combos in Hc.
    now apply list_elem_of_filter in Hc as [Hne _]. }
  split; [exact Hgone|]. split; [|split].
  - intros r c Hpick. apply pick_rule_combo in Hpick as [Hin _]. auto.
  - intros c Hpick. apply pick_default_combo in Hpick as [Hin _]. auto.
  - intros (c0 & Hc0 & Hc0id) Hid. subst d'.
    rewrite (deleteCombo_done JSON_stringify id st c0 Hc0 Hc0id). simpl.
    split.
    + intros r Hr.
      assert (Hr' : r ∈ map (clearComboId id) (rules (data st))).
      { destruct (String.eqb (defaultComboId (data st)) id); exact Hr. }
      apply list_elem_of_fmap in Hr' as (r0 & -> & _).
      unfold clearComboId.
      destruct (String.eqb_spec (comboId r0) id); simpl; congruence.
    + destruct (String.eqb_spec (defaultComboId (data st)) id); simpl;
        congruence.
Qed.

(** ** Adding, deleting and moving rules *)

Local Abbreviation submitRule :=
  (submitRule number_to_string string_to_number JSON_stringify randomUUID
     trim).
Local Abbreviation conditionOfRow := (conditionOfRow string_to_number).

Lemma firstMatch_app_found (byId : gmap string Combo) (m : Metrics)
  (rs extra : list Rule) (p : Pick) :
  firstMatch byId rs m = Ok (Some p) ->
  firstMatch byId (rs ++ extra) m = Ok (Some p).
Proof.
  induction rs as [|r rs IH]; simpl; [discriminate|].
  destruct (ruleMatches_cases number_to_string string_to_number
              (rule_to_js r) m) as [[[|] ->]| ->];
    rewrite ?exn_bind_Ok; simpl; auto.
Qed.

Lemma pick_rule_app (d : Dataset) (m : Metrics) (extra : list Rule)
  (r : Rule) (c : option Combo) :
  pickRecommendation d m = Ok (PickRule r c) ->
  pickRecommendation (set_rules (rules d ++ extra) d) m = Ok (PickRule r c).
Proof.
  unfold pickRecommendation. simpl.
  destruct (firstMatch (combosById (combos d)) (rules d) m)
    as [[p|]|e] eqn:Hfirst; rewrite ?exn_bind_Ok.
  - intros [= ->].
    now rewrite (firstMatch_app_found _ _ _ extra _ Hfirst), exn_bind_Ok.
  - simpl. destruct (negb _); [destruct (_ !! _)|]; discriminate.
  - discriminate.
Qed.

(** X3. The rule form with an empty ruleId and a combo selected appends
    one rule, under a newly drawn id, with the selected comboId and the
    conditions built from the rows; blankets, combos, default and the
    rules before it stay and the dataset is saved; the reset of the form
    then draws a second id, for its one empty row, and the handler
    returns or throws as the render of the state it leaves does. A
    recommendation that came from a rule is the same afterwards,
    whatever the new rule says. With no combo selected the handler
    returns without any change. *)
Theorem form_appends_rule (st : AppState) (name comboSel : string)
  (rows : list ConditionRow) (m : Metrics) :
  comboSel <> "" ->
  let st' := fst (submitRule "" name comboSel rows st) in
  rules (data st')
  = rules (data st)
    ++ [{| rule_id := randomUUID (idsDrawn st); rule_name := name;
           comboId := comboSel;
           conditions := omap conditionOfRow rows |}]
  /\ blankets (data st') = blankets (data st)
  /\ combos (data st') = combos (data st)
  /\ defaultComboId (data st') = defaultComboId (data st)
  /\ weatherMetrics st' = weatherMetrics st
  /\ idsDrawn st' = S (S (idsDrawn st))
  /\ localStorage st' !! STORAGE_KEY = Some (JSON_stringify (data st'))
  /\ submitRule "" name comboSel rows st = renderAll st'
  /\ (forall r c, pickRecommendation (data st) m = Ok (PickRule r c) ->
        pickRecommendation (data st') m = Ok (PickRule r c))
  /\ (forall formId, submitRule formId name "" rows st = (st, Ok tt)).
Proof.
  intros Hsel.
  assert (Hrun : submitRule "" name comboSel rows st
                 = renderAll
                     (drawId
                        (saveData JSON_stringify
                           (set_data
                              (set_rules
                                 (rules (data st)
                                  ++ [{| rule_id := randomUUID (idsDrawn st);
                                         rule_name := name;
                                         comboId := comboSel;
                                         conditions :=
                                           omap conditionOfRow rows |}])
                                 (data st))
                              (drawId st))))).
  { unfold submitRule. simpl.
    destruct (String.eqb_spec comboSel ""); [contradiction|]. reflexivity. }
  rewrite Hrun. simpl.
  repeat (split; [reflexivity|]).
  split; [apply lookup_insert_eq|]. split; [reflexivity|]. split.
  - intros r c Hpick. now apply (pick_rule_app (data st)).
  - intros formId. reflexivity.
Qed.

Lemma firstMatch_filter (byId : gmap string Combo) (m : Metrics)
  (P : Rule -> Prop) `{forall x, Decision (P x)} (rs : list Rule) :
  noneMatches (filter (fun x => ~ P x) rs) m ->
  firstMatch byId (filter P rs) m = firstMatch byId rs m.
Proof.
  induction rs as [|r rs IH]; [reflexivity|].
  rewrite !filter_cons. destruct (decide (P r)) as [HP|HP].
  - rewrite decide_False by tauto. intros Hnone. simpl.
    destruct (ruleMatches_cases number_to_string string_to_number
                (rule_to_js r) m) as [[[|] ->]| ->];
      rewrite ?exn_bind_Ok; simpl; auto.
  - rewrite decide_True by exact HP. intros Hnone.
    inversion Hnone as [|? ? Hr Hrest]; subst. simpl.
    rewrite Hr, exn_bind_Ok. simpl. auto.
Qed.

Lemma deleteRule_rules (id : string) (st : AppState) :
  data (deleteRule id true st)
  = set_rules (filter (fun x => rule_id x <> id) (rules (data st))) (data st).
Proof.
  unfold deleteRule. destruct (List.find _ _) eqn:Hfind; [reflexivity|].
  rewrite filter_keeps_all; [now destruct (data st)|].
  intros r Hr Hid. apply (find_absent _ _ _ Hfind) in Hr.
  apply String.eqb_neq in Hr. contradiction.
Qed.



Lemma moveRule_out (st : AppState) (index : nat) (delta : Z) :
  Z.of_nat index + delta < 0
  \/ Z.of_nat (length (rules (data st))) <= Z.of_nat index + delta ->
  moveRule index delta st = Some st.
Proof.
  intros Hout. unfold moveRule.
  destruct (Z.ltb_spec (Z.of_nat index + delta) 0); [reflexivity|].
  destruct (Z.leb_spec (Z.of_nat (length (rules (data st))))
              (Z.of_nat index + delta)); [reflexivity|lia].
Qed.

Lemma moveRule_in (st : AppState) (index : nat) (delta : Z) (a b : Rule) :
  0 <= Z.of_nat index + delta < Z.of_nat (length (rules (data st))) ->
  rules (data st) !! index = Some a ->
  rules (data st) !! Z.to_nat (Z.of_nat index + delta) = Some b ->
  moveRule index delta st
  = Some (saveData JSON_stringify
            (set_data
               (set_rules
                  (<[Z.to_nat (Z.of_nat index + delta) := a]>
                     (<[index := b]> (rules (data st))))
                  (data st))
               st)).
Proof.
  intros Hin Ha Hb. unfold moveRule.
  destruct (Z.ltb_spec (Z.of_nat index + delta) 0); [lia|].
  destruct (Z.leb_spec (Z.of_nat (length (rules (data st))))
              (Z.of_nat index + delta)); [lia|].
  simpl. now rewrite Ha, Hb.
Qed.

Lemma moveRule_returns (st : AppState) (index : nat) (delta : Z) :
  (index < length (rules (data st)))%nat ->
  exists st', moveRule index delta st = Some st'.
Proof.
  intros Hidx.
  destruct (lookup_lt_is_Some_2 _ _ Hidx) as [a Ha].
  destruct (decide (0 <= Z.of_nat index + delta
                    < Z.of_nat (length (rules (data st))))) as [Hin|Hout].
  - assert (Ht : (Z.to_nat (Z.of_nat index + delta)
                  < length (rules (data st)))%nat) by lia.
    destruct (lookup_lt_is_Some_2 _ _ Ht) as [b Hb].
    eexists. exact (moveRule_in st index delta a b Hin Ha Hb).
  - exists st. apply moveRule_out. lia.
Qed.

(** X5. [moveRule] on the index of a rule: when the target index lies
    outside the list (the first rule moved up, the last one moved down)
    nothing changes; otherwise the rules at the index and at the target
    change places, every other rule stays where it is, and the dataset is
    saved. Either way the rules are a permutation of what they were, and
    blankets, combos and default are untouched. *)
Theorem moveRule_swaps (st : AppState) (index : nat) (delta : Z) :
  (index < length (rules (data st)))%nat ->
  let rs := rules (data st) in
  let target := Z.of_nat index + delta in
  exists st',
    moveRule index delta st = Some st'
    /\ rules (data st') ≡ₚ rs
    /\ length (rules (data st')) = length rs
    /\ blankets (data st') = blankets (data st)
    /\ combos (data st') = combos (data st)
    /\ defaultComboId (data st') = defaultComboId (data st)
    /\ (target < 0 \/ Z.of_nat (length rs) <= target -> st' = st)
    /\ (0 <= target < Z.of_nat (length rs) ->
        rules (data st') !! index = rs !! Z.to_nat target
        /\ rules (data st') !! Z.to_nat target = rs !! index
        /\ (forall j, j <> index -> j <> Z.to_nat target ->
              rules (data st') !! j = rs !! j)
        /\ localStorage st' !! STORAGE_KEY
           = Some (JSON_stringify (data st'))).
Proof.
  intros Hidx rs target.
  destruct (lookup_lt_is_Some_2 _ _ Hidx) as [a Ha]. fold rs in Ha.
  destruct (decide (0 <= target < Z.of_nat (length rs))) as [Hin|Hout].
  - assert (Ht : (Z.to_nat target < length rs)%nat) by lia.
    destruct (lookup_lt_is_Some_2 _ _ Ht) as [b Hb].
    eexists. split; [exact (moveRule_in st index delta a b Hin Ha Hb)|].
    simpl. fold rs. fold target.
    split; [now apply Permutation_insert_swap|].
    split; [now rewrite !length_insert|].
    repeat (split; [reflexivity|]).
    split; [intros ?; lia|]. intros _.
    split.
    { destruct (decide (index = Z.to_nat target)) as [He|Hne].
      - rewrite <- He in *. rewrite list_lookup_insert_eq
          by (rewrite length_insert; exact Hidx). congruence.
      - rewrite list_lookup_insert_ne by congruence.
        rewrite list_lookup_insert_eq by exact Hidx. congruence. }
    split.
    { rewrite list_lookup_insert_eq by (rewrite length_insert; exact Ht).
      congruence. }
    split; [|apply lookup_insert_eq].
    intros j Hj Hj'. now rewrite !list_lookup_insert_ne by congruence.
  - exists st. split; [apply moveRule_out; fold rs; fold target; lia|].
    repeat (split; [reflexivity|]).
    intros Hin. contradiction.
Qed.

(** X6. Moving a rule and then moving the rule at the target back by the
    opposite step gives the dataset it started from. *)
Theorem moveRule_back (st : AppState) (index : nat) (delta : Z) :
  (index < length (rules (data st)))%nat ->
  0 <= Z.of_nat index + delta < Z.of_nat (length (rules (data st))) ->
  exists st' st'',
    moveRule index delta st = Some st'
    /\ moveRule (Z.to_nat (Z.of_nat index + delta)) (- delta) st' = Some st''
    /\ data st'' = data st.
Proof.
  intros Hidx Hin.
  set (rs := rules (data st)) in *.
  set (t := Z.to_nat (Z.of_nat index + delta)).
  assert (Ht : (t < length rs)%nat) by (subst t; lia).
  destruct (lookup_lt_is_Some_2 _ _ Hidx) as [a Ha].
  destruct (lookup_lt_is_Some_2 _ _ Ht) as [b Hb].
  eexists. eexists.
  split; [exact (moveRule_in st index delta a b Hin Ha Hb)|].
  fold rs. fold t.
  assert (Hback : Z.to_nat (Z.of_nat t + - delta) = index) by (subst t; lia).
  assert (Hlen : length (<[t := a]> (<[index := b]> rs)) = length rs)
    by now rewrite !length_insert.
  assert (Ht' : <[t := a]> (<[index := b]> rs) !! t = Some a).
  { apply list_lookup_insert_eq. rewrite length_insert. exact Ht. }
  assert (Hi' : <[t := a]> (<[index := b]> rs) !! index = Some b).
  { destruct (decide (t = index)) as [He|Hne].
    - rewrite He in *. rewrite Ht'. congruence.
    - rewrite list_lookup_insert_ne by exact Hne.
      now apply list_lookup_insert_eq. }
  split.
  { apply (moveRule_in _ t (- delta) a b); simpl.
    - rewrite Hlen. subst t. lia.
    - exact Ht'.
    - rewrite Hback. exact Hi'. }
  simpl. rewrite Hback.
  assert (Hrs : <[index := a]> (<[t := b]> (<[t := a]> (<[index := b]> rs)))
                = rs).
  { rewrite list_insert_insert_eq.
    destruct (decide (t = index)) as [He|Hne].
    - rewrite He in *. rewrite !list_insert_insert_eq.
      now apply list_insert_id.
    - rewrite list_insert_insert_ne by congruence.
      rewrite list_insert_insert_eq.
      rewrite (list_insert_id _ _ _ Ha).
      now apply list_insert_id. }
  rewrite Hrs. subst rs. now destruct (data st).
Qed.

(** ** References that lead somewhere *)

Lemma wellLinked_rules_subset (d : Dataset) (rs : list Rule) :
  wellLinked d -> (forall r, r ∈ rs -> r ∈ rules d) ->
  wellLinked (set_rules rs d).
Proof.
  intros (Hc & Hr & Hd) Hsub. repeat split; [exact Hc| |exact Hd].
  intros r Hin. apply Hr, Hsub, Hin.
Qed.

Lemma deleteBlanket_cases (id : string) (confirmed : bool) (st : AppState) :
  deleteBlanket id confirmed st = st
  \/ data (deleteBlanket id confirmed st)
     = set_combos (map (dropBlanketId id) (combos (data st)))
         (set_blankets
            (filter (fun x => blanket_id x <> id) (blankets (data st)))
            (data st)).
Proof.
  unfold deleteBlanket. destruct (List.find _ _); [|now left].
  destruct confirmed; [now right|now left].
Qed.

Lemma deleteCombo_cases (id : string) (confirmed : bool) (st : AppState) :
  deleteCombo id confirmed st = st
  \/ data (deleteCombo id confirmed st)
     = set_rules (map (clearComboId id) (rules (data st)))
         (set_defaultComboId
            (if String.eqb (defaultComboId (data st)) id then ""
             else defaultComboId (data st))
            (set_combos
               (filter (fun x => combo_id x <> id) (combos (data st)))
               (data st))).
Proof.
  unfold deleteCombo. destruct (List.find _ _); [|now left].
  destruct confirmed; [right|now left]. simpl.
  now destruct (String.eqb (defaultComboId (data st)) id).
Qed.

Lemma deleteRule_cases (id : string) (confirmed : bool) (st : AppState) :
  deleteRule id confirmed st = st
  \/ data (deleteRule id confirmed st)
     = set_rules (filter (fun x => rule_id x <> id) (rules (data st)))
         (data st).
Proof.
  unfold deleteRule. destruct (List.find _ _); [|now left].
  destruct confirmed; [now right|now left].
Qed.

Lemma moveRule_cases (index : nat) (delta : Z) (st st' : AppState) :
  moveRule index delta st = Some st' ->
  st' = st
  \/ exists rs, data st' = set_rules rs (data st) /\ rs ≡ₚ rules (data st).
Proof.
  unfold moveRule. destruct (_ || _); [intros [= <-]; now left|].
  destruct (rules (data st) !! index) as [a|] eqn:Ha; [|discriminate].
  destruct (rules (data st) !! Z.to_nat _) as [b|] eqn:Hb; [|discriminate].
  intros [= <-]. right. eexists. split; [reflexivity|].
  now apply Permutation_insert_swap.
Qed.

(** X7. Deleting and moving keep the references of the dataset intact:
    when every blanket id of a combo names a blanket and every comboId of
    a rule and the defaultComboId is empty or names a combo, the same
    holds after [deleteBlanket], [deleteCombo], [deleteRule] and
    [moveRule], confirmed or not. *)
Theorem deletes_keep_links (st : AppState) :
  wellLinked (data st) ->
  (forall id confirmed, wellLinked (data (deleteBlanket id confirmed st)))
  /\ (forall id confirmed, wellLinked (data (deleteCombo id confirmed st)))
  /\ (forall id confirmed, wellLinked (data (deleteRule id confirmed st)))
  /\ (forall index delta st',
        moveRule index delta st = Some st' -> wellLinked (data st')).
Proof.
  intros Hwl. pose proof Hwl as (Hc & Hr & Hd).
  split; [|split; [|split]].
  - intros id confirmed.
    destruct (deleteBlanket_cases id confirmed st) as [->| ->];
      [exact Hwl|].
    repeat split.
    + intros c' bid Hc' Hbid. simpl in Hc', Hbid.
      apply list_elem_of_fmap in Hc' as (c & -> & Hcin). simpl in Hbid.
      apply list_elem_of_filter in Hbid as [Hne Hbid].
      destruct (Hc c bid Hcin Hbid) as (b & Hb & Hbid').
      exists b. split; [|exact Hbid']. simpl.
      apply list_elem_of_filter. split; [congruence|exact Hb].
    + intros r Hrin. simpl in Hrin.
      destruct (Hr r Hrin) as [He|(c & Hcin & Hcid)]; [now left|right].
      exists (dropBlanketId id c). split; [|exact Hcid]. simpl.
      apply list_elem_of_fmap. eauto.
    + destruct Hd as [He|(c & Hcin & Hcid)]; [now left|right].
      exists (dropBlanketId id c). split; [|exact Hcid]. simpl.
      apply list_elem_of_fmap. eauto.
  - intros id confirmed.
    destruct (deleteCombo_cases id confirmed st) as [->| ->];
      [exact Hwl|].
    repeat split.
    + intros c bid Hcin Hbid. simpl in Hcin.
      apply list_elem_of_filter in Hcin as [_ Hcin].
      exact (Hc c bid Hcin Hbid).
    + intros r' Hrin. simpl in Hrin.
      apply list_elem_of_fmap in Hrin as (r & -> & Hrin).
      unfold clearComboId.
      destruct (String.eqb_spec (comboId r) id) as [He|Hne];
        [now left|].
      destruct (Hr r Hrin) as [He|(c & Hcin & Hcid)]; [now left|right].
      exists c. split; [|exact Hcid]. simpl.
      apply list_elem_of_filter. split; [congruence|exact Hcin].
    + unfold defaultLinked. simpl.
      destruct (String.eqb_spec (defaultComboId (data st)) id) as [He|Hne];
        [now left|].
      destruct Hd as [He|(c & Hcin & Hcid)]; [now left|right].
      exists c. split; [|exact Hcid].
      apply list_elem_of_filter. split; [congruence|exact Hcin].
  - intros id confirmed.
    destruct (deleteRule_cases id confirmed st) as [->| ->]; [exact Hwl|].
    apply wellLinked_rules_subset; [exact Hwl|].
    intros r Hrin. now apply list_elem_of_filter in Hrin as [_ Hrin].
  - intros index delta st' Hmove.
    destruct (moveRule_cases index delta st st' Hmove)
      as [->|(rs & -> & Hperm)]; [exact Hwl|].
    apply wellLinked_rules_subset; [exact Hwl|].
    intros r Hrin. now rewrite <- Hperm.
Qed.

(** ** What the panel shows *)

Lemma blanketNameById_linked (d : Dataset) (bid : string) :
  (exists b, b ∈ blankets d /\ blanket_id b = bid) ->
  exists b, b ∈ blankets d /\ blanket_id b = bid
            /\ blanketNameById d bid = blanket_name b.
Proof.
  intros (b0 & Hb0 & Hid). unfold blanketNameById.
  destruct (find_present (fun x => String.eqb (blanket_id x) bid) _ b0 Hb0)
    as [b Hb]; [now apply String.eqb_eq|].
  rewrite Hb. apply find_some in Hb as [Hin Heq].
  exists b. repeat split; [now apply list_elem_of_In|now apply String.eqb_eq].
Qed.

(** What [renderRecommendation] does once it has metrics, combos, and a
    rule or a default to go by. *)
Lemma renderRecommendation_cases (d : Dataset) (metrics : option Metrics) :
  (exists view, renderRecommendation d metrics = Ok view
     /\ forall header title names, view <> ViewCombo header title names)
  \/ exists m, metrics = Some m
       /\ renderRecommendation d metrics
          = pickRecommendation d m ≫= fun pick : Pick =>
            match pick with
            | PickNone => Ok ViewNoMatch
            | PickRule _ None => Ok ViewMissingCombo
            | PickRule rule (Some combo) =>
                Ok (ViewCombo
                      ("Matched: "
                       ++ nonEmptyOr (trim (rule_name rule)) "Rule")
                      (combo_name combo)
                      (map (blanketNameById d) (blanketIds combo)))
            | PickDefault combo =>
                Ok (ViewCombo "No rule matched. Using default combo:"
                      (combo_name combo)
                      (map (blanketNameById d) (blanketIds combo)))
            end.
Proof.
  unfold renderRecommendation. destruct metrics as [m|].
  - destruct (Nat.eqb _ 0); [left; eexists; split; [reflexivity|discriminate]|].
    destruct (_ && _); [left; eexists; split; [reflexivity|discriminate]|].
    right. exists m. split; reflexivity.
  - left. eexists. split; [reflexivity|discriminate].
Qed.

(** X8. [renderRecommendation] returns whenever the values of the
    conditions can be converted, and throws only the TypeError that
    [pickRecommendation] throws on the metrics it has. When it shows a
    combo, the combo is one of the dataset: the title is its name and the
    list holds, for each of its blanket ids in order, the name of the
    first blanket with that id, or "(missing blanket)" when there is
    none. When every blanket id of the combo names a blanket, every name
    shown is the name of a blanket with that id. *)
Theorem render_shows_existing (d : Dataset) (metrics : option Metrics) :
  (valuesConvertible d ->
   exists view, renderRecommendation d metrics = Ok view)
  /\ ((exists view, renderRecommendation d metrics = Ok view)
      \/ (renderRecommendation d metrics = Throw TypeError
          /\ exists m, metrics = Some m
               /\ pickRecommendation d m = Throw TypeError))
  /\ (forall header title names,
        renderRecommendation d metrics = Ok (ViewCombo header title names) ->
        exists c,
          c ∈ combos d /\ title = combo_name c
          /\ names = map (blanketNameById d) (blanketIds c)
          /\ (combosLinked d ->
              Forall2 (fun bid name =>
                         exists b, b ∈ blankets d /\ blanket_id b = bid
                                   /\ blanket_name b = name)
                (blanketIds c) names)).
Proof.
  assert (Hnames : forall c, c ∈ combos d -> combosLinked d ->
            Forall2 (fun bid name =>
                       exists b, b ∈ blankets d /\ blanket_id b = bid
                                 /\ blanket_name b = name)
              (blanketIds c) (map (blanketNameById d) (blanketIds c))).
  { intros c Hc Hlinked.
    assert (Hall : forall bid, bid ∈ blanketIds c ->
              exists b, b ∈ blankets d /\ blanket_id b = bid)
      by (intros bid; apply Hlinked, Hc).
    induction (blanketIds c) as [|bid ids IH]; simpl; constructor.
    - destruct (blanketNameById_linked d bid) as (b & Hb & Hid & ->);
        [apply Hall; constructor|]. eauto.
    - apply IH. intros bid' Hbid'. apply Hall. now constructor. }
  destruct (renderRecommendation_cases d metrics)
    as [(view & Hview & Hno)|(m & -> & Hrun)].
  { rewrite Hview. split; [eauto|]. split; [eauto|].
    intros header title names [= ->]. now destruct (Hno header title names). }
  rewrite Hrun.
  destruct (pickRecommendation d m) as [p|e] eqn:Hp.
  - rewrite exn_bind_Ok.
    destruct p as [r [c|]|c|].
    + apply pick_rule_combo in Hp as [Hc _]. split; [eauto|]. split; [eauto|].
      intros header title names [= <- <- <-]. exists c. auto.
    + split; [eauto|]. split; [eauto|discriminate].
    + apply pick_default_combo in Hp as [Hc _].
      split; [eauto|]. split; [eauto|].
      intros header title names [= <- <- <-]. exists c. auto.
    + split; [eauto|]. split; [eauto|discriminate].
  - pose proof (pickRecommendation_cases d m) as Hcases.
    rewrite Hp in Hcases. destruct Hcases as [[p Hp']|[= ->]];
      [discriminate|].
    simpl. split.
    + intros Hconv. destruct (pick_returns d m Hconv) as [p Hp'].
      congruence.
    + split; [right; split; [reflexivity|]; exists m; auto|discriminate].
Qed.

Lemma ruleMatches_clearComboId (id : string) (r : Rule) (m : Metrics) :
  ruleMatches (rule_to_js (clearComboId id r)) m
  = ruleMatches (rule_to_js r) m.
Proof.
  rewrite !ruleMatches_typed. unfold clearComboId.
  now destruct (String.eqb (comboId r) id).
Qed.


(** ** Conditions as the form builds them *)

Lemma Num_le_iff (a b : Q) : Num.le (Fin a) (Fin b) = true <-> (a <= b)%Q.
Proof.
  unfold Num.le, Num.cmp. rewrite Qle_alt.
  destruct (Qcompare a b); split; intros H; congruence.
Qed.

Lemma Num_lt_iff (a b : Q) : Num.lt (Fin a) (Fin b) = true <-> (a < b)%Q.
Proof.
  unfold Num.lt, Num.cmp. rewrite Qlt_alt.
  destruct (Qcompare a b); split; intros H; congruence.
Qed.

Lemma Num_ge_iff (a b : Q) : Num.ge (Fin a) (Fin b) = true <-> (b <= a)%Q.
Proof.
  unfold Num.ge, Num.cmp. rewrite Qge_alt.
  destruct (Qcompare a b); split; intros H; congruence.
Qed.

Lemma Num_gt_iff (a b : Q) : Num.gt (Fin a) (Fin b) = true <-> (b < a)%Q.
Proof.
  unfold Num.gt, Num.cmp. rewrite Qgt_alt.
  destruct (Qcompare a b); split; intros H; congruence.
Qed.

(** X10. On a numeric field whose reading is a finite number, a condition
    with a finite number as its value holds exactly when the reading
    stands to the value as the operator says, in the order of the
    rationals: "<=" and "<" ask for a reading at most / below the value,
    ">=" and ">" for one at least / above it. *)
Theorem numeric_condition_compares (m : Metrics) (field : string) (q v : Q) :
  field <> "wetRisk" ->
  metrics_get m field = JNum (Fin q) ->
  let cond op :=
    condition_to_js {| cond_field := field; cond_op := op;
                       cond_value := JNum (Fin v) |} in
  (condMatches (cond "<=") m = Ok true <-> (q <= v)%Q)
  /\ (condMatches (cond "<") m = Ok true <-> (q < v)%Q)
  /\ (condMatches (cond ">=") m = Ok true <-> (v <= q)%Q)
  /\ (condMatches (cond ">") m = Ok true <-> (v < q)%Q).
Proof.
  intros Hfield Hreading cond. subst cond.
  assert (Hrun : forall op,
            condMatches
              (condition_to_js {| cond_field := field; cond_op := op;
                                  cond_value := JNum (Fin v) |}) m
            = Ok (if String.eqb op "<=" then Num.le (Fin q) (Fin v)
                  else if String.eqb op "<" then Num.lt (Fin q) (Fin v)
                  else if String.eqb op ">=" then Num.ge (Fin q) (Fin v)
                  else if String.eqb op ">" then Num.gt (Fin q) (Fin v)
                  else false)).
  { intros op.
    rewrite (condMatches_typed number_to_string string_to_number). simpl.
    destruct (String.eqb_spec field "wetRisk"); [contradiction|].
    rewrite Hreading. simpl. unfold compares, str_is.
    destruct (String.eqb op "<="); [reflexivity|].
    destruct (String.eqb op "<"); [reflexivity|].
    destruct (String.eqb op ">="); [reflexivity|].
    now destruct (String.eqb op ">"). }
  cbv beta. rewrite !Hrun. simpl.
  rewrite <- Num_le_iff, <- Num_lt_iff, <- Num_ge_iff, <- Num_gt_iff.
  repeat split; congruence.
Qed.

(** X11. Whatever the rows of the rule form hold, each condition the
    submit handler builds is either a wetRisk condition with op "is" and
    a boolean value, or a condition on another field whose value is a
    finite number; a row gives at most one condition, and a row without
    a field control, or a numeric row whose text is no finite number,
    gives none. *)
Theorem form_conditions_are_well_formed (rows : list ConditionRow) :
  Forall (fun c =>
            (cond_field c = "wetRisk" /\ cond_op c = "is"
             /\ exists b, cond_value c = JBool b)
            \/ (cond_field c <> "wetRisk"
                /\ exists q, cond_value c = JNum (Fin q)))
    (omap conditionOfRow rows)
  /\ (length (omap conditionOfRow rows) <= length rows)%nat
  /\ (forall row, row_field row = None -> conditionOfRow row = None)
  /\ (forall row field text,
        row_field row = Some field -> field <> "wetRisk" ->
        row_value row = Some text ->
        Num.isFinite (string_to_number text) = false ->
        conditionOfRow row = None).
Proof.
  split; [|split; [|split]].
  - apply Forall_forall. intros c Hc.
    apply list_elem_of_omap in Hc as (row & _ & Hrow).
    revert Hrow. unfold conditionOfRow.
    destruct (row_field row) as [field|]; [|discriminate].
    destruct (String.eqb_spec field "wetRisk") as [Heq|Hne].
    + destruct (row_bool row); [|discriminate]. intros [= <-].
      left. simpl. eauto.
    + destruct (row_op row); [|discriminate].
      destruct (row_value row) as [text|]; [|discriminate].
      simpl.
      destruct (string_to_number text) as [| | |q]; try discriminate.
      intros [= <-]. right. simpl. eauto.
  - induction rows as [|row rows IH]; [simpl; lia|].
    change (omap conditionOfRow (row :: rows))
      with (match conditionOfRow row with
            | Some y => y :: omap conditionOfRow rows
            | None => omap conditionOfRow rows
            end).
    destruct (conditionOfRow row); simpl; lia.
  - intros row Hnone. unfold conditionOfRow. now rewrite Hnone.
  - intros row field text Hf Hne Hv Hfin. unfold conditionOfRow.
    rewrite Hf, Hv.
    destruct (String.eqb_spec field "wetRisk"); [contradiction|].
    destruct (row_op row); [|reflexivity]. simpl. now rewrite Hfin.
Qed.

End RecommendationProperties.

(* ===================================================================== *)
(** * The shape of the dataset *)
(* ===================================================================== *)

Lemma act_map_fixpoint {A B : Type} (f : A -> Act B) (g : B -> A)
  (l : list B) (st : AppState) :
  (forall x, x ∈ l -> f (g x) st = (st, Ok x)) ->
  act_map f (map g l) st = (st, Ok l).
Proof.
  induction l as [|x l IH]; intros Hall; simpl; [reflexivity|].
  step (Hall x ltac:(constructor)).
  rewrite (act_bind_run _ _ _ _ _ (IH (fun y Hy => Hall y ltac:(now constructor)))).
  reflexivity.
Qed.

Lemma filter_objects_all {A : Type} (g : A -> JsVal) (l : list A) :
  (forall x, is_object (g x) = true) ->
  List.filter is_object (map g l) = map g l.
Proof.
  intros Hobj. induction l as [|x l IH]; simpl; [reflexivity|].
  now rewrite Hobj, IH.
Qed.

Lemma is_object_blanket (b : Blanket) : is_object (blanket_to_js b) = true.
Proof. reflexivity. Qed.

Lemma is_object_combo (c : Combo) : is_object (combo_to_js c) = true.
Proof. reflexivity. Qed.

Lemma is_object_rule (r : Rule) : is_object (rule_to_js r) = true.
Proof. reflexivity. Qed.

Lemma is_object_dataset (d : Dataset) : is_object (dataset_to_js d) = true.
Proof. reflexivity. Qed.

Lemma stringsOf_strings (ids : list string) : stringsOf (map JStr ids) = ids.
Proof.
  unfold stringsOf. induction ids as [|i ids IH]; [reflexivity|].
  simpl. now f_equal.
Qed.

Lemma updateFirst_elem {A : Type} (p : A -> bool) (f : A -> A)
  (l : list A) (y : A) :
  y ∈ updateFirst p f l -> y ∈ l \/ exists x, x ∈ l /\ y = f x.
Proof.
  induction l as [|x l IH]; simpl; [now left|].
  destruct (p x).
  - intros Hy. apply elem_of_cons in Hy as [->|Hy].
    + right. exists x. split; [constructor|reflexivity].
    + left. now constructor.
  - intros Hy. apply elem_of_cons in Hy as [->|Hy]; [left; constructor|].
    destruct (IH Hy) as [Hin|(x0 & Hin & ->)].
    + left. now constructor.
    + right. exists x0. split; [now constructor|reflexivity].
Qed.

Lemma updateFirst_map {A B : Type} (p : A -> bool) (f : A -> A) (g : A -> B)
  (l : list A) :
  (forall x, g (f x) = g x) -> map g (updateFirst p f l) = map g l.
Proof.
  intros Hg. induction l as [|x l IH]; simpl; [reflexivity|].
  destruct (p x); simpl; [now rewrite Hg|now rewrite IH].
Qed.

Lemma updateFirst_none {A : Type} (p : A -> bool) (f : A -> A) (l : list A) :
  (forall x, x ∈ l -> p x = false) -> updateFirst p f l = l.
Proof.
  induction l as [|x l IH]; intros Hall; simpl; [reflexivity|].
  rewrite (Hall x) by constructor. f_equal. apply IH.
  intros y Hy. apply Hall. now constructor.
Qed.

Lemma updateFirst_split {A : Type} (p : A -> bool) (f : A -> A)
  (pre : list A) (x : A) (post : list A) :
  (forall y, y ∈ pre -> p y = false) -> p x = true ->
  updateFirst p f (pre ++ x :: post) = pre ++ f x :: post.
Proof.
  intros Hpre Hx. induction pre as [|y pre IH]; simpl.
  - now rewrite Hx.
  - rewrite (Hpre y) by constructor. f_equal. apply IH.
    intros z Hz. apply Hpre. now constructor.
Qed.

Lemma same_ids_member {A : Type} (g : A -> string) (l l' : list A)
  (x : A) :
  map g l' = map g l -> x ∈ l -> exists x', x' ∈ l' /\ g x' = g x.
Proof.
  intros Hmap Hx.
  assert (Hg : g x ∈ map g l') by (rewrite Hmap; apply list_elem_of_fmap; eauto).
  apply list_elem_of_fmap in Hg as (x' & Heq & Hin). eauto.
Qed.

Lemma nonEmptyOr_trimmed (trim : string -> string) (s fallback : string) :
  (forall t, trim (trim t) = trim t) ->
  fallback <> "" -> trim fallback = fallback ->
  nonEmptyOr (trim s) fallback <> ""
  /\ trim (nonEmptyOr (trim s) fallback) = nonEmptyOr (trim s) fallback.
Proof.
  intros Hidem Hne Htrim. unfold nonEmptyOr. simpl.
  destruct (String.eqb_spec (trim s) ""); simpl; [auto|].
  split; [assumption|apply Hidem].
Qed.

Section ShapeProperties.

Variable number_to_string : JsNum -> string.
Variable string_to_number : string -> JsNum.
Variable JSON_stringify : Dataset -> string.
Variable randomUUID : nat -> string.
Variable trim : string -> string.

Local Abbreviation to_string := (to_string number_to_string).
Local Abbreviation keepOrNewId := (keepOrNewId randomUUID).
Local Abbreviation stringOrEmpty := (stringOrEmpty number_to_string).
Local Abbreviation sanitizeBlanket :=
  (sanitizeBlanket number_to_string randomUUID trim).
Local Abbreviation sanitizeCombo :=
  (sanitizeCombo number_to_string randomUUID trim).
Local Abbreviation sanitizeCondition := (sanitizeCondition number_to_string).
Local Abbreviation sanitizeRule := (sanitizeRule number_to_string randomUUID).
Local Abbreviation sanitizeImportedData :=
  (sanitizeImportedData number_to_string randomUUID trim).
Local Abbreviation importData :=
  (importData number_to_string string_to_number JSON_stringify randomUUID
     trim).
Local Abbreviation renderRecommendation :=
  (renderRecommendation number_to_string string_to_number trim).
Local Abbreviation renderAll :=
  (renderAll number_to_string string_to_number trim).
Local Abbreviation stringOrEmpty_string :=
  (stringOrEmpty_string number_to_string).

(** ** Importing what was exported *)

Lemma keepOrNewId_kept (v : JsVal) (id : string) (st : AppState) :
  is_object v = true -> get_prop_opt v "id" = JStr id -> id <> "" ->
  keepOrNewId v st = (st, Ok id).
Proof.
  intros Hobj Hid Hne. unfold keepOrNewId. read v "id" st Hobj.
  rewrite Hid. simpl.
  destruct (String.eqb_spec id ""); [contradiction|reflexivity].
Qed.

Lemma sanitizeBlanket_fixpoint (b : Blanket) (st : AppState) :
  blanket_id b <> "" -> blanket_name b <> "" ->
  trim (blanket_name b) = blanket_name b ->
  sanitizeBlanket (blanket_to_js b) st = (st, Ok b).
Proof.
  intros Hid Hname Htrim. unfold sanitizeBlanket.
  step (keepOrNewId_kept (blanket_to_js b) (blanket_id b) st
          eq_refl eq_refl Hid).
  step (stringOrEmpty_string (blanket_to_js b) "name" (blanket_name b) st
          eq_refl eq_refl).
  step (stringOrEmpty_string (blanket_to_js b) "notes" (blanket_notes b) st
          eq_refl eq_refl).
  unfold act_ret. rewrite Htrim, nonEmptyOr_keep by exact Hname.
  now destruct b.
Qed.

Lemma sanitizeCombo_fixpoint (c : Combo) (st : AppState) :
  combo_id c <> "" -> combo_name c <> "" ->
  trim (combo_name c) = combo_name c ->
  sanitizeCombo (combo_to_js c) st = (st, Ok c).
Proof.
  intros Hid Hname Htrim. unfold sanitizeCombo.
  step (keepOrNewId_kept (combo_to_js c) (combo_id c) st eq_refl eq_refl Hid).
  step (stringOrEmpty_string (combo_to_js c) "name" (combo_name c) st
          eq_refl eq_refl).
  read (combo_to_js c) "blanketIds" st (is_object_combo c).
  unfold act_ret. simpl.
  rewrite Htrim, nonEmptyOr_keep by exact Hname.
  rewrite stringsOf_strings. now destruct c.
Qed.

Lemma sanitizeCondition_fixpoint (c : Condition) (st : AppState) :
  sanitizeCondition (condition_to_js c) st = (st, Ok c).
Proof.
  unfold sanitizeCondition.
  step (stringOrEmpty_string (condition_to_js c) "field" (cond_field c) st
          eq_refl eq_refl).
  step (stringOrEmpty_string (condition_to_js c) "op" (cond_op c) st
          eq_refl eq_refl).
  read (condition_to_js c) "value" st (is_object_condition c).
  unfold act_ret. simpl. now destruct c.
Qed.

Lemma sanitizeRule_fixpoint (r : Rule) (st : AppState) :
  rule_id r <> "" -> sanitizeRule (rule_to_js r) st = (st, Ok r).
Proof.
  intros Hid. unfold sanitizeRule.
  step (keepOrNewId_kept (rule_to_js r) (rule_id r) st eq_refl eq_refl Hid).
  step (stringOrEmpty_string (rule_to_js r) "name" (rule_name r) st
          eq_refl eq_refl).
  read (rule_to_js r) "comboId" st (is_object_rule r).
  read (rule_to_js r) "conditions" st (is_object_rule r).
  simpl.
  rewrite (filter_objects_all condition_to_js) by reflexivity.
  rewrite (act_bind_run _ _ _ _ _
             (act_map_fixpoint sanitizeCondition condition_to_js
                (conditions r) st
                (fun c _ => sanitizeCondition_fixpoint c st))).
  unfold act_ret. now destruct r.
Qed.


(** ** What an import leaves *)

Local Abbreviation idKeptOrDrawn := (idKeptOrDrawn randomUUID).

(** [newId] never draws the empty string; trimming twice is trimming
    once, and the two default names are trimmed. *)
Hypothesis randomUUID_nonempty : forall k, randomUUID k <> "".
Hypothesis trim_idem : forall s, trim (trim s) = trim s.
Hypothesis trim_untitled_blanket : trim "Untitled blanket" = "Untitled blanket".
Hypothesis trim_untitled_combo : trim "Untitled combo" = "Untitled combo".

Lemma kept_or_drawn_nonempty (entry : JsVal) (id : string) (lo hi : nat) :
  idKeptOrDrawn entry id lo hi -> id <> "".
Proof.
  unfold idKeptOrDrawn.
  destruct (get_prop_opt entry "id") as [| | | |[|c s]| |];
    try (intros (k & _ & ->); apply randomUUID_nonempty).
  now intros ->.
Qed.

Lemma sanitizeBlanket_shape (b : JsVal) (st : AppState) :
  is_object b = true /\ convertibleAt ["name"; "notes"] b = true ->
  exists y st', sanitizeBlanket b st = (st', Ok y) /\ drewIds st st'
    /\ blanket_id y <> "" /\ blanket_name y <> ""
    /\ trim (blanket_name y) = blanket_name y.
Proof.
  intros [Hobj Hconv]. unfold convertibleAt in Hconv. simpl in Hconv.
  apply andb_true_iff in Hconv as [Hname Hnotes].
  rewrite andb_true_r in Hnotes.
  unfold sanitizeBlanket.
  destruct (keepOrNewId_run randomUUID b st Hobj)
    as (id & st' & Hid & Hd & Hkept).
  step Hid.
  destruct (stringOrEmpty_returns number_to_string b "name" st' Hobj Hname)
    as (name & Hrun1 & _).
  step Hrun1.
  destruct (stringOrEmpty_returns number_to_string b "notes" st' Hobj Hnotes)
    as (notes & Hrun2 & _).
  step Hrun2.
  eexists _, st'. split; [reflexivity|]. split; [exact Hd|]. simpl.
  split; [exact (kept_or_drawn_nonempty _ _ _ _ Hkept)|].
  now apply nonEmptyOr_trimmed.
Qed.

Lemma sanitizeCombo_shape (c : JsVal) (st : AppState) :
  is_object c = true /\ convertibleAt ["name"] c = true ->
  exists y st', sanitizeCombo c st = (st', Ok y) /\ drewIds st st'
    /\ combo_id y <> "" /\ combo_name y <> ""
    /\ trim (combo_name y) = combo_name y.
Proof.
  intros [Hobj Hconv]. unfold convertibleAt in Hconv. simpl in Hconv.
  rewrite andb_true_r in Hconv.
  unfold sanitizeCombo.
  destruct (keepOrNewId_run randomUUID c st Hobj)
    as (id & st' & Hid & Hd & Hkept).
  step Hid.
  destruct (stringOrEmpty_returns number_to_string c "name" st' Hobj Hconv)
    as (name & Hrun1 & _).
  step Hrun1.
  read c "blanketIds" st' Hobj.
  eexists _, st'. split; [reflexivity|]. split; [exact Hd|]. simpl.
  split; [exact (kept_or_drawn_nonempty _ _ _ _ Hkept)|].
  now apply nonEmptyOr_trimmed.
Qed.

Lemma sanitizeRule_shape (r : JsVal) (st : AppState) :
  is_object r = true
  /\ convertibleAt ["name"] r
     && forallb (convertibleAt ["field"; "op"]) (objectsAt r "conditions")
     = true ->
  exists y st', sanitizeRule r st = (st', Ok y) /\ drewIds st st'
    /\ rule_id y <> "".
Proof.
  intros Hr.
  destruct (sanitizeRule_run number_to_string randomUUID r st Hr)
    as (y & st' & Hrun & Hd & Hkept & _).
  exists y, st'. split; [exact Hrun|]. split; [exact Hd|].
  exact (kept_or_drawn_nonempty _ _ _ _ Hkept).
Qed.

Lemma act_map_Forall {A B : Type} (f : A -> Act B) (Q : A -> Prop)
  (P : B -> Prop) :
  (forall x st, Q x ->
     exists y st', f x st = (st', Ok y) /\ drewIds st st' /\ P y) ->
  forall l st, Forall Q l ->
    exists ys st', act_map f l st = (st', Ok ys) /\ drewIds st st'
                   /\ Forall P ys.
Proof.
  intros Hf l st HQ.
  destruct (act_map_Forall2 f Q (fun _ y _ _ => P y)
              (fun x y lo hi lo' hi' H _ _ => H) Hf l st HQ)
    as (ys & st' & Hrun & Hd & HP).
  exists ys, st'. split; [exact Hrun|]. split; [exact Hd|].
  clear Hrun HQ Hd.
  induction HP as [|x y l' ys' H _ IH]; constructor; [exact H|exact IH].
Qed.

Lemma sanitizeImportedData_shape (raw : JsVal) (st : AppState) :
  is_object raw = true -> importable raw = true ->
  exists d st1,
    sanitizeImportedData raw st = (st1, Ok d) /\ drewIds st st1
    /\ sanitized trim d.
Proof.
  intros Hobj Himp. unfold importable in Himp.
  apply andb_true_iff in Himp as [Himp Hrules].
  apply andb_true_iff in Himp as [Hblankets Hcombos].
  unfold objectsAt in Hblankets, Hcombos, Hrules.
  unfold sanitizeImportedData.
  rewrite is_object_guard, Hobj. change (negb true) with false. cbv iota.
  read raw "blankets" st Hobj. read raw "combos" st Hobj.
  read raw "rules" st Hobj. read raw "defaultComboId" st Hobj.
  read raw "lastForecast" st Hobj. cbv zeta.
  destruct (act_map_Forall sanitizeBlanket
              (fun v => is_object v = true
                        /\ convertibleAt ["name"; "notes"] v = true)
              (fun y => blanket_id y <> "" /\ blanket_name y <> ""
                        /\ trim (blanket_name y) = blanket_name y))
    with (l := List.filter is_object
                 (arrayOrEmpty (get_prop_opt raw "blankets")))
         (st := st)
    as (bs & st1 & Hbs & Hd1 & HPb);
    [intros x s Hx; apply sanitizeBlanket_shape, Hx
    |apply objects_Forall, Hblankets|].
  destruct (act_map_Forall sanitizeCombo
              (fun v => is_object v = true
                        /\ convertibleAt ["name"] v = true)
              (fun y => combo_id y <> "" /\ combo_name y <> ""
                        /\ trim (combo_name y) = combo_name y))
    with (l := List.filter is_object
                 (arrayOrEmpty (get_prop_opt raw "combos")))
         (st := st1)
    as (cs & st2 & Hcs & Hd2 & HPc);
    [intros x s Hx; apply sanitizeCombo_shape, Hx
    |apply objects_Forall, Hcombos|].
  destruct (act_map_Forall sanitizeRule
              (fun v => is_object v = true
                        /\ convertibleAt ["name"] v
                           && forallb (convertibleAt ["field"; "op"])
                                (objectsAt v "conditions") = true)
              (fun y => rule_id y <> ""))
    with (l := List.filter is_object
                 (arrayOrEmpty (get_prop_opt raw "rules")))
         (st := st2)
    as (rs & st3 & Hrs & Hd3 & HPr);
    [intros x s Hx; apply sanitizeRule_shape, Hx
    |apply (objects_Forall
              (fun r => convertibleAt ["name"] r
                        && forallb (convertibleAt ["field"; "op"])
                             (objectsAt r "conditions"))), Hrules|].
  step Hbs. step Hcs. step Hrs.
  eexists _, st3. split; [reflexivity|].
  split; [eauto using drewIds_trans|].
  unfold sanitized. simpl.
  split; [reflexivity|].
  split; [intros b Hb; exact (proj1 (Forall_forall _ _) HPb b Hb)|].
  split; [intros c Hc; exact (proj1 (Forall_forall _ _) HPc c Hc)|].
  split; [intros r Hr; exact (proj1 (Forall_forall _ _) HPr r Hr)|].
  destruct (truthy _ && typeof_object _) eqn:E; [now right|now left].
Qed.

(** X13. For every object whose names, notes, fields and ops can be
    converted to strings, the dataset [importData] leaves in
    [state.data] (and saves) has version 1, no empty id, blanket and
    combo names that are not empty and that [trim] leaves as they are,
    and a cached forecast that is an object or [null]; the metrics stay,
    and the import returns or throws as the render of the state it
    leaves does. This holds provided [newId] never draws the empty
    string, trimming twice is trimming once, and the two default names
    are trimmed. *)
Theorem import_leaves_sanitized (raw : JsVal) (st : AppState) :
  is_object raw = true ->
  importable raw = true ->
  let st' := fst (importData raw st) in
  sanitized trim (data st')
  /\ localStorage st' !! STORAGE_KEY = Some (JSON_stringify (data st'))
  /\ weatherMetrics st' = weatherMetrics st
  /\ importData raw st = renderAll st'.
Proof.
  intros Hobj Himp.
  destruct (sanitizeImportedData_shape raw st Hobj Himp)
    as (d & st1 & Hrun & (_ & Hw & _) & Hsan).
  rewrite (import_accepted number_to_string string_to_number JSON_stringify
             randomUUID trim raw st st1 d Hrun).
  simpl. split; [exact Hsan|]. split; [apply lookup_insert_eq|].
  split; [exact Hw|reflexivity].
Qed.

(** ** The blanket form *)

Local Abbreviation submitBlanket :=
  (submitBlanket number_to_string string_to_number JSON_stringify randomUUID
     trim).
Local Abbreviation submitCombo :=
  (submitCombo number_to_string string_to_number JSON_stringify randomUUID
     trim).
Local Abbreviation submitRule :=
  (submitRule number_to_string string_to_number JSON_stringify randomUUID
     trim).
Local Abbreviation changeDefaultCombo :=
  (changeDefaultCombo number_to_string string_to_number JSON_stringify trim).
Local Abbreviation saveData := (saveData JSON_stringify).

Lemma submitBlanket_run (formId nameInput notes : string) (st : AppState) :
  submitBlanket formId nameInput notes st
  = if String.eqb (trim nameInput) "" then (st, Ok tt)
    else
      renderAll
        (if String.eqb formId "" then
           saveData
             (set_data
                (set_blankets
                   (blankets (data st)
                    ++ [{| blanket_id := randomUUID (idsDrawn st);
                           blanket_name := trim nameInput;
                           blanket_notes := notes |}])
                   (data st))
                (drawId st))
         else
           saveData
             (set_data
                (set_blankets
                   (updateFirst (fun x => String.eqb (blanket_id x) formId)
                      (fun b => {| blanket_id := blanket_id b;
                                   blanket_name := trim nameInput;
                                   blanket_notes := notes |})
                      (blankets (data st)))
                   (data st))
                st)).
Proof.
  unfold submitBlanket. simpl.
  destruct (String.eqb (trim nameInput) ""); [reflexivity|]. simpl.
  rewrite nonEmptyOr_empty.
  now destruct (String.eqb formId "").
Qed.

(** X14. The blanket form: a name that [trim] empties changes nothing
    and saves nothing. Otherwise the dataset is saved, combos, rules and
    default stay, the handler returns or throws as the render of the
    state it leaves does, and, with an empty blanketId, one blanket with
    the trimmed name, the notes and a newly drawn id is added at the
    end; with a blanketId, the ids stay as they are, the first blanket
    with that id gets the trimmed name and the notes, and nothing changes
    when no blanket has the id. *)
Theorem form_saves_blanket (st : AppState) (formId nameInput notes : string) :
  (trim nameInput = "" ->
   submitBlanket formId nameInput notes st = (st, Ok tt))
  /\ (trim nameInput <> "" ->
      let st' := fst (submitBlanket formId nameInput notes st) in
      submitBlanket formId nameInput notes st = renderAll st'
      /\ combos (data st') = combos (data st)
      /\ rules (data st') = rules (data st)
      /\ defaultComboId (data st') = defaultComboId (data st)
      /\ localStorage st' !! STORAGE_KEY = Some (JSON_stringify (data st'))
      /\ (formId = "" ->
          blankets (data st')
          = blankets (data st)
            ++ [{| blanket_id := randomUUID (idsDrawn st);
                   blanket_name := trim nameInput;
                   blanket_notes := notes |}]
          /\ idsDrawn st' = S (idsDrawn st))
      /\ (formId <> "" ->
          map blanket_id (blankets (data st'))
          = map blanket_id (blankets (data st))
          /\ idsDrawn st' = idsDrawn st
          /\ ((forall b, b ∈ blankets (data st) -> blanket_id b <> formId) ->
              blankets (data st') = blankets (data st))
          /\ (forall pre b post,
                blankets (data st) = pre ++ b :: post ->
                (forall b', b' ∈ pre -> blanket_id b' <> formId) ->
                blanket_id b = formId ->
                blankets (data st')
                = pre ++ {| blanket_id := formId;
                            blanket_name := trim nameInput;
                            blanket_notes := notes |} :: post))).
Proof.
  rewrite submitBlanket_run. split.
  - intros ->. reflexivity.
  - intros Hname. destruct (String.eqb_spec (trim nameInput) "");
      [contradiction|].
    destruct (String.eqb_spec formId "") as [Hid|Hid];
      simpl; (split; [reflexivity|]);
      repeat (split; [reflexivity|]);
      (split; [apply lookup_insert_eq|]);
      (split; [intros Hid'; try contradiction; auto|]);
      intros Hid'; try contradiction.
    split; [now apply updateFirst_map|]. split; [reflexivity|]. split.
    + intros Hnone. apply updateFirst_none. intros b Hb.
      apply String.eqb_neq. now apply Hnone.
    + intros pre b post Hsplit Hpre Hb. rewrite Hsplit.
      rewrite updateFirst_split.
      * now rewrite Hb.
      * intros b' Hb'. apply String.eqb_neq. now apply Hpre.
      * now apply String.eqb_eq.
Qed.

(** ** What every handler keeps *)

Lemma submitCombo_run (formId nameInput : string) (checked : list string)
  (st : AppState) :
  submitCombo formId nameInput checked st
  = if String.eqb (trim nameInput) "" then (st, Ok tt)
    else
      renderAll
        (if String.eqb formId "" then
           saveData
             (set_data
                (set_combos
                   (combos (data st)
                    ++ [{| combo_id := randomUUID (idsDrawn st);
                           combo_name := trim nameInput;
                           blanketIds := checked |}])
                   (data st))
                (drawId st))
         else
           saveData
             (set_data
                (set_combos
                   (updateFirst (fun x => String.eqb (combo_id x) formId)
                      (fun c => {| combo_id := combo_id c;
                                   combo_name := trim nameInput;
                                   blanketIds := checked |})
                      (combos (data st)))
                   (data st))
                st)).
Proof.
  unfold submitCombo. simpl.
  destruct (String.eqb (trim nameInput) ""); [reflexivity|]. simpl.
  rewrite nonEmptyOr_empty.
  now destruct (String.eqb formId "").
Qed.

Lemma submitRule_run (formId name comboSel : string)
  (rows : list ConditionRow) (st : AppState) :
  submitRule formId name comboSel rows st
  = if String.eqb comboSel "" then (st, Ok tt)
    else
      renderAll
        (drawId
           (if String.eqb formId "" then
              saveData
                (set_data
                   (set_rules
                      (rules (data st)
                       ++ [{| rule_id := randomUUID (idsDrawn st);
                              rule_name := name; comboId := comboSel;
                              conditions :=
                                omap (conditionOfRow string_to_number)
                                  rows |}])
                      (data st))
                   (drawId st))
            else
              saveData
                (set_data
                   (set_rules
                      (updateFirst (fun x => String.eqb (rule_id x) formId)
                         (fun r => {| rule_id := rule_id r; rule_name := name;
                                      comboId := comboSel;
                                      conditions :=
                                        omap (conditionOfRow string_to_number)
                                          rows |})
                         (rules (data st)))
                      (data st))
                   st))).
Proof.
  unfold submitRule. simpl.
  destruct (String.eqb comboSel ""); [reflexivity|]. simpl.
  rewrite nonEmptyOr_empty.
  now destruct (String.eqb formId "").
Qed.

Lemma changeDefaultCombo_run (value : string) (st : AppState) :
  let st' := saveData (set_data (set_defaultComboId value (data st)) st) in
  changeDefaultCombo value st
  = (st', _ ← renderRecommendation (data st') (weatherMetrics st'); Ok tt).
Proof.
  unfold changeDefaultCombo, act_bind, act_modify. simpl.
  now rewrite nonEmptyOr_empty.
Qed.

(** X15. Every handler keeps the shape an import gives: when the dataset
    has version 1, no empty id, non-empty blanket and combo names that
    [trim] leaves as they are and a cached forecast that is an object or
    [null], it still has after the blanket, combo and rule forms, a
    change of the default combo, [deleteBlanket], [deleteCombo] and
    [deleteRule], whatever they are given, and after [moveRule] on the
    index of a rule, whatever the step (provided [newId] never draws the
    empty string and trimming twice is trimming once). *)
Theorem handlers_keep_shape (st : AppState) :
  sanitized trim (data st) ->
  (forall formId nameInput notes,
     sanitized trim (data (submitBlanket formId nameInput notes st).1))
  /\ (forall formId nameInput checked,
        sanitized trim (data (submitCombo formId nameInput checked st).1))
  /\ (forall formId name comboSel rows,
        sanitized trim (data (submitRule formId name comboSel rows st).1))
  /\ (forall value, sanitized trim (data (changeDefaultCombo value st).1))
  /\ (forall id confirmed,
        sanitized trim (data (deleteBlanket JSON_stringify id confirmed st))
        /\ sanitized trim (data (deleteCombo JSON_stringify id confirmed st))
        /\ sanitized trim (data (deleteRule JSON_stringify id confirmed st)))
  /\ (forall index delta,
        (index < length (rules (data st)))%nat ->
        exists st',
          moveRule JSON_stringify index delta st = Some st'
          /\ sanitized trim (data st')).
Proof.
  intros Hs. pose proof Hs as (Hv & Hb & Hc & Hr & Hl).
  assert (Hwith : forall bs cs rs dflt,
            (forall b, b ∈ bs ->
               blanket_id b <> "" /\ blanket_name b <> ""
               /\ trim (blanket_name b) = blanket_name b) ->
            (forall c, c ∈ cs ->
               combo_id c <> "" /\ combo_name c <> ""
               /\ trim (combo_name c) = combo_name c) ->
            (forall r, r ∈ rs -> rule_id r <> "") ->
            sanitized trim {| version := version (data st); blankets := bs;
                         combos := cs; rules := rs; defaultComboId := dflt;
                         lastForecast := lastForecast (data st) |}).
  { intros bs cs rs dflt Hbs Hcs Hrs. unfold sanitized.
    simpl. auto. }
  assert (Htrimmed : forall s, trim s <> "" ->
            trim s <> "" /\ trim (trim s) = trim s)
    by (intros s Hne; split; [exact Hne|apply trim_idem]).
  split; [|split; [|split; [|split; [|split]]]].
  - intros formId nameInput notes. rewrite submitBlanket_run.
    destruct (String.eqb_spec (trim nameInput) ""); [exact Hs|].
    destruct (String.eqb formId ""); simpl; apply Hwith; try assumption.
    + intros b Hin. apply elem_of_app in Hin as [Hin|Hin]; [auto|].
      apply list_elem_of_singleton in Hin. subst b. simpl.
      split; [apply randomUUID_nonempty|auto].
    + intros b Hin.
      apply updateFirst_elem in Hin as [Hin|(b0 & Hin & ->)]; [auto|].
      simpl. split; [apply (Hb b0 Hin)|auto].
  - intros formId nameInput checked. rewrite submitCombo_run.
    destruct (String.eqb_spec (trim nameInput) ""); [exact Hs|].
    destruct (String.eqb formId ""); simpl; apply Hwith; try assumption.
    + intros c Hin. apply elem_of_app in Hin as [Hin|Hin]; [auto|].
      apply list_elem_of_singleton in Hin. subst c. simpl.
      split; [apply randomUUID_nonempty|auto].
    + intros c Hin.
      apply updateFirst_elem in Hin as [Hin|(c0 & Hin & ->)]; [auto|].
      simpl. split; [apply (Hc c0 Hin)|auto].
  - intros formId name comboSel rows. rewrite submitRule_run.
    destruct (String.eqb comboSel ""); [exact Hs|].
    destruct (String.eqb formId ""); simpl; apply Hwith; try assumption.
    + intros r Hin. apply elem_of_app in Hin as [Hin|Hin]; [auto|].
      apply list_elem_of_singleton in Hin. subst r. simpl.
      apply randomUUID_nonempty.
    + intros r Hin.
      apply updateFirst_elem in Hin as [Hin|(r0 & Hin & ->)]; [auto|].
      simpl. now apply Hr.
  - intros value. rewrite changeDefaultCombo_run. simpl. now apply Hwith.
  - intros id confirmed. split; [|split].
    + destruct (deleteBlanket_cases JSON_stringify id confirmed st)
        as [->| ->]; [exact Hs|].
      simpl. apply Hwith; try assumption.
      * intros b Hin. apply list_elem_of_filter in Hin as [_ Hin]. auto.
      * intros c Hin. apply list_elem_of_fmap in Hin as (c0 & -> & Hin).
        simpl. auto.
    + destruct (deleteCombo_cases JSON_stringify id confirmed st)
        as [->| ->]; [exact Hs|].
      simpl. apply Hwith; try assumption.
      * intros c Hin. apply list_elem_of_filter in Hin as [_ Hin]. auto.
      * intros r Hin. apply list_elem_of_fmap in Hin as (r0 & -> & Hin).
        unfold clearComboId. destruct (String.eqb _ _); simpl; auto.
    + destruct (deleteRule_cases JSON_stringify id confirmed st)
        as [->| ->]; [exact Hs|].
      simpl. apply Hwith; try assumption.
      intros r Hin. apply list_elem_of_filter in Hin as [_ Hin]. auto.
  - intros index delta Hidx.
    destruct (moveRule_returns JSON_stringify st index delta Hidx)
      as [st' Hmove].
    exists st'. split; [exact Hmove|].
    destruct (moveRule_cases JSON_stringify index delta st st' Hmove)
      as [->|(rs & -> & Hperm)]; [exact Hs|].
    simpl. apply Hwith; try assumption.
    intros r Hin. apply Hr. now rewrite <- Hperm.
Qed.

(** X16. The forms keep the references of the dataset intact when they
    are given what the page offers: with ticked boxes that carry ids of
    blankets, a selected combo that is the id of a combo, and a default
    that is empty or the id of a combo, a dataset whose references lead
    somewhere is still one after the blanket, combo and rule forms and
    after a change of the default. *)
Theorem forms_keep_links (st : AppState) :
  wellLinked (data st) ->
  (forall formId nameInput notes,
     wellLinked (data (submitBlanket formId nameInput notes st).1))
  /\ (forall formId nameInput checked,
        (forall bid, bid ∈ checked ->
           exists b, b ∈ blankets (data st) /\ blanket_id b = bid) ->
        wellLinked (data (submitCombo formId nameInput checked st).1))
  /\ (forall formId name comboSel rows,
        (exists c, c ∈ combos (data st) /\ combo_id c = comboSel) ->
        wellLinked (data (submitRule formId name comboSel rows st).1))
  /\ (forall value,
        value = ""
        \/ (exists c, c ∈ combos (data st) /\ combo_id c = value) ->
        wellLinked (data (changeDefaultCombo value st).1)).
Proof.
  intros Hwl. pose proof Hwl as (Hc & Hr & Hd).
  split; [|split; [|split]].
  - intros formId nameInput notes. rewrite submitBlanket_run.
    destruct (String.eqb (trim nameInput) ""); [exact Hwl|].
    assert (Hkeep : forall bs,
              (forall b, b ∈ blankets (data st) ->
                 exists b', b' ∈ bs /\ blanket_id b' = blanket_id b) ->
              wellLinked (set_blankets bs (data st))).
    { intros bs Hbs. repeat split; [|exact Hr|exact Hd].
      intros c bid Hcin Hbid.
      destruct (Hc c bid Hcin Hbid) as (b & Hb & <-). now apply Hbs. }
    destruct (String.eqb formId ""); simpl; apply Hkeep.
    + intros b Hb. exists b. split; [|reflexivity].
      apply elem_of_app. now left.
    + intros b Hb. apply (same_ids_member blanket_id (blankets (data st)) _ b);
        [|exact Hb].
      now apply updateFirst_map.
  - intros formId nameInput checked Hchecked. rewrite submitCombo_run.
    destruct (String.eqb (trim nameInput) ""); [exact Hwl|].
    assert (Hkeep : forall cs,
              (forall c, c ∈ cs ->
                 c ∈ combos (data st) \/ blanketIds c = checked) ->
              (forall c, c ∈ combos (data st) ->
                 exists c', c' ∈ cs /\ combo_id c' = combo_id c) ->
              wellLinked (set_combos cs (data st))).
    { intros cs Hfrom Hids. repeat split.
      - intros c bid Hcin Hbid. simpl in Hcin.
        destruct (Hfrom c Hcin) as [Hold|Hnew].
        + exact (Hc c bid Hold Hbid).
        + rewrite Hnew in Hbid. now apply Hchecked.
      - intros r Hrin. simpl.
        destruct (Hr r Hrin) as [He|(c & Hcin & <-)]; [now left|right].
        now apply Hids.
      - unfold defaultLinked. simpl.
        destruct Hd as [He|(c & Hcin & <-)]; [now left|right].
        now apply Hids. }
    destruct (String.eqb formId ""); simpl; apply Hkeep.
    + intros c Hin. apply elem_of_app in Hin as [Hin|Hin]; [now left|].
      apply list_elem_of_singleton in Hin. subst c. now right.
    + intros c Hcin. exists c. split; [|reflexivity].
      apply elem_of_app. now left.
    + intros c Hin.
      apply updateFirst_elem in Hin as [Hin|(c0 & Hin & ->)];
        [now left|now right].
    + intros c Hcin. apply (same_ids_member combo_id (combos (data st)) _ c);
        [|exact Hcin].
      now apply updateFirst_map.
  - intros formId name comboSel rows Hsel. rewrite submitRule_run.
    destruct (String.eqb comboSel ""); [exact Hwl|].
    assert (Hkeep : forall rs,
              (forall r, r ∈ rs ->
                 r ∈ rules (data st) \/ comboId r = comboSel) ->
              wellLinked (set_rules rs (data st))).
    { intros rs Hfrom. repeat split; [exact Hc| |exact Hd].
      intros r Hrin. simpl in Hrin.
      destruct (Hfrom r Hrin) as [Hold|Hnew]; [now apply Hr|].
      right. rewrite Hnew. exact Hsel. }
    destruct (String.eqb formId ""); simpl; apply Hkeep.
    + intros r Hin. apply elem_of_app in Hin as [Hin|Hin]; [now left|].
      apply list_elem_of_singleton in Hin. subst r. now right.
    + intros r Hin.
      apply updateFirst_elem in Hin as [Hin|(r0 & Hin & ->)];
        [now left|now right].
  - intros value Hvalue. rewrite changeDefaultCombo_run. simpl.
    repeat split; [exact Hc|exact Hr|exact Hvalue].
Qed.

End ShapeProperties.

(* ===================================================================== *)
(** * Further properties of the metric reduction *)
(* ===================================================================== *)

Section ReductionProperties.

Variable Date_parse : JsVal -> option Z.

Local Abbreviation selectIndices := (selectIndices Date_parse).
Local Abbreviation computeTonightMetricsFromHourly :=
  (computeTonightMetricsFromHourly Date_parse).

Lemma pick_is_reading (better : JsNum -> JsNum -> bool)
  (arr : list JsVal) (indices : list nat) (best : JsVal) :
  isReading best -> isReading (foldl (pickStep better arr) best indices).
Proof.
  revert best. induction indices as [|idx indices IH]; intros best Hbest;
    simpl; [exact Hbest|].
  apply IH. unfold pickStep.
  destruct (isFiniteNumber (arr_at arr idx)) eqn:Hfin; simpl; [|exact Hbest].
  destruct (is_null best || _); [|exact Hbest].
  right. now apply isFiniteNumber_inv.
Qed.

Lemma pick_agree (better : JsNum -> JsNum -> bool) (arr arr' : list JsVal)
  (indices : list nat) (best : JsVal) :
  (forall i, i ∈ indices -> arr_at arr i = arr_at arr' i) ->
  foldl (pickStep better arr) best indices
  = foldl (pickStep better arr') best indices.
Proof.
  revert best. induction indices as [|idx indices IH]; intros best Hagree;
    simpl; [reflexivity|].
  unfold pickStep at 2 4. rewrite (Hagree idx) by constructor.
  apply IH. intros i Hi. apply Hagree. now constructor.
Qed.

(** X17. The metrics the reduction returns are well typed: each of the
    four readings is [null] or a finite number (never NaN, an infinity or
    a string the API sent), wetRisk is a boolean, and wetRisk is false
    whenever the maximum precipitation probability is [null]. *)
Theorem metrics_are_readings (hourly : JsVal) (ws we : Z) (m : Metrics) :
  computeTonightMetricsFromHourly hourly ws we = Ok m ->
  isReading (minTempF m) /\ isReading (minFeelsF m)
  /\ isReading (maxPrecipProb m) /\ isReading (maxWindMph m)
  /\ (exists b, wetRisk m = JBool b)
  /\ (maxPrecipProb m = JNull -> wetRisk m = JBool false).
Proof.
  intros Hm.
  destruct (compute_Ok_arrays _ _ _ _ _ Hm)
    as (times & temps & feels & precip & wind & Ht & Hte & Hf & Hp & Hw).
  rewrite (compute_arrays _ _ _ _ _ _ _ _ _ Ht Hte Hf Hp Hw) in Hm.
  cbv zeta in Hm. destruct (Nat.eqb _ 0); [discriminate|].
  injection Hm as <-. simpl.
  repeat (split; [apply pick_is_reading; now left|]).
  split; [eauto|]. now intros ->.
Qed.

(** X18. Readings outside the window do not matter: two responses with
    the same timestamps whose four series agree at every selected index
    reduce to the same result, whatever the series hold elsewhere and
    however long they are. *)
Theorem outside_readings_do_not_matter (hourly hourly' : JsVal) (ws we : Z)
  (times temps feels precip wind temps' feels' precip' wind' : list JsVal) :
  get_prop_opt hourly "time" = JArr times ->
  get_prop_opt hourly "temperature_2m" = JArr temps ->
  get_prop_opt hourly "apparent_temperature" = JArr feels ->
  get_prop_opt hourly "precipitation_probability" = JArr precip ->
  get_prop_opt hourly "windspeed_10m" = JArr wind ->
  get_prop_opt hourly' "time" = JArr times ->
  get_prop_opt hourly' "temperature_2m" = JArr temps' ->
  get_prop_opt hourly' "apparent_temperature" = JArr feels' ->
  get_prop_opt hourly' "precipitation_probability" = JArr precip' ->
  get_prop_opt hourly' "windspeed_10m" = JArr wind' ->
  (forall i, i ∈ selectIndices times 0 ws we ->
     arr_at temps i = arr_at temps' i /\ arr_at feels i = arr_at feels' i
     /\ arr_at precip i = arr_at precip' i /\ arr_at wind i = arr_at wind' i) ->
  computeTonightMetricsFromHourly hourly ws we
  = computeTonightMetricsFromHourly hourly' ws we.
Proof.
  intros Ht Hte Hf Hp Hw Ht' Hte' Hf' Hp' Hw' Hagree.
  rewrite (compute_arrays _ _ _ _ _ _ _ _ _ Ht Hte Hf Hp Hw).
  rewrite (compute_arrays _ _ _ _ _ _ _ _ _ Ht' Hte' Hf' Hp' Hw').
  cbv zeta. unfold pickMin, pickMax.
  rewrite (pick_agree Num.lt temps temps') by (intros i Hi; apply Hagree, Hi).
  rewrite (pick_agree Num.lt feels feels') by (intros i Hi; apply Hagree, Hi).
  rewrite (pick_agree Num.gt precip precip')
    by (intros i Hi; apply Hagree, Hi).
  rewrite (pick_agree Num.gt wind wind') by (intros i Hi; apply Hagree, Hi).
  reflexivity.
Qed.

End ReductionProperties.

(* ===================================================================== *)
(** * Properties of fetching the forecast *)
(* ===================================================================== *)

Section FetchProperties.

Variable number_to_string : JsNum -> string.
Variable LocalTime : Z -> Z.
Variable UTC : Z -> Z.
Variable Date_parse : JsVal -> option Z.
Variable JSON_parse : string -> option JsVal.
Variable formatYmd : Z -> string.
Variable fetch : string -> string -> string -> option HttpResponse.

Local Abbreviation computeTonightMetricsFromHourly :=
  (computeTonightMetricsFromHourly Date_parse).
Local Abbreviation fetchOpenMeteo :=
  (fetchOpenMeteo number_to_string JSON_parse fetch).
Local Abbreviation fetchAttempt :=
  (fetchAttempt number_to_string Date_parse JSON_parse formatYmd fetch).
Local Abbreviation fetchTonightMetrics :=
  (fetchTonightMetrics number_to_string LocalTime UTC Date_parse JSON_parse
     formatYmd fetch).
Local Abbreviation getTonightWindow := (getTonightWindow LocalTime UTC).

Lemma fetchOpenMeteo_Got (startDate endDate timezone : string) (json : JsVal) :
  fetchOpenMeteo startDate endDate timezone = Got json ->
  exists res,
    fetch startDate endDate timezone = Some res /\ res_ok res = true
    /\ JSON_parse (res_text res) = Some json /\ truthy json = true.
Proof.
  unfold fetchOpenMeteo, safeJsonParse.
  destruct (fetch startDate endDate timezone) as [res|]; [|discriminate].
  cbv zeta. destruct (res_ok res) eqn:Hok; simpl; [|discriminate].
  destruct (JSON_parse (res_text res)) as [v|] eqn:Hparse; simpl;
    [|discriminate].
  destruct (truthy v) eqn:Hv; simpl; [|discriminate].
  intros [= <-]. exists res. auto.
Qed.

Lemma fetchAttempt_Got (w : Window) (timezone : string) (m : Metrics)
  (tz : string) :
  fetchAttempt w timezone = Got (m, tz) ->
  tz = timezone
  /\ exists res json,
       fetch (formatYmd (w_start w)) (formatYmd (w_end w)) timezone = Some res
       /\ res_ok res = true
       /\ JSON_parse (res_text res) = Some json /\ truthy json = true
       /\ computeTonightMetricsFromHourly (get_prop_opt json "hourly")
            (w_start w) (w_end w) = Ok m.
Proof.
  unfold fetchAttempt.
  destruct (fetchOpenMeteo _ _ timezone) as [json|e] eqn:Hjson;
    [|discriminate].
  apply fetchOpenMeteo_Got in Hjson as (res & Hres & Hok & Hparse & Htruthy).
  assert (Hget : get_prop json "hourly" = Ok (get_prop_opt json "hourly"))
    by (destruct json; try discriminate Htruthy; reflexivity).
  rewrite Hget, exn_bind_Ok.
  destruct (computeTonightMetricsFromHourly _ _ _) as [m'|e] eqn:Hm;
    [|discriminate].
  intros [= <- <-]. split; [reflexivity|]. eauto 10.
Qed.

(** X19. Metrics that [fetchTonightMetrics] returns always come from a
    response that was ok and whose body parsed to a truthy value: they
    are the reduction of that response's [hourly] over tonight's window,
    and the zone returned with them is the zone of that request, the
    local zone or "auto" after a failed attempt in a local zone other
    than "auto". When [fetchTonightMetrics] fails, the error it reports
    is the error of the attempt in the zone "auto". *)
Theorem fetched_metrics_are_sound (now : Z) (localTz : string) :
  let w := getTonightWindow now in
  (forall m tz,
     fetchTonightMetrics now localTz = Got (m, tz) ->
     (tz = localTz \/ (tz = "auto" /\ localTz <> "auto"))
     /\ exists res json,
          fetch (formatYmd (w_start w)) (formatYmd (w_end w)) tz = Some res
          /\ res_ok res = true
          /\ JSON_parse (res_text res) = Some json /\ truthy json = true
          /\ computeTonightMetricsFromHourly (get_prop_opt json "hourly")
               (w_start w) (w_end w) = Ok m)
  /\ (forall e,
        fetchTonightMetrics now localTz = Failed e ->
        fetchAttempt w "auto" = Failed e).
Proof.
  intros w. unfold fetchTonightMetrics. fold w.
  destruct (fetchAttempt w localTz) as [[m0 tz0]|e0] eqn:Hfirst.
  - split; [|discriminate].
    intros m tz [= <- <-].
    apply fetchAttempt_Got in Hfirst as [-> Hres]. split; [now left|exact Hres].
  - destruct (String.eqb_spec localTz "auto") as [->|Hne]; simpl.
    + split; [discriminate|]. now intros e [= <-].
    + split; [|auto]. intros m tz Hsecond.
      apply fetchAttempt_Got in Hsecond as [-> Hres]. split; [right; auto|].
      exact Hres.
Qed.

End FetchProperties.

(* ===================================================================== *)
(** * Properties of the service worker *)
(* ===================================================================== *)

Section WorkerProperties.

Import Worker.

Variable originOf : string -> string.
Variable selfOrigin : string.
Variable resolve : string -> string.

Local Abbreviation onInstall := (onInstall resolve).
Local Abbreviation allFetched := (allFetched resolve).
Local Abbreviation addAll := (addAll resolve).
Local Abbreviation onFetch := (onFetch originOf selfOrigin resolve).
Local Abbreviation shellOf := (shellOf resolve).

Lemma openCache_withCache (content : gmap string Response)
  (caches : gmap string (gmap string Response)) :
  openCache (withCache content caches) = content.
Proof. unfold openCache, withCache. now rewrite lookup_insert_eq. Qed.

Lemma withCache_other (content : gmap string Response)
  (caches : gmap string (gmap string Response)) (name : string) :
  name <> CACHE_NAME -> withCache content caches !! name = caches !! name.
Proof. intros Hne. unfold withCache. now rewrite lookup_insert_ne. Qed.

Lemma allFetched_elem (network : string -> option Response)
  (l : list string) :
  allFetched network l = true ->
  forall a, a ∈ l ->
    exists r, network (resolve a) = Some r /\ resp_ok r = true.
Proof.
  unfold allFetched. intros Hall a Ha.
  rewrite forallb_forall in Hall.
  assert (Hin : In (resolve a, network (resolve a))
                  (map (fun a => (resolve a, network (resolve a))) l)).
  { apply in_map_iff. exists a. split; [reflexivity|].
    now apply list_elem_of_In. }
  apply Hall in Hin. simpl in Hin.
  destruct (network (resolve a)) as [r|]; [eauto|discriminate].
Qed.

Lemma allFetched_false (network : string -> option Response)
  (l : list string) :
  allFetched network l = false ->
  exists a,
    a ∈ l
    /\ (network (resolve a) = None
        \/ exists r, network (resolve a) = Some r /\ resp_ok r = false).
Proof.
  unfold allFetched. induction l as [|a l IH]; [discriminate|].
  simpl. intros Hall. apply andb_false_iff in Hall as [Ha|Hl].
  - exists a. split; [left|].
    destruct (network (resolve a)) as [r|]; [right; eauto|now left].
  - destruct (IH Hl) as (a' & Ha' & Hbad). exists a'. split; [now right|].
    exact Hbad.
Qed.

Lemma addAll_lookup (network : string -> option Response)
  (l : list string) (cache : gmap string Response) (url : string) :
  allFetched network l = true ->
  addAll network cache l !! url
  = if decide (url ∈ map resolve l) then network url else cache !! url.
Proof.
  revert cache. induction l as [|a l IH]; intros cache Hall.
  - destruct (decide (url ∈ map resolve [])) as [Hin|_]; [|reflexivity].
    now apply elem_of_nil in Hin.
  - pose proof (allFetched_elem _ _ Hall a) as (r & Hr & _); [left|].
    unfold allFetched in Hall. simpl in Hall.
    apply andb_true_iff in Hall as [_ Hall].
    unfold addAll. simpl. rewrite Hr.
    change (foldl _ ?c _) with (addAll network c l).
    rewrite (IH _ Hall). simpl.
    destruct (decide (url ∈ map resolve l)) as [Hin|Hout].
    + rewrite decide_True; [reflexivity|now right].
    + destruct (decide (url = resolve a)) as [->|Hne].
      * rewrite decide_True; [|left]. now rewrite lookup_insert_eq.
      * rewrite decide_False.
        -- now rewrite lookup_insert_ne.
        -- intros Hin. apply elem_of_cons in Hin as [?|?]; contradiction.
Qed.

(** What the fetch handler leaves in the current cache. *)
Lemma onFetch_cache (request : Request) (network : option Response)
  (caches caches' : gmap string (gmap string Response))
  (resp : option Response) :
  onFetch request network caches = Some (resp, caches') ->
  exists content,
    caches' = withCache content caches
    /\ (content = openCache caches
        \/ exists res,
             network = Some res /\ resp_ok res = true
             /\ content
                = <[(if String.eqb (req_mode request) "navigate"
                     then resolve "./index.html" else req_url request)
                    := res]> (openCache caches)).
Proof.
  unfold onFetch.
  destruct (negb _); [discriminate|]. destruct (negb _); [discriminate|].
  destruct (String.eqb (req_mode request) "navigate").
  - destruct network as [res|]; intros [= <- <-]; eexists;
      (split; [reflexivity|]); [|now left].
    destruct (resp_ok res) eqn:Hok; [right; eauto|now left].
  - destruct (openCache caches !! req_url request) as [cached|].
    + intros [= <- <-]. eexists. split; [reflexivity|].
      destruct network as [res|]; [|now left].
      destruct (resp_ok res) eqn:Hok; [right; eauto|now left].
    + destruct network as [res|]; intros [= <- <-]; eexists;
        (split; [reflexivity|]); [|now left].
      destruct (resp_ok res) eqn:Hok; [right; eauto|now left].
Qed.

(** X20. The fetch handler leaves a request to the browser exactly when
    it is not a GET or goes to another origin. When it answers, it
    touches no cache but the current one, and there at most one entry:
    the entry of the requested URL (of the shell page for a navigation),
    which it sets to the response of the network, and only when that
    response is ok. An asset that is in the cache is answered with the
    cached response whatever the network does. *)
Theorem fetch_handler_frame (request : Request) (network : option Response)
  (caches : gmap string (gmap string Response)) :
  (onFetch request network caches = None
   <-> req_method request <> "GET"
       \/ originOf (req_url request) <> selfOrigin)
  /\ (forall resp caches',
        onFetch request network caches = Some (resp, caches') ->
        (forall name, name <> CACHE_NAME -> caches' !! name = caches !! name)
        /\ (forall url,
              openCache caches' !! url = openCache caches !! url
              \/ exists res,
                   network = Some res /\ resp_ok res = true
                   /\ openCache caches' !! url = Some res
                   /\ url = (if String.eqb (req_mode request) "navigate"
                             then resolve "./index.html"
                             else req_url request)))
  /\ (forall cached,
        req_method request = "GET" ->
        originOf (req_url request) = selfOrigin ->
        req_mode request <> "navigate" ->
        openCache caches !! req_url request = Some cached ->
        exists caches',
          onFetch request network caches = Some (Some cached, caches')).
Proof.
  split; [|split].
  - unfold onFetch.
    destruct (String.eqb_spec (req_method request) "GET") as [Hm|Hm]; simpl.
    + destruct (String.eqb_spec (originOf (req_url request)) selfOrigin)
        as [Ho|Ho]; simpl.
      * split; [|intros [H|H]; contradiction].
        destruct (String.eqb _ "navigate"); [destruct network|];
          try discriminate.
        destruct (_ !! _); [discriminate|]. destruct network; discriminate.
      * split; auto.
    + split; auto.
  - intros resp caches' Hrun.
    apply onFetch_cache in Hrun as (content & -> & Hcontent). split.
    + intros name Hname. now apply withCache_other.
    + intros url. rewrite openCache_withCache.
      destruct Hcontent as [->|(res & Hnet & Hok & ->)]; [now left|].
      destruct (decide ((if String.eqb (req_mode request) "navigate"
                         then resolve "./index.html" else req_url request)
                        = url)) as [<-|Hne].
      * right. exists res. rewrite lookup_insert_eq. auto.
      * left. now rewrite lookup_insert_ne.
  - intros cached Hm Ho Hmode Hcached. unfold onFetch.
    rewrite Hm, Ho, !String.eqb_refl. simpl.
    destruct (String.eqb_spec (req_mode request) "navigate");
      [contradiction|].
    rewrite Hcached. eauto.
Qed.

(** X21. The cache only ever holds ok responses: when every response in
    the current cache is ok, the same is true after the fetch handler has
    run on any request with any outcome of the network, and after the
    install handler, whether the installation went through or not. *)
Theorem cache_holds_ok_responses
  (caches : gmap string (gmap string Response)) :
  holdsOkOnly (openCache caches) ->
  (forall request network resp caches',
     onFetch request network caches = Some (resp, caches') ->
     holdsOkOnly (openCache caches'))
  /\ (forall network, holdsOkOnly (openCache (onInstall network caches).1)).
Proof.
  intros Hok. split.
  - intros request network resp caches' Hrun.
    apply onFetch_cache in Hrun as (content & -> & Hcontent).
    rewrite openCache_withCache.
    destruct Hcontent as [->|(res & _ & Hres & ->)]; [exact Hok|].
    intros url r Hr. apply lookup_insert_Some in Hr as [[_ <-]|[_ Hr]];
      [exact Hres|exact (Hok url r Hr)].
  - intros network. unfold onInstall.
    destruct (allFetched network ASSETS) eqn:Hall; simpl;
      rewrite openCache_withCache; [|exact Hok].
    intros url r Hr. rewrite (addAll_lookup _ _ _ _ Hall) in Hr.
    destruct (decide _) as [Hin|_]; [|exact (Hok url r Hr)].
    apply list_elem_of_fmap in Hin as (a & -> & Ha).
    destruct (allFetched_elem _ _ Hall a Ha) as (r' & Hr' & Hokr).
    congruence.
Qed.

Lemma withCache_openCache (content : gmap string Response)
  (caches : gmap string (gmap string Response)) :
  withCache (openCache (withCache content caches)) (withCache content caches)
  = withCache content caches.
Proof.
  rewrite openCache_withCache. unfold withCache.
  apply insert_id. now rewrite lookup_insert_eq.
Qed.

(** X22. Installation is all or nothing. When it goes through, every
    asset is in the current cache under its URL, with the ok response the
    network gave for it, and every other entry of that cache is as
    before. When it does not, some asset gave no response or one that is
    not ok, and the content of the cache is as before. In both cases the
    other caches are untouched. *)
Theorem install_is_all_or_nothing (network : string -> option Response)
  (caches : gmap string (gmap string Response)) :
  (forall name,
     name <> CACHE_NAME ->
     (onInstall network caches).1 !! name = caches !! name)
  /\ if (onInstall network caches).2
     then
       (forall a,
          a ∈ ASSETS ->
          exists r,
            network (resolve a) = Some r /\ resp_ok r = true
            /\ openCache (onInstall network caches).1 !! resolve a = Some r)
       /\ (forall url,
             url ∉ map resolve ASSETS ->
             openCache (onInstall network caches).1 !! url
             = openCache caches !! url)
     else
       openCache (onInstall network caches).1 = openCache caches
       /\ exists a,
            a ∈ ASSETS
            /\ (network (resolve a) = None
                \/ exists r,
                     network (resolve a) = Some r /\ resp_ok r = false).
Proof.
  unfold onInstall.
  destruct (allFetched network ASSETS) eqn:Hall; cbn [fst snd].
  - split; [intros name Hname; now apply withCache_other|].
    rewrite openCache_withCache. split.
    + intros a Ha.
      destruct (allFetched_elem _ _ Hall a Ha) as (r & Hr & Hok).
      exists r. split; [exact Hr|]. split; [exact Hok|].
      rewrite (addAll_lookup _ _ _ _ Hall), decide_True; [exact Hr|].
      apply list_elem_of_fmap. eauto.
    + intros url Hurl.
      now rewrite (addAll_lookup _ _ _ _ Hall), decide_False.
  - split; [intros name Hname; now apply withCache_other|].
    rewrite openCache_withCache. split; [reflexivity|].
    exact (allFetched_false _ _ Hall).
Qed.

(** X23. Once installed, the application works offline. After an
    installation that went through, a same-origin GET that is a
    navigation or asks for one of the assets is answered, with the
    network down, by an ok response and the storage stays as it is: a
    navigation gets the response stored for the shell page, an asset
    request the response stored for that asset. *)
Theorem installed_app_works_offline (network : string -> option Response)
  (caches caches1 : gmap string (gmap string Response)) (request : Request) :
  onInstall network caches = (caches1, true) ->
  req_method request = "GET" ->
  originOf (req_url request) = selfOrigin ->
  req_mode request = "navigate"
  \/ (exists a, a ∈ ASSETS /\ req_url request = resolve a) ->
  exists r,
    onFetch request None caches1 = Some (Some r, caches1)
    /\ resp_ok r = true
    /\ network (if String.eqb (req_mode request) "navigate"
                then resolve "./index.html" else req_url request) = Some r.
Proof.
  unfold onInstall.
  destruct (allFetched network ASSETS) eqn:Hall; [|discriminate].
  intros [= <-] Hm Ho Hreq.
  assert (Hasset : forall a, a ∈ ASSETS ->
            exists r, network (resolve a) = Some r /\ resp_ok r = true
              /\ addAll network (openCache caches) ASSETS !! resolve a
                 = Some r).
  { intros a Ha. destruct (allFetched_elem _ _ Hall a Ha) as (r & Hr & Hok).
    exists r. split; [exact Hr|]. split; [exact Hok|].
    rewrite (addAll_lookup _ _ _ _ Hall), decide_True; [exact Hr|].
    apply list_elem_of_fmap. eauto. }
  unfold onFetch. rewrite Hm, Ho, !String.eqb_refl. cbn [negb].
  rewrite withCache_openCache, openCache_withCache.
  destruct (String.eqb_spec (req_mode request) "navigate") as [Hnav|Hnav].
  - destruct (Hasset "./index.html") as (r & Hr & Hok & Hc).
    { unfold ASSETS. constructor. constructor. }
    exists r. unfold shellOf. rewrite Hc. auto.
  - destruct Hreq as [Hreq|(a & Ha & Hurl)]; [contradiction|].
    destruct (Hasset a Ha) as (r & Hr & Hok & Hc).
    exists r. rewrite Hurl, Hc. auto.
Qed.

(** X24. Activation deletes every cache but the current one and leaves
    the current one as it is, so the fetch handler answers every request
    after activation as it would have before. *)
Theorem activate_keeps_current_cache
  (caches : gmap string (gmap string Response)) :
  onActivate caches !! CACHE_NAME = caches !! CACHE_NAME
  /\ (forall name, name <> CACHE_NAME -> onActivate caches !! name = None)
  /\ (forall request network,
        fst <$> onFetch request network (onActivate caches)
        = fst <$> onFetch request network caches).
Proof.
  assert (Hcur : onActivate caches !! CACHE_NAME = caches !! CACHE_NAME).
  { unfold onActivate.
    destruct (caches !! CACHE_NAME) as [c|] eqn:Hc.
    - apply map_lookup_filter_Some. auto.
    - apply map_lookup_filter_None. left. exact Hc. }
  split; [exact Hcur|]. split.
  - intros name Hname. unfold onActivate.
    apply map_lookup_filter_None. right. intros c _. exact Hname.
  - intros request network.
    assert (Hopen : openCache (onActivate caches) = openCache caches)
      by (unfold openCache; now rewrite Hcur).
    unfold onFetch. rewrite Hopen.
    destruct (negb _); [reflexivity|]. destruct (negb _); [reflexivity|].
    destruct (String.eqb _ "navigate"); [now destruct network|].
    destruct (_ !! req_url request); now destruct network.
Qed.

End WorkerProperties.

(* ===================================================================== *)
(** * The sample runtime *)
(* ===================================================================== *)

(** The [trim] of the sample runtime trims twice as it trims once. *)

Lemma chars_rev_app (s1 s2 : string) :
  list_ascii_of_string (String.rev_app s1 s2)
  = List.rev (list_ascii_of_string s1) ++ list_ascii_of_string s2.
Proof.
  revert s2. induction s1 as [|c s1 IH]; intros s2; simpl; [reflexivity|].
  rewrite IH. simpl. now rewrite <- app_assoc.
Qed.

Lemma chars_rev (s : string) :
  list_ascii_of_string (String.rev s) = List.rev (list_ascii_of_string s).
Proof. unfold String.rev. rewrite chars_rev_app. simpl. apply app_nil_r. Qed.

Lemma chars_trimStart (s : string) :
  list_ascii_of_string (Sample.trimStart s)
  = Sample.dropWs (list_ascii_of_string s).
Proof.
  induction s as [|c s IH]; simpl; [reflexivity|].
  now destruct (Sample.is_ws c).
Qed.

Lemma chars_trim (s : string) :
  list_ascii_of_string (Sample.trim s)
  = List.rev
      (Sample.dropWs (List.rev (Sample.dropWs (list_ascii_of_string s)))).
Proof.
  unfold Sample.trim.
  now rewrite chars_rev, chars_trimStart, chars_rev, chars_trimStart.
Qed.

(** The list starts with no white space. *)
Local Abbreviation startsClean l :=
  (match l with [] => True | c :: _ => Sample.is_ws c = false end).

Lemma dropWs_clean (l : list ascii) : startsClean (Sample.dropWs l).
Proof.
  induction l as [|c l IH]; simpl; [exact I|].
  destruct (Sample.is_ws c) eqn:E; [exact IH|exact E].
Qed.

Lemma dropWs_id (l : list ascii) : startsClean l -> Sample.dropWs l = l.
Proof. destruct l as [|c l]; simpl; [reflexivity|]. now intros ->. Qed.

Lemma dropWs_suffix (l : list ascii) : exists w, l = w ++ Sample.dropWs l.
Proof.
  induction l as [|c l [w Hw]]; [now exists []|]. simpl.
  destruct (Sample.is_ws c); [|now exists []].
  exists (c :: w). simpl. now f_equal.
Qed.

Lemma trim_chars_idem (l : list ascii) :
  let t := List.rev (Sample.dropWs (List.rev (Sample.dropWs l))) in
  List.rev (Sample.dropWs (List.rev (Sample.dropWs t))) = t.
Proof.
  intros t.
  set (a := Sample.dropWs l) in *.
  set (b := Sample.dropWs (List.rev a)) in *.
  assert (Ha : startsClean a) by apply dropWs_clean.
  assert (Hb : startsClean b) by apply dropWs_clean.
  destruct (dropWs_suffix (List.rev a)) as [w Hw]. fold b in Hw.
  assert (Hat : a = t ++ List.rev w).
  { subst t. rewrite <- rev_app_distr, <- Hw. now rewrite rev_involutive. }
  assert (Ht : startsClean t).
  { destruct t as [|c t']; [exact I|]. rewrite Hat in Ha. exact Ha. }
  rewrite (dropWs_id t Ht). subst t. rewrite rev_involutive.
  now rewrite (dropWs_id b Hb).
Qed.

Lemma sample_trim_idem (s : string) :
  Sample.trim (Sample.trim s) = Sample.trim s.
Proof.
  rewrite <- (string_of_list_ascii_of_string (Sample.trim (Sample.trim s))).
  rewrite <- (string_of_list_ascii_of_string (Sample.trim s)) at 2.
  f_equal. rewrite (chars_trim (Sample.trim s)), (chars_trim s).
  apply trim_chars_idem.
Qed.

(* ===================================================================== *)
(** * The further properties on the sample barn *)
(* ===================================================================== *)

Module BarnExamples.

Import Sample.
Import Barn.

Lemma barn_wellLinked : wellLinked barnData.
Proof.
  split; [|split].
  - intros c bid Hc Hbid.
    assert (Hb : bid = "b1" \/ bid = "b2").
    { simpl in Hc. apply elem_of_cons in Hc as [->|Hc];
        [|apply list_elem_of_singleton in Hc as ->]; simpl in Hbid.
      - apply list_elem_of_singleton in Hbid. now left.
      - apply elem_of_cons in Hbid as [->|Hbid]; [now left|].
        apply list_elem_of_singleton in Hbid. now right. }
    destruct Hb as [->| ->].
    + exists sheet. split; [left|reflexivity].
    + exists mediumBlanket. split; [right; left|reflexivity].
  - intros r Hr. right. simpl in Hr.
    apply elem_of_cons in Hr as [->|Hr];
      [|apply list_elem_of_singleton in Hr as ->].
    + exists heavyCombo. split; [right; left|reflexivity].
    + exists lightCombo. split; [left|reflexivity].
  - right. exists lightCombo. split; [left|reflexivity].
Qed.

Lemma barn_sanitized : sanitized trim barnData.
Proof.
  split; [reflexivity|]. split; [|split; [|split]].
  - intros b Hb. simpl in Hb.
    apply elem_of_cons in Hb as [->|Hb];
      [|apply list_elem_of_singleton in Hb as ->];
      (split; [discriminate|]; split; [discriminate|reflexivity]).
  - intros c Hc. simpl in Hc.
    apply elem_of_cons in Hc as [->|Hc];
      [|apply list_elem_of_singleton in Hc as ->];
      (split; [discriminate|]; split; [discriminate|reflexivity]).
  - intros r Hr. simpl in Hr.
    apply elem_of_cons in Hr as [->|Hr];
      [|apply list_elem_of_singleton in Hr as ->]; discriminate.
  - now left.
Qed.

Lemma sample_ids_nonempty (k : nat) : randomUUID k <> "".
Proof. unfold randomUUID. simpl. discriminate. Qed.

Lemma form_appends_rule_witness :
  length
    (rules
       (data
          (fst (submitRule number_to_string string_to_number JSON_stringify
                  randomUUID trim "" "Wet" "c1" [] barnState)))) = 3%nat
  /\ idsDrawn
       (fst (submitRule number_to_string string_to_number JSON_stringify
               randomUUID trim "" "Wet" "c1" [] barnState)) = 2%nat.
Proof.
  destruct (form_appends_rule number_to_string string_to_number
              JSON_stringify randomUUID trim barnState "Wet" "c1" []
              coldNight)
    as (Hrules & _ & _ & _ & _ & Hids & _); [discriminate|].
  split; [rewrite Hrules; reflexivity|exact Hids].
Defined.

Lemma moveRule_swaps_witness :
  exists st',
    moveRule JSON_stringify 0 1 barnState = Some st'
    /\ rules (data st') !! 0%nat = Some catchAllRule.
Proof.
  destruct (moveRule_swaps JSON_stringify barnState 0 1)
    as (st' & Hrun & _ & _ & _ & _ & _ & _ & Hswap); [simpl; lia|].
  exists st'. split; [exact Hrun|].
  destruct Hswap as (H0 & _); [simpl; lia|]. exact H0.
Defined.

Lemma moveRule_back_witness :
  exists st' st'',
    moveRule JSON_stringify 0 1 barnState = Some st'
    /\ moveRule JSON_stringify 1 (-1) st' = Some st''
    /\ data st'' = barnData.
Proof.
  apply (moveRule_back JSON_stringify barnState 0 1); simpl; lia.
Defined.

Lemma deletes_keep_links_witness :
  wellLinked (data (deleteCombo JSON_stringify "c1" true barnState)).
Proof.
  apply (deletes_keep_links JSON_stringify barnState barn_wellLinked).
Defined.


Lemma numeric_condition_compares_witness :
  condMatches number_to_string string_to_number
    (condition_to_js {| cond_field := "minTempF"; cond_op := "<=";
                        cond_value := num 40 |}) coldNight
  = Ok true.
Proof.
  destruct (numeric_condition_compares number_to_string string_to_number
              coldNight "minTempF" (inject_Z 30) (inject_Z 40))
    as (Hle & _); [discriminate|reflexivity|].
  apply Hle. unfold QArith_base.Qle. simpl. lia.
Defined.


Lemma import_leaves_sanitized_witness :
  sanitized trim
    (data
       (fst (importData number_to_string string_to_number JSON_stringify
               randomUUID trim
               (JObj [("blankets", JArr [JObj [("name", JStr " Sheet ")]])])
               emptyState))).
Proof.
  destruct (import_leaves_sanitized number_to_string string_to_number
              JSON_stringify randomUUID trim sample_ids_nonempty
              sample_trim_idem eq_refl eq_refl
              (JObj [("blankets", JArr [JObj [("name", JStr " Sheet ")]])])
              emptyState eq_refl eq_refl)
    as (Hshape & _).
  exact Hshape.
Defined.

Lemma handlers_keep_shape_witness :
  sanitized trim
    (data (submitBlanket number_to_string string_to_number JSON_stringify
             randomUUID trim "" " Rain sheet " "" barnState).1).
Proof.
  destruct (handlers_keep_shape number_to_string string_to_number
              JSON_stringify randomUUID trim sample_ids_nonempty
              sample_trim_idem barnState barn_sanitized) as (Hblanket & _).
  apply Hblanket.
Defined.

Lemma forms_keep_links_witness :
  wellLinked
    (data (changeDefaultCombo number_to_string string_to_number
             JSON_stringify trim "c2" barnState).1).
Proof.
  destruct (forms_keep_links number_to_string string_to_number JSON_stringify
              randomUUID trim barnState barn_wellLinked)
    as (_ & _ & _ & Hdefault).
  apply Hdefault. right. exists heavyCombo. split; [right; left|reflexivity].
Defined.

Lemma barn_reduction :
  computeTonightMetricsFromHourly Date_parse hourly 100 400
  = Ok sampleMetrics.
Proof. vm_compute. reflexivity. Qed.

Lemma metrics_are_readings_witness :
  isReading (minTempF sampleMetrics) /\ isReading (maxWindMph sampleMetrics).
Proof.
  destruct (metrics_are_readings Date_parse
              hourly 100 400 sampleMetrics barn_reduction)
    as (Htemp & _ & _ & Hwind & _).
  split; [exact Htemp|exact Hwind].
Defined.

Lemma barn_selected :
  selectIndices Date_parse [num 100; num 200; num 300; num 400] 0 100 400
  = [0; 1; 2]%nat.
Proof. vm_compute. reflexivity. Qed.

Lemma barn_same_in_window (i : nat) :
  i ∈ selectIndices Date_parse [num 100; num 200; num 300; num 400] 0 100 400 ->
  arr_at [JNull; num 41; num 38; num 20] i
  = arr_at [JNull; num 41; num 38; num (-5)] i
  /\ arr_at [num 35; JNum NaN; num 36; num 10] i
     = arr_at [num 35; JNum NaN; num 36; JNull] i
  /\ arr_at [num 20; num 50; JNull; num 90] i
     = arr_at [num 20; num 50; JNull; num 0] i
  /\ arr_at [JNull; JNull] i = arr_at [JNull; JNull] i.
Proof.
  rewrite barn_selected. intros Hi.
  apply elem_of_cons in Hi as [->|Hi]; [repeat split|].
  apply elem_of_cons in Hi as [->|Hi]; [repeat split|].
  apply list_elem_of_singleton in Hi as ->. repeat split.
Qed.

Lemma outside_readings_do_not_matter_witness :
  computeTonightMetricsFromHourly Date_parse hourly 100 400
  = computeTonightMetricsFromHourly Date_parse hourlyLate 100 400.
Proof.
  exact (outside_readings_do_not_matter
           Date_parse hourly hourlyLate 100 400
           [num 100; num 200; num 300; num 400]
           [JNull; num 41; num 38; num 20]
           [num 35; JNum NaN; num 36; num 10]
           [num 20; num 50; JNull; num 90]
           [JNull; JNull]
           [JNull; num 41; num 38; num (-5)]
           [num 35; JNum NaN; num 36; JNull]
           [num 20; num 50; JNull; num 0]
           [JNull; JNull]
           eq_refl eq_refl eq_refl eq_refl eq_refl
           eq_refl eq_refl eq_refl eq_refl eq_refl barn_same_in_window).
Defined.

Lemma empty_storage_holds_ok : holdsOkOnly (Worker.openCache ∅).
Proof. intros url r Hr. vm_compute in Hr. discriminate Hr. Qed.

Lemma cache_holds_ok_responses_witness :
  holdsOkOnly (Worker.openCache (Worker.onInstall resolve network ∅).1).
Proof.
  destruct (cache_holds_ok_responses originOf selfOrigin resolve ∅
              empty_storage_holds_ok) as (_ & Hinstall).
  apply Hinstall.
Defined.

Lemma installed_app_works_offline_witness :
  exists r,
    Worker.onFetch originOf selfOrigin resolve appScript None
      (Worker.onInstall resolve network ∅).1
    = Some (Some r, (Worker.onInstall resolve network ∅).1)
    /\ Worker.resp_ok r = true.
Proof.
  destruct (installed_app_works_offline originOf selfOrigin resolve network
              ∅ (Worker.onInstall resolve network ∅).1 appScript)
    as (r & Hrun & Hok & _).
  - reflexivity.
  - reflexivity.
  - reflexivity.
  - right. exists "./app.js". split; [|reflexivity].
    unfold Worker.ASSETS. do 3 right. left.
  - exists r. split; [exact Hrun|exact Hok].
Defined.

End BarnExamples.
